(** * Keeper Commander: import reconciliation ([keepercommander/imp_exp.py])

    A shallow embedding of the import pipeline of [imp_exp.py]
    ([prepare_shared_folder_add], [prepare_folder_add], [prepare_record_add],
    [prepare_record_link], [prepare_record_permission], [execute_batch]) and
    the properties of it that the specification states; then the paths of
    the export ([get_folder_path], [get_import_folder]) and the shared
    folders read from a file ([parse_sf_json], [create_sf]), with further
    properties of all of these.

    Conventions of the embedding.
    - Python [str] and [bytes] values are [string]s (sequences of bytes; a
      text is its UTF-8 encoding).  [str.lower] is modelled on the ASCII
      letters.
    - [None] is [None]; Python truthiness is written out ([truthy]).
    - Insertion-ordered dictionaries whose iteration order is observed
      (the caches of [params], [emails]) are association lists with unique
      keys ([dict]); [folder_hash] and [record_hash], which are only looked
      up and assigned, are [gmap]s.
    - A call that may raise returns a [py] value; [try]/[except] is
      [try_except].
    - Encryption is symbolic: a ciphertext records what was encrypted and
      under which key.
    - Random draws ([os.urandom], [api.generate_record_uid]) read an entropy
      source by position; the positions are threaded through the code.
    - A [while] loop that need not end takes fuel; its result tells whether
      it returned ([walked]). *)

From Stdlib Require Import String Ascii List NArith Arith Lia Bool.
From stdpp Require Import base option list gmap strings pretty.
Import ListNotations.
Local Open Scope string_scope.
Local Open Scope list_scope.

(** ** Python values and exceptions *)

Inductive exn : Type :=
| KeyError (key : string)
| TypeError (what : string)
| IndexError
| RemoteError (message : string).

Inductive py (A : Type) : Type :=
| Ret (a : A)
| Raise (e : exn).
Arguments Ret {A} a.
Arguments Raise {A} e.

Definition py_bind {A B : Type} (c : py A) (k : A -> py B) : py B :=
  match c with
  | Ret a => k a
  | Raise e => Raise e
  end.

Definition try_except {A : Type} (body : py A) (handler : exn -> A) : A :=
  match body with
  | Ret a => a
  | Raise e => handler e
  end.

Declare Scope py_scope.
Delimit Scope py_scope with py.
Notation "'do' x <- c ; k" := (py_bind c (fun x => k))
  (at level 10, x pattern, c at level 100, k at level 200) : py_scope.

(** [for x in xs: acc = body(acc, x)] where [body] may raise. *)
Fixpoint py_fold {A S : Type} (body : S -> A -> py S) (xs : list A) (s : S)
  : py S :=
  match xs with
  | [] => Ret s
  | x :: rest => py_bind (body s x) (py_fold body rest)
  end.

(** Truthiness of an optional string or bytes value ([None] and the empty
    value are false). *)
Definition truthy (o : option string) : bool :=
  match o with
  | Some s => negb (String.eqb s "")
  | None => false
  end.

(** [o or ''] *)
Definition or_empty (o : option string) : string :=
  match o with
  | Some s => if String.eqb s "" then "" else s
  | None => ""
  end.

Definition lower_ascii (c : ascii) : ascii :=
  let n := nat_of_ascii c in
  if (65 <=? n)%nat && (n <=? 90)%nat then ascii_of_nat (n + 32) else c.

(** [str.lower()] *)
Fixpoint lower (s : string) : string :=
  match s with
  | EmptyString => EmptyString
  | String c rest => String (lower_ascii c) (lower rest)
  end.

(** ** Insertion-ordered dictionaries *)

Module Dict.

Definition t (V : Type) : Type := list (string * V).

Fixpoint get {V : Type} (k : string) (d : t V) : option V :=
  match d with
  | [] => None
  | (k', v) :: rest => if String.eqb k k' then Some v else get k rest
  end.

Definition mem {V : Type} (k : string) (d : t V) : bool :=
  match get k d with Some _ => true | None => false end.

(** [d[k] = v]: an existing key keeps its position. *)
Fixpoint set {V : Type} (k : string) (v : V) (d : t V) : t V :=
  match d with
  | [] => [(k, v)]
  | (k', v') :: rest =>
      if String.eqb k k' then (k, v) :: rest else (k', v') :: set k v rest
  end.

Definition keys {V : Type} (d : t V) : list string := map fst d.

(** [d[k]], raising [KeyError] on a missing key. *)
Definition item {V : Type} (k : string) (d : t V) : py V :=
  match get k d with
  | Some v => Ret v
  | None => Raise (KeyError k)
  end.

End Dict.

(** ** [hashlib.md5]: RFC 1321 *)

Module MD5.

Local Open Scope N_scope.

Definition mask32 : N := 0xFFFFFFFF.
Definition add32 (a b : N) : N := N.land (a + b) mask32.
Definition not32 (a : N) : N := N.lxor a mask32.
Definition rotl32 (x c : N) : N :=
  N.land (N.lor (N.shiftl x c) (N.shiftr x (32 - c))) mask32.

Definition K : list N :=
  [ 0xd76aa478; 0xe8c7b756; 0x242070db; 0xc1bdceee; 0xf57c0faf; 0x4787c62a;
    0xa8304613; 0xfd469501; 0x698098d8; 0x8b44f7af; 0xffff5bb1; 0x895cd7be;
    0x6b901122; 0xfd987193; 0xa679438e; 0x49b40821; 0xf61e2562; 0xc040b340;
    0x265e5a51; 0xe9b6c7aa; 0xd62f105d; 0x02441453; 0xd8a1e681; 0xe7d3fbc8;
    0x21e1cde6; 0xc33707d6; 0xf4d50d87; 0x455a14ed; 0xa9e3e905; 0xfcefa3f8;
    0x676f02d9; 0x8d2a4c8a; 0xfffa3942; 0x8771f681; 0x6d9d6122; 0xfde5380c;
    0xa4beea44; 0x4bdecfa9; 0xf6bb4b60; 0xbebfbc70; 0x289b7ec6; 0xeaa127fa;
    0xd4ef3085; 0x04881d05; 0xd9d4d039; 0xe6db99e5; 0x1fa27cf8; 0xc4ac5665;
    0xf4292244; 0x432aff97; 0xab9423a7; 0xfc93a039; 0x655b59c3; 0x8f0ccc92;
    0xffeff47d; 0x85845dd1; 0x6fa87e4f; 0xfe2ce6e0; 0xa3014314; 0x4e0811a1;
    0xf7537e82; 0xbd3af235; 0x2ad7d2bb; 0xeb86d391 ].

Definition shifts : list N :=
  [ 7; 12; 17; 22; 7; 12; 17; 22; 7; 12; 17; 22; 7; 12; 17; 22;
    5; 9; 14; 20; 5; 9; 14; 20; 5; 9; 14; 20; 5; 9; 14; 20;
    4; 11; 16; 23; 4; 11; 16; 23; 4; 11; 16; 23; 4; 11; 16; 23;
    6; 10; 15; 21; 6; 10; 15; 21; 6; 10; 15; 21; 6; 10; 15; 21 ].

Definition state : Type := (N * N * N * N)%type.

Definition init : state := (0x67452301, 0xefcdab89, 0x98badcfe, 0x10325476).

Definition step (M : list N) (st : state) (i : nat) : state :=
  let '(a, b, c, d) := st in
  let '(f, g) :=
    match Nat.div i 16 with
    | 0%nat => (N.lor (N.land b c) (N.land (not32 b) d), i)
    | 1%nat => (N.lor (N.land d b) (N.land (not32 d) c),
                Nat.modulo (5 * i + 1) 16)
    | 2%nat => (N.lxor b (N.lxor c d), Nat.modulo (3 * i + 5) 16)
    | _ => (N.lxor c (N.lor b (not32 d)), Nat.modulo (7 * i) 16)
    end in
  let f' := add32 (add32 (add32 f a) (nth i K 0)) (nth g M 0) in
  (d, add32 b (rotl32 f' (nth i shifts 0)), b, c).

(** Four bytes, least significant first, as one 32-bit word. *)
Definition word_le (bs : list N) : N :=
  fold_right (fun b acc => b + 256 * acc) 0 bs.

Fixpoint words (n : nat) (bs : list N) : list N :=
  match n with
  | O => []
  | S n' => word_le (firstn 4 bs) :: words n' (skipn 4 bs)
  end.

Definition block (st : state) (bs : list N) : state :=
  let M := words 16 bs in
  let '(a, b, c, d) := st in
  let '(a', b', c', d') := fold_left (step M) (seq 0 64) st in
  (add32 a a', add32 b b', add32 c c', add32 d d').

Fixpoint blocks (n : nat) (st : state) (bs : list N) : state :=
  match n with
  | O => st
  | S n' => blocks n' (block st (firstn 64 bs)) (skipn 64 bs)
  end.

Fixpoint bytes_le (n : nat) (x : N) : list N :=
  match n with
  | O => []
  | S n' => (x mod 256) :: bytes_le n' (x / 256)
  end.

Definition pad (msg : list N) : list N :=
  let len := length msg in
  let zeros := Nat.modulo (64 + 55 - Nat.modulo len 64) 64 in
  msg ++ [0x80] ++ repeat 0 zeros ++ bytes_le 8 (8 * N.of_nat len).

Definition digest (msg : list N) : list N :=
  let p := pad msg in
  let '(a, b, c, d) := blocks (Nat.div (length p) 64) init p in
  bytes_le 4 a ++ bytes_le 4 b ++ bytes_le 4 c ++ bytes_le 4 d.

Definition hex_digit (n : N) : ascii :=
  if n <? 10 then ascii_of_N (48 + n) else ascii_of_N (87 + n).

Fixpoint hex (bs : list N) : string :=
  match bs with
  | [] => EmptyString
  | b :: rest => String (hex_digit (b / 16)) (String (hex_digit (b mod 16)) (hex rest))
  end.

Fixpoint bytes_of (s : string) : list N :=
  match s with
  | EmptyString => []
  | String c rest => N_of_ascii c :: bytes_of rest
  end.

(** [hashlib.md5(s.encode()).hexdigest()] *)
Definition hexdigest (s : string) : string := hex (digest (bytes_of s)).

End MD5.

(** ** The batch executor: [execute_batch] *)

(** One entry of [rs['results']]; a field is [None] when its key is absent. *)
Record op_result : Type := OpResult {
  res_result : option string;
  res_message : option string
}.

(** The response to an [execute] command. *)
Record batch_response : Type := BatchResponse {
  rs_result : option string;
  rs_results : option (list op_result)
}.

Definition chunk_size : nat := 100.

Section BatchExecutor.

Local Open Scope py_scope.

(** The queued operations, the remote store and the local vault snapshot
    are opaque to the executor. *)
Context {op server vault : Type}.

(** [api.communicate(params, rq)] for an [execute] request: the store moves
    to a new state and either answers or raises. *)
Variable communicate : server -> list op -> server * py batch_response.

(** [api.sync_down(params)] *)
Variable sync_down : server -> vault -> py vault.

(** [params.debug] *)
Variable debug : bool.

(** [d[key]] for a key that may be absent. *)
Definition field {A : Type} (key : string) (o : option A) : py A :=
  match o with
  | Some a => Ret a
  | None => Raise (KeyError key)
  end.

(** [l[pos]] *)
Definition index {A : Type} (l : list A) (pos : nat) : py A :=
  match nth_error l pos with
  | Some a => Ret a
  | None => Raise IndexError
  end.

(** The debugging block of lines 612-617; what it prints is not
    modelled, what it may raise is. *)
Definition debug_last (chunk : list op) (results : list op_result) : py unit :=
  if debug then
    let pos := length results - 1 in
    do _ <- index chunk pos;
    do res <- index results pos;
    do _ <- field "result" (res_result res);
    Ret tt
  else Ret tt.

(** The body of the [try] after the call returned [rs]: the new value of
    [queue], which on entry holds [queue[chunk_size:]]. *)
Definition after_response (chunk queue : list op) (rs : batch_response)
  : py (list op) :=
  do result <- field "result" (rs_result rs);
  if String.eqb result "success" then
    match rs_results rs with
    | Some results =>
        if (0 <? length results)%nat then
          do _ <- debug_last chunk results;
          if (length results <? length chunk)%nat
          then Ret (skipn (length results) chunk ++ queue)
          else Ret queue
        else Ret queue
    | None => Ret queue
    end
  else Ret queue.

(** One iteration of the [while] loop on a non-empty queue: the chunk
    sent, the store after the call and the queue after the iteration. *)
Definition iteration (st : server) (queue : list op)
  : list op * server * list op :=
  let chunk := firstn chunk_size queue in
  let queue1 := skipn chunk_size queue in
  let '(st', reply) := communicate st chunk in
  let queue2 :=
    try_except (do rs <- reply; after_response chunk queue1 rs)
               (fun _ => queue1) in
  (chunk, st', queue2).

(** [while len(queue) > 0: ...], with the chunks sent, in order. *)
Fixpoint execute_loop (fuel : nat) (st : server) (queue : list op)
  : option (server * list (list op)) :=
  match queue with
  | [] => Some (st, [])
  | _ :: _ =>
      match fuel with
      | O => None
      | S fuel' =>
          let '(chunk, st', queue') := iteration st queue in
          match execute_loop fuel' st' queue' with
          | Some (st_end, sent) => Some (st_end, chunk :: sent)
          | None => None
          end
      end
  end.

(** [execute_batch(params, requests)].  Every iteration removes at least
    one operation from the queue ([iteration_shrinks] below), so
    [length requests] iterations are enough. *)
Definition execute_batch (st : server) (v : vault) (requests : list op)
  : option (py (server * vault * list (list op))) :=
  match requests with
  | [] => Some (Ret (st, v, []))
  | _ :: _ =>
      match execute_loop (length requests) st requests with
      | Some (st_end, sent) =>
          Some (do v' <- sync_down st_end v; Ret (st_end, v', sent))
      | None => None
      end
  end.

End BatchExecutor.

(** ** Data model *)

(** The folder types of [BaseFolderNode] ([subfolder.py], not among the
    sources at hand): ['/'], ['user_folder'], ['shared_folder'] and
    ['shared_folder_folder'].  [imp_exp.py] writes the last three also as
    string literals and compares them with the constants. *)
Inductive folder_type : Type :=
| RootFolderType
| UserFolderType
| SharedFolderType
| SharedFolderFolderType.

#[global] Instance folder_type_eq_dec : EqDecision folder_type.
Proof. solve_decision. Defined.

(** [t in {SharedFolderType, SharedFolderFolderType}] *)
Definition is_shared_type (t : folder_type) : bool :=
  match t with
  | SharedFolderType | SharedFolderFolderType => true
  | _ => false
  end.

(** Symbolic encryption ([api.encrypt_aes], [api.encrypt_rsa]). *)
Inductive plaintext : Type :=
| PBytes (b : string)
| PFolderData (name : string)
| PRecordData (title secret1 secret2 link notes : string)
              (custom : list (string * string)).

Inductive cipher : Type :=
| EncryptAes (data : plaintext) (key : string)
| EncryptRsa (data : plaintext) (rsa_key : string).

(** An entry of [params.folder_cache]. *)
Record folder_node : Type := FolderNode {
  fn_uid : string;
  fn_type : folder_type;
  fn_name : option string;
  fn_parent_uid : option string;
  fn_shared_folder_uid : option string
}.

(** Entries of [sf['records']], [sf['teams']] and [sf['users']]. *)
Record sf_record : Type := SfRecord {
  sfr_record_uid : string;
  sfr_can_share : bool;
  sfr_can_edit : bool
}.

Record sf_team : Type := SfTeam {
  sft_team_uid : string;
  sft_manage_records : bool
}.

Record sf_user : Type := SfUser {
  sfu_username : string;
  sfu_manage_users : bool;
  sfu_manage_records : bool
}.

(** An entry of [params.shared_folder_cache]; an optional key of the
    dictionary is [None] when absent. *)
Record shared_folder : Type := SharedFolder {
  sf_shared_folder_key : string;
  sf_key_type : option string;
  sf_records : option (list sf_record);
  sf_teams : option (list sf_team);
  sf_users : option (list sf_user)
}.

(** An entry of [params.record_cache] together with what
    [api.get_record] reads from it. *)
Record vault_record : Type := VaultRecord {
  vr_title : option string;
  vr_login : option string;
  vr_password : option string;
  vr_record_key_unencrypted : string
}.

(** An entry of [params.team_cache]. *)
Record team : Type := Team {
  team_name : string;
  team_key : string
}.

Record params : Type := Params {
  user : string;
  data_key : string;
  folder_cache : Dict.t folder_node;
  shared_folder_cache : Dict.t shared_folder;
  record_cache : Dict.t vault_record;
  team_cache : Dict.t team;
  (** [find_folders(params, record_uid)] of [subfolder.py], as a list *)
  find_folders : string -> list string
}.

(** The import model ([importer/importer.py]). *)
Record ImportPermission : Type := Permission {
  perm_uid : option string;
  perm_name : string;
  perm_manage_users : option bool;
  perm_manage_records : option bool
}.

Record ImportSharedFolder : Type := ImportedSharedFolder {
  isf_path : string;
  isf_manage_users : option bool;
  isf_manage_records : option bool;
  isf_can_edit : option bool;
  isf_can_share : option bool;
  isf_permissions : option (list ImportPermission)
}.

Record ImportFolder : Type := Folder {
  fol_uid : option string;
  fol_domain : option string;
  fol_path : option string;
  fol_can_edit : option bool;
  fol_can_share : option bool
}.

Record ImportRecord : Type := Record_ {
  rec_uid : option string;
  rec_title : option string;
  rec_login : option string;
  rec_password : option string;
  rec_login_url : option string;
  rec_notes : option string;
  rec_custom_fields : Dict.t string;
  rec_folders : option (list ImportFolder)
}.

(** ** Requests *)

(** A key of a request dictionary that is set on some paths only is an
    [option]; the constant entries (['pt'], ['operation'], ['force_update'],
    ['record_type'], ['how_long_ago'], ['link'], ['type']) are left out. *)
Record folder_add_rq : Type := FolderAddRq {
  fa_folder_uid : string;
  fa_folder_type : folder_type;
  fa_key : cipher;
  fa_parent_uid : option string;
  fa_shared_folder_uid : option string;
  fa_name : option cipher;
  fa_data : cipher
}.

Record team_grant : Type := TeamGrant {
  tg_team_uid : string;
  tg_manage_users : option bool;
  tg_manage_records : option bool;
  tg_shared_folder_key : cipher
}.

Record user_grant : Type := UserGrant {
  ug_username : string;
  ug_manage_users : option bool;
  ug_manage_records : option bool;
  ug_shared_folder_key : cipher
}.

Record record_grant : Type := RecordGrant {
  rg_record_uid : string;
  rg_shared_folder_uid : string;
  rg_can_edit : option bool;
  rg_can_share : option bool
}.

Record folder_defaults : Type := FolderDefaults {
  fd_manage_users : option bool;
  fd_manage_records : option bool;
  fd_can_edit : option bool;
  fd_can_share : option bool
}.

Record shared_folder_update_rq : Type := SharedFolderUpdateRq {
  su_shared_folder_uid : string;
  su_defaults : option folder_defaults;
  su_add_teams : option (list team_grant);
  su_add_users : option (list user_grant);
  su_update_records : option (list record_grant)
}.

Record record_add_rq : Type := RecordAddRq {
  ra_record_uid : string;
  ra_record_key : cipher;
  ra_folder_type : folder_type;
  ra_folder_uid : option string;
  ra_folder_key : option cipher;
  ra_team_uid : option string;
  ra_data : cipher
}.

Record move_object : Type := MoveObject {
  mo_uid : string;
  mo_from_type : folder_type;
  mo_from_uid : option string;
  mo_cascade : bool
}.

Record move_rq : Type := MoveRq {
  mv_to_type : folder_type;
  mv_to_uid : option string;
  mv_move : list move_object;
  mv_transition_keys : list (string * cipher)
}.

Inductive request : Type :=
| FolderAdd (rq : folder_add_rq)
| SharedFolderUpdate (rq : shared_folder_update_rq)
| RecordAdd (rq : record_add_rq)
| Move (rq : move_rq).

(** ** Collaborators outside [imp_exp.py] *)

(** An entry of [rs['public_keys']]. *)
Record pk_entry : Type := PkEntry {
  pk_key_owner : option string;
  pk_public_key : option string
}.

(** What [imp_exp.py] calls and does not define.  The two random sources
    are read by position: [generate_record_uid n] is the [n]-th uid drawn
    and [urandom n] the [n]-th 32-byte key. *)
Class Externals : Type := {
  (** the address part of [email.utils.parseaddr] *)
  parseaddr : string -> string;
  (** [importer.path_components] *)
  path_components : string -> list string;
  (** [api.generate_record_uid()] *)
  generate_record_uid : nat -> string;
  (** [os.urandom(32)] *)
  urandom : nat -> string;
  (** [api.communicate] for a [public_keys] request: [rs.get('public_keys')]
      or an exception *)
  public_keys : list string -> py (option (list pk_entry));
  (** [RSA.importKey(base64.urlsafe_b64decode(public_key + '=='))] *)
  import_key : string -> py string
}.

(** The number of uids and keys drawn so far. *)
Record draws : Type := Draws {
  uid_draws : nat;
  key_draws : nat
}.

(** ** The fingerprint index *)

(** [hashlib.md5('{0}|{1}'.format(name.lower(), parent_uid).encode()).hexdigest()] *)
Definition folder_digest (name parent_uid : string) : string :=
  MD5.hexdigest (lower name ++ "|" ++ parent_uid).

(** [hashlib.md5('{0}|{1}|{2}'.format(title, login, password).encode()).hexdigest()] *)
Definition record_digest (title login password : string) : string :=
  MD5.hexdigest (title ++ "|" ++ login ++ "|" ++ password).

Arguments folder_digest : simpl never.
Arguments record_digest : simpl never.

(** A value of [folder_hash]: uid, type and shared-folder key. *)
Abbreviation hash_entry := (string * folder_type * option string)%type (only parsing).

(** [d[k]] where [k] may be [None], as an [option]. *)
Definition get_opt {V : Type} (k : option string) (d : Dict.t V) : option V :=
  match k with
  | Some k => Dict.get k d
  | None => None
  end.

(** Lines 192-196 and 348-352: the key of the shared folder a cached folder
    belongs to. *)
Definition cached_shared_folder_key (p : params) (fol : folder_node)
  : option string :=
  if is_shared_type (fn_type fol) then
    let sf_uid :=
      if decide (fn_type fol = SharedFolderFolderType)
      then fn_shared_folder_uid fol else Some (fn_uid fol) in
    match get_opt sf_uid (shared_folder_cache p) with
    | Some sf => Some (sf_shared_folder_key sf)
    | None => None
    end
  else None.

(** Lines 186-197 and 342-353: [folder_hash], built from the snapshot; a
    later folder with the same digest replaces an earlier one. *)
Definition build_folder_hash (p : params) : gmap string hash_entry :=
  fold_left
    (fun h '(f_uid, fol) =>
       <[ folder_digest (or_empty (fn_name fol)) (or_empty (fn_parent_uid fol))
          := (f_uid, fn_type fol, cached_shared_folder_key p fol) ]> h)
    (folder_cache p) ∅.

(** Lines 422-428: [record_hash]. *)
Definition build_record_hash (p : params) : gmap string string :=
  fold_left
    (fun h '(r_uid, r) =>
       <[ record_digest (or_empty (vr_title r)) (or_empty (vr_login r))
                        (or_empty (vr_password r)) := r_uid ]> h)
    (record_cache p) ∅.

(** ** The folder tree builder: [prepare_folder_add] *)

(** The loop variables of the walk along one folder. *)
Record walk : Type := Walk {
  parent_uid : string;
  parent_shared_folder_uid : option string;
  parent_shared_folder_key : option string;
  parent_type : folder_type
}.

(** What the walks share: [folder_hash], [folder_add] and the random
    sources. *)
Record builder : Type := Builder {
  folder_hash : gmap string hash_entry;
  folder_add : list request;
  drawn : draws
}.

(** [for i in range(len(comps))]: every component with [i == len(comps) - 1]. *)
Definition indexed_components (comps : list string) : list (bool * string) :=
  map (fun i => (Nat.eqb i (length comps - 1), nth i comps "")) (seq 0 (length comps)).

Section FolderTreeBuilder.

Context {ext : Externals}.

Variable p : params.

(** Lines 377-410: the node created for a component that the index does
    not know. *)
Definition new_folder (is_domain is_last : bool) (comp : string)
    (d : draws) (w : walk) : folder_add_rq * walk :=
  let is_shared := if is_last then is_domain else false in
  let folder_uid := generate_record_uid (uid_draws d) in
  let folder_type :=
    match parent_type w with
    | UserFolderType | RootFolderType =>
        if is_shared then SharedFolderType else UserFolderType
    | _ => SharedFolderFolderType
    end in
  let in_shared_folder :=
    bool_decide (folder_type = SharedFolderFolderType)
    && truthy (parent_shared_folder_uid w)
    && truthy (parent_shared_folder_key w) in
  let encryption_key :=
    if in_shared_folder
    then or_empty (parent_shared_folder_key w) else data_key p in
  let folder_key := urandom (key_draws d) in
  let shared := bool_decide (folder_type = SharedFolderType) in
  let key' :=
    if shared then Some folder_key else parent_shared_folder_key w in
  ({| fa_folder_uid := folder_uid;
      fa_folder_type := folder_type;
      fa_key := EncryptAes (PBytes folder_key) encryption_key;
      fa_parent_uid :=
        match parent_type w with
        | RootFolderType | SharedFolderType => None
        | _ => Some (parent_uid w)
        end;
      fa_shared_folder_uid :=
        if in_shared_folder then parent_shared_folder_uid w else None;
      fa_name :=
        if shared then Some (EncryptAes (PBytes comp) folder_key) else None;
      fa_data := EncryptAes (PFolderData comp) folder_key |},
   {| parent_uid := folder_uid;
      parent_shared_folder_uid := parent_shared_folder_uid w;
      parent_shared_folder_key := key';
      parent_type := folder_type |}).

(** Lines 414-415. *)
Definition enter_shared_folder (w : walk) : walk :=
  if decide (parent_type w = SharedFolderType)
  then {| parent_uid := parent_uid w;
          parent_shared_folder_uid := Some (parent_uid w);
          parent_shared_folder_key := parent_shared_folder_key w;
          parent_type := parent_type w |}
  else w.

(** Lines 371-415: one component of a path. *)
Definition folder_component (is_domain : bool) (s : builder * walk)
    (c : bool * string) : builder * walk :=
  let '(b, w) := s in
  let '(is_last, comp) := c in
  let digest := folder_digest comp (parent_uid w) in
  match folder_hash b !! digest with
  | None =>
      let '(rq, w') := new_folder is_domain is_last comp (drawn b) w in
      ({| folder_hash :=
            <[ digest := (parent_uid w', parent_type w',
                          parent_shared_folder_key w') ]> (folder_hash b);
          folder_add := folder_add b ++ [FolderAdd rq];
          drawn := {| uid_draws := S (uid_draws (drawn b));
                      key_draws := S (key_draws (drawn b)) |} |},
       enter_shared_folder w')
  | Some (uid, type, key) =>
      (b, enter_shared_folder
            {| parent_uid := uid;
               parent_shared_folder_uid := parent_shared_folder_uid w;
               parent_shared_folder_key := key;
               parent_type := type |})
  end.

(** Lines 364-415: [fol.domain], then [fol.path]. *)
Definition folder_path (s : builder * walk) (is_domain : bool)
    (path : option string) : builder * walk :=
  if truthy path
  then fold_left (folder_component is_domain)
                 (indexed_components (path_components (or_empty path))) s
  else s.

Definition start : walk :=
  {| parent_uid := "";
     parent_shared_folder_uid := None;
     parent_shared_folder_key := None;
     parent_type := RootFolderType |}.

(** Lines 359-416: one folder of a record; [fol.uid] is assigned. *)
Definition place_folder (b : builder) (fol : ImportFolder)
  : builder * ImportFolder :=
  let s1 := folder_path (b, start) true (fol_domain fol) in
  let '(b', w) := folder_path s1 false (fol_path fol) in
  (b', {| fol_uid := Some (parent_uid w);
          fol_domain := fol_domain fol;
          fol_path := fol_path fol;
          fol_can_edit := fol_can_edit fol;
          fol_can_share := fol_can_share fol |}).

(** [for fol in folders], collecting the folders as they are left. *)
Fixpoint place_folders (b : builder) (folders : list ImportFolder)
  : builder * list ImportFolder :=
  match folders with
  | [] => (b, [])
  | fol :: rest =>
      let '(b1, fol') := place_folder b fol in
      let '(b2, rest') := place_folders b1 rest in
      (b2, fol' :: rest')
  end.

Definition with_folders (rec : ImportRecord)
    (folders : option (list ImportFolder)) : ImportRecord :=
  {| rec_uid := rec_uid rec;
     rec_title := rec_title rec;
     rec_login := rec_login rec;
     rec_password := rec_password rec;
     rec_login_url := rec_login_url rec;
     rec_notes := rec_notes rec;
     rec_custom_fields := rec_custom_fields rec;
     rec_folders := folders |}.

(** Lines 357-416: [for rec in records]. *)
Fixpoint place_records (b : builder) (records : list ImportRecord)
  : builder * list ImportRecord :=
  match records with
  | [] => (b, [])
  | rec :: rest =>
      let '(b1, rec') :=
        match rec_folders rec with
        | Some ((_ :: _) as folders) =>
            let '(b1, folders') := place_folders b folders in
            (b1, with_folders rec (Some folders'))
        | _ => (b, rec)
        end in
      let '(b2, rest') := place_records b1 rest in
      (b2, rec' :: rest')
  end.

(** [prepare_folder_add(params, records)]: the requests, the records as
    the call leaves them, and the draws made. *)
Definition prepare_folder_add (d : draws) (records : list ImportRecord)
  : list request * list ImportRecord * draws :=
  let '(b, records') :=
    place_records {| folder_hash := build_folder_hash p;
                     folder_add := [];
                     drawn := d |} records in
  (folder_add b, records', drawn b).

End FolderTreeBuilder.

Arguments new_folder : simpl never.
Arguments folder_component : simpl never.
Arguments folder_path : simpl never.
Arguments place_folder : simpl never.

(** ** The record upserter: [prepare_record_add] *)

Section RecordUpserter.

Context {ext : Externals}.
Local Open Scope py_scope.

Variable p : params.

(** [d[k]] where [k] may be [None]. *)
Definition item_opt {V : Type} (k : option string) (d : Dict.t V) : py V :=
  match get_opt k d with
  | Some v => Ret v
  | None => Raise (KeyError (or_empty k))
  end.

(** Lines 465-468: the last team of the list, or the first one that may
    manage records. *)
Fixpoint owning_team (teams : list sf_team) (team_uid : option string)
  : option string :=
  match teams with
  | [] => team_uid
  | t :: rest =>
      if sft_manage_records t then Some (sft_team_uid t)
      else owning_team rest (Some (sft_team_uid t))
  end.

(** Lines 474-490. *)
Definition record_data (rec : ImportRecord) : plaintext :=
  PRecordData (or_empty (rec_title rec)) (or_empty (rec_login rec))
              (or_empty (rec_password rec)) (or_empty (rec_login_url rec))
              (or_empty (rec_notes rec)) (rec_custom_fields rec).

(** [rec.folders[0].uid], or [None]. *)
Definition primary_folder_uid (rec : ImportRecord) : option string :=
  match rec_folders rec with
  | Some (fol :: _) => fol_uid fol
  | _ => None
  end.

(** Lines 439-491: the request for a record that the index does not
    know. *)
Definition new_record (rec : ImportRecord) (d : draws) : py record_add_rq :=
  let record_key := urandom (key_draws d) in
  let record_uid := generate_record_uid (uid_draws d) in
  let req :=
    {| ra_record_uid := record_uid;
       ra_record_key := EncryptAes (PBytes record_key) (data_key p);
       ra_folder_type := UserFolderType;
       ra_folder_uid := None;
       ra_folder_key := None;
       ra_team_uid := None;
       ra_data := EncryptAes (record_data rec) record_key |} in
  let folder_uid := primary_folder_uid rec in
  if truthy folder_uid then
    match get_opt folder_uid (folder_cache p) with
    | Some folder =>
        if is_shared_type (fn_type folder) then
          let sh_uid :=
            if decide (fn_type folder = SharedFolderType)
            then Some (fn_uid folder) else fn_shared_folder_uid folder in
          do sf <- item_opt sh_uid (shared_folder_cache p);
          Ret {| ra_record_uid := record_uid;
                 ra_record_key := ra_record_key req;
                 ra_folder_type :=
                   if decide (fn_type folder = SharedFolderType)
                   then SharedFolderType else SharedFolderFolderType;
                 ra_folder_uid := Some (fn_uid folder);
                 ra_folder_key :=
                   Some (EncryptAes (PBytes record_key) (sf_shared_folder_key sf));
                 ra_team_uid :=
                   match sf_key_type sf, sf_teams sf with
                   | None, Some teams => owning_team teams None
                   | _, _ => None
                   end;
                 ra_data := ra_data req |}
        else
          Ret {| ra_record_uid := record_uid;
                 ra_record_key := ra_record_key req;
                 ra_folder_type := UserFolderType;
                 ra_folder_uid :=
                   if decide (fn_type folder = RootFolderType)
                   then None else Some (fn_uid folder);
                 ra_folder_key := None;
                 ra_team_uid := None;
                 ra_data := ra_data req |}
    | None => Ret req
    end
  else Ret req.

Definition with_uid (rec : ImportRecord) (uid : string) : ImportRecord :=
  {| rec_uid := Some uid;
     rec_title := rec_title rec;
     rec_login := rec_login rec;
     rec_password := rec_password rec;
     rec_login_url := rec_login_url rec;
     rec_notes := rec_notes rec;
     rec_custom_fields := rec_custom_fields rec;
     rec_folders := rec_folders rec |}.

(** Lines 431-493: [for rec in records]; [record_hash] is not changed by
    the loop. *)
Fixpoint upsert_records (record_hash : gmap string string) (d : draws)
    (records : list ImportRecord)
  : py (list request * list ImportRecord * draws) :=
  match records with
  | [] => Ret ([], [], d)
  | rec :: rest =>
      let rec_hash :=
        record_digest (or_empty (rec_title rec)) (or_empty (rec_login rec))
                      (or_empty (rec_password rec)) in
      match record_hash !! rec_hash with
      | Some record_uid =>
          do r <- upsert_records record_hash d rest;
          let '(adds, rest', d') := r in
          Ret (adds, with_uid rec record_uid :: rest', d')
      | None =>
          do req <- new_record rec d;
          do r <- upsert_records record_hash
                    {| uid_draws := S (uid_draws d);
                       key_draws := S (key_draws d) |} rest;
          let '(adds, rest', d') := r in
          Ret (RecordAdd req :: adds,
               with_uid rec (ra_record_uid req) :: rest', d')
      end
  end.

(** [prepare_record_add(params, records)] *)
Definition prepare_record_add (d : draws) (records : list ImportRecord)
  : py (list request * list ImportRecord * draws) :=
  upsert_records (build_record_hash p) d records.

End RecordUpserter.

(** ** The link relinker: [prepare_record_link] *)

Section LinkRelinker.

Local Open Scope py_scope.

Variable p : params.

(** [t if t != RootFolderType else UserFolderType] *)
Definition request_type (t : folder_type) : folder_type :=
  if decide (t = RootFolderType) then UserFolderType else t.

(** [f.uid if t != RootFolderType], else the key is not set. *)
Definition request_uid (f : folder_node) : option string :=
  if decide (fn_type f = RootFolderType) then None else Some (fn_uid f).

(** [f.uid if f.type == SharedFolderType else f.shared_folder_uid] *)
Definition shared_folder_of (f : folder_node) : option string :=
  if decide (fn_type f = SharedFolderType)
  then Some (fn_uid f) else fn_shared_folder_uid f.

(** Lines 530-548: the key under which the record key is re-encrypted,
    if any. *)
Definition transition_key (record_key : string)
    (src_folder dst_folder : folder_node) : py (option cipher) :=
  if is_shared_type (fn_type src_folder) then
    if is_shared_type (fn_type dst_folder) then
      let ssf_uid := shared_folder_of src_folder in
      let dsf_uid := shared_folder_of dst_folder in
      if decide (ssf_uid <> dsf_uid) then
        do shf <- item_opt dsf_uid (shared_folder_cache p);
        Ret (Some (EncryptAes (PBytes record_key) (sf_shared_folder_key shf)))
      else Ret None
    else Ret (Some (EncryptAes (PBytes record_key) (data_key p)))
  else
    if is_shared_type (fn_type dst_folder) then
      let dsf_uid := shared_folder_of dst_folder in
      do shf <- item_opt dsf_uid (shared_folder_cache p);
      Ret (Some (EncryptAes (PBytes record_key) (sf_shared_folder_key shf)))
    else Ret None.

(** Lines 509-554: the request that links record [uid], now in
    [folder_ids[0]], into the folder [dst_uid]. *)
Definition link_request (uid : string) (record : vault_record)
    (first_folder dst_uid : string) : py move_rq :=
  do src_folder <- Dict.item first_folder (folder_cache p);
  do dst_folder <- Dict.item dst_uid (folder_cache p);
  do key <- transition_key (vr_record_key_unencrypted record)
                           src_folder dst_folder;
  Ret {| mv_to_type := request_type (fn_type dst_folder);
         mv_to_uid := request_uid dst_folder;
         mv_move := [ {| mo_uid := uid;
                         mo_from_type := request_type (fn_type src_folder);
                         mo_from_uid := request_uid src_folder;
                         mo_cascade := true |} ];
         mv_transition_keys :=
           match key with
           | Some k => [(uid, k)]
           | None => []
           end |}.

(** Lines 505-554: one declared folder of a record. *)
Definition link_folder (uid : string) (record : vault_record)
    (folder_ids : list string) (links : list request) (fol : ImportFolder)
  : py (list request) :=
  match fol_uid fol with
  | Some dst_uid =>
      if negb (String.eqb dst_uid "") && Dict.mem dst_uid (folder_cache p) then
        match folder_ids with
        | first_folder :: _ =>
            if bool_decide (dst_uid ∈ folder_ids) then Ret links
            else
              do req <- link_request uid record first_folder dst_uid;
              Ret (links ++ [Move req])
        | [] => Ret links
        end
      else Ret links
  | None => Ret links
  end.

(** Lines 500-554: one record. *)
Definition link_record (links : list request) (rec : ImportRecord)
  : py (list request) :=
  match rec_folders rec, rec_uid rec with
  | Some ((_ :: _) as folders), Some uid =>
      if String.eqb uid "" then Ret links
      else
        match Dict.get uid (record_cache p) with
        | Some record =>
            py_fold (link_folder uid record (find_folders p uid)) folders links
        | None => Ret links
        end
  | _, _ => Ret links
  end.

(** [prepare_record_link(params, records)] *)
Definition prepare_record_link (records : list ImportRecord)
  : py (list request) :=
  py_fold link_record records [].

End LinkRelinker.

(** ** The permission reconciler: [prepare_record_permission] *)

Section RecordPermission.

Variable p : params.

(** Lines 571-588: the first entry of [sf['records']] for the record
    decides; a request is made when it differs from what is declared. *)
Definition record_permission (uid sf_uid : string) (fol : ImportFolder)
    (records : list sf_record) : list request :=
  match List.find (fun sfr => String.eqb (sfr_record_uid sfr) uid) records with
  | Some sfr =>
      if negb (bool_decide (Some (sfr_can_share sfr) = fol_can_share fol))
         || negb (bool_decide (Some (sfr_can_edit sfr) = fol_can_edit fol))
      then [ SharedFolderUpdate
               {| su_shared_folder_uid := sf_uid;
                  su_defaults := None;
                  su_add_teams := None;
                  su_add_users := None;
                  su_update_records :=
                    Some [ {| rg_record_uid := uid;
                              rg_shared_folder_uid := sf_uid;
                              rg_can_edit := fol_can_edit fol;
                              rg_can_share := fol_can_share fol |} ] |} ]
      else []
  | None => []
  end.

(** Lines 563-588: one declared folder of the record [uid]. *)
Definition folder_permission (uid : string) (fol : ImportFolder)
  : list request :=
  if truthy (fol_uid fol) then
    match get_opt (fol_uid fol) (folder_cache p) with
    | Some folder =>
        if is_shared_type (fn_type folder) then
          let sf_uid :=
            if decide (fn_type folder = SharedFolderFolderType)
            then fn_shared_folder_uid folder else Some (fn_uid folder) in
          match sf_uid, get_opt sf_uid (shared_folder_cache p) with
          | Some sf_uid, Some sf =>
              match sf_records sf with
              | Some records => record_permission uid sf_uid fol records
              | None => []
              end
          | _, _ => []
          end
        else []
    | None => []
    end
  else [].

(** Lines 560-588: one record. *)
Definition record_permissions (rec : ImportRecord) : list request :=
  match rec_folders rec, rec_uid rec with
  | Some ((_ :: _) as folders), Some uid =>
      if negb (String.eqb uid "") && Dict.mem uid (record_cache p)
      then concat (map (folder_permission uid) folders)
      else []
  | _, _ => []
  end.

(** [prepare_record_permission(params, records)] *)
Definition prepare_record_permission (records : list ImportRecord)
  : list request :=
  concat (map record_permissions records).

End RecordPermission.

(** ** Shared folders and their grantees: [prepare_shared_folder_add] *)

(** The loop variables of the walk along the path of a shared folder;
    [parent_type] starts as [''], here [None]. *)
Record sf_walk : Type := SfWalk {
  sfw_parent_uid : string;
  sfw_parent_type : option folder_type;
  sfw_parent_key : option string
}.

Section SharedFolderAdd.

Context {ext : Externals}.
Local Open Scope py_scope.

Variable p : params.

(** Lines 203-208: one permission of the first pass over the folders. *)
Definition collect_email (emails : Dict.t (option string))
    (perm : ImportPermission) : Dict.t (option string) :=
  if Dict.mem (perm_name perm) emails then emails
  else
    let email := parseaddr (perm_name perm) in
    if String.eqb email "" then emails
    else if String.eqb email (user p) then emails
    else Dict.set (lower email) None emails.

(** Lines 200-208. *)
Definition collect_emails (folders : list ImportSharedFolder)
  : Dict.t (option string) :=
  fold_left
    (fun emails fol =>
       fold_left collect_email (default [] (isf_permissions fol)) emails)
    folders [].

(** Lines 217-219: the loop over [rs['public_keys']]; an entry with a key
    and without an owner raises inside the [try], which ends the loop and
    keeps what was stored before. *)
Fixpoint store_public_keys (pks : list pk_entry)
    (emails : Dict.t (option string)) : Dict.t (option string) :=
  match pks with
  | [] => emails
  | pk :: rest =>
      match pk_public_key pk with
      | None => store_public_keys rest emails
      | Some key =>
          match pk_key_owner pk with
          | Some owner => store_public_keys rest (Dict.set owner (Some key) emails)
          | None => emails
          end
      end
  end.

(** Lines 209-221. *)
Definition resolve_public_keys (emails : Dict.t (option string))
  : Dict.t (option string) :=
  match emails with
  | [] => emails
  | _ :: _ =>
      try_except
        (do rs <- public_keys (Dict.keys emails);
         match rs with
         | Some pks => Ret (store_public_keys pks emails)
         | None => Ret emails
         end)
        (fun _ => emails)
  end.

(** Lines 241-264: the node created for a component that the index does
    not know. *)
Definition new_shared_path_folder (is_last : bool) (comp : string)
    (d : draws) (w : sf_walk) : folder_add_rq * sf_walk :=
  let folder_uid := generate_record_uid (uid_draws d) in
  let folder_type := if is_last then SharedFolderType else UserFolderType in
  let folder_key := urandom (key_draws d) in
  ({| fa_folder_uid := folder_uid;
      fa_folder_type := folder_type;
      fa_key := EncryptAes (PBytes folder_key) (data_key p);
      fa_parent_uid :=
        if String.eqb (sfw_parent_uid w) "" then None
        else Some (sfw_parent_uid w);
      fa_shared_folder_uid := None;
      fa_name :=
        if is_last then Some (EncryptAes (PBytes comp) folder_key) else None;
      fa_data := EncryptAes (PFolderData comp) folder_key |},
   {| sfw_parent_uid := folder_uid;
      sfw_parent_type := Some folder_type;
      sfw_parent_key := Some folder_key |}).

(** Lines 230-272: the components of the path, up to the first one whose
    node has the wrong type; the flag is [skip_folder]. *)
Fixpoint shared_path (b : builder) (w : sf_walk) (comps : list (bool * string))
  : builder * sf_walk * bool :=
  match comps with
  | [] => (b, w, false)
  | (is_last, comp) :: rest =>
      let digest := folder_digest comp (sfw_parent_uid w) in
      match folder_hash b !! digest with
      | None =>
          let '(rq, w') := new_shared_path_folder is_last comp (drawn b) w in
          shared_path
            {| folder_hash :=
                 <[ digest := (fa_folder_uid rq, fa_folder_type rq,
                               if is_last then sfw_parent_key w' else None) ]>
                   (folder_hash b);
               folder_add := folder_add b ++ [FolderAdd rq];
               drawn := {| uid_draws := S (uid_draws (drawn b));
                           key_draws := S (key_draws (drawn b)) |} |}
            w' rest
      | Some (uid, type, key) =>
          let w' := {| sfw_parent_uid := uid;
                       sfw_parent_type := Some type;
                       sfw_parent_key := key |} in
          let skip_folder :=
            if is_last then negb (bool_decide (type = SharedFolderType))
            else negb (bool_decide (type = UserFolderType)) in
          if skip_folder then (b, w', true) else shared_path b w' rest
      end
  end.

End SharedFolderAdd.

Section SharedFolderGrants.

Context {ext : Externals}.
Local Open Scope py_scope.

Variable p : params.

(** [api.encrypt_aes(parent_key, key)] and [api.encrypt_rsa(parent_key,
    rsa_key)], where [parent_key] may be [None].  [api.py] is not among the
    sources at hand; both calls are taken to raise on [None], which has no
    length to pad. *)
Definition wrap_aes (parent_key : option string) (key : string) : py cipher :=
  match parent_key with
  | Some k => Ret (EncryptAes (PBytes k) key)
  | None => Raise (TypeError "encrypt_aes")
  end.

Definition wrap_rsa (parent_key : option string) (rsa_key : string) : py cipher :=
  match parent_key with
  | Some k => Ret (EncryptRsa (PBytes k) rsa_key)
  | None => Raise (TypeError "encrypt_rsa")
  end.

(** Lines 297-300: [for team in params.team_cache] runs over the keys of
    the dictionary, which are strings (lines 290, 302 and 305 use
    [params.team_cache] as a dictionary from uid to team); [team['name']]
    on a string raises [TypeError] in the first iteration.  With no team
    cached the loop does nothing and [perm.uid] stays [None]. *)
Definition team_by_name (perm : ImportPermission) : py (option string) :=
  match Dict.keys (team_cache p) with
  | [] => Ret None
  | _ :: _ => Raise (TypeError "string indices must be integers")
  end.

(** Lines 288-300: [is_team] and [perm.uid] as they are afterwards. *)
Definition resolve_grantee (perm : ImportPermission)
  : py (bool * option string) :=
  if truthy (perm_uid perm)
     && negb (bool_decide (team_cache p = []))
  then Ret (match get_opt (perm_uid perm) (team_cache p) with
            | Some _ => true
            | None => false
            end, perm_uid perm)
  else
    let email := parseaddr (perm_name perm) in
    if String.eqb email "" then
      do uid <- team_by_name perm;
      Ret (true, uid)
    else Ret (false, perm_uid perm).

Definition with_team (request : shared_folder_update_rq) (g : team_grant)
  : shared_folder_update_rq :=
  {| su_shared_folder_uid := su_shared_folder_uid request;
     su_defaults := su_defaults request;
     su_add_teams := Some (default [] (su_add_teams request) ++ [g]);
     su_add_users := su_add_users request;
     su_update_records := su_update_records request |}.

(** [if 'add_users' not in request: request['add_users'] = []] *)
Definition with_users (request : shared_folder_update_rq)
  : shared_folder_update_rq :=
  {| su_shared_folder_uid := su_shared_folder_uid request;
     su_defaults := su_defaults request;
     su_add_teams := su_add_teams request;
     su_add_users := Some (default [] (su_add_users request));
     su_update_records := su_update_records request |}.

Definition with_user (request : shared_folder_update_rq) (g : user_grant)
  : shared_folder_update_rq :=
  {| su_shared_folder_uid := su_shared_folder_uid request;
     su_defaults := su_defaults request;
     su_add_teams := su_add_teams request;
     su_add_users := Some (default [] (su_add_users request) ++ [g]);
     su_update_records := su_update_records request |}.

(** Lines 301-311: a team grantee. *)
Definition add_team (parent_key : option string) (uid : option string)
    (perm : ImportPermission) (request : shared_folder_update_rq)
  : py shared_folder_update_rq :=
  if truthy uid then
    match get_opt uid (team_cache p) with
    | Some team =>
        do key <- wrap_aes parent_key (team_key team);
        Ret (with_team request
               {| tg_team_uid := or_empty uid;
                  tg_manage_users := perm_manage_users perm;
                  tg_manage_records := perm_manage_records perm;
                  tg_shared_folder_key := key |})
    | None => Ret request
    end
  else Ret request.

(** Lines 312-335: a user grantee. *)
Definition add_user (emails : Dict.t (option string))
    (parent_key : option string) (perm : ImportPermission)
    (request : shared_folder_update_rq) : py shared_folder_update_rq :=
  let request := with_users request in
  let email := lower (perm_name perm) in
  let grant key :=
    {| ug_username := email;
       ug_manage_users := perm_manage_users perm;
       ug_manage_records := perm_manage_records perm;
       ug_shared_folder_key := key |} in
  if String.eqb email (lower (user p)) then
    do key <- wrap_aes parent_key (data_key p);
    Ret (with_user request (grant key))
  else
    match Dict.get email emails with
    | Some public_key =>
        if truthy public_key then
          Ret (try_except
                 (do rsa_key <- import_key (or_empty public_key);
                  do key <- wrap_rsa parent_key rsa_key;
                  Ret (with_user request (grant key)))
                 (fun _ => request))
        else Ret request
    | None => Ret request
    end.

(** Lines 287-335: one declared permission. *)
Definition add_permission (emails : Dict.t (option string))
    (parent_key : option string) (request : shared_folder_update_rq)
    (perm : ImportPermission) : py shared_folder_update_rq :=
  do g <- resolve_grantee perm;
  let '(is_team, uid) := g in
  if is_team : bool then add_team parent_key uid perm request
  else add_user emails parent_key perm request.

Definition sf_start : sf_walk :=
  {| sfw_parent_uid := ""; sfw_parent_type := None; sfw_parent_key := None |}.

(** Lines 224-336: one shared folder of the import. *)
Definition add_shared_folder (emails : Dict.t (option string))
    (b : builder) (fol : ImportSharedFolder) : py builder :=
  let '(b', w, skip_folder) :=
    shared_path p b sf_start
                (indexed_components (path_components (isf_path fol))) in
  if negb skip_folder
     && bool_decide (sfw_parent_type w = Some SharedFolderType)
  then
    do request <-
      py_fold (add_permission emails (sfw_parent_key w))
              (default [] (isf_permissions fol))
              {| su_shared_folder_uid := sfw_parent_uid w;
                 su_defaults :=
                   Some {| fd_manage_users := isf_manage_users fol;
                           fd_manage_records := isf_manage_records fol;
                           fd_can_edit := isf_can_edit fol;
                           fd_can_share := isf_can_share fol |};
                 su_add_teams := None;
                 su_add_users := None;
                 su_update_records := None |};
    Ret {| folder_hash := folder_hash b';
           folder_add := folder_add b' ++ [SharedFolderUpdate request];
           drawn := drawn b' |}
  else Ret b'.

(** [prepare_shared_folder_add(params, folders)] *)
Definition prepare_shared_folder_add (d : draws)
    (folders : list ImportSharedFolder) : py (list request * draws) :=
  let emails := resolve_public_keys (collect_emails p folders) in
  do b <- py_fold (add_shared_folder emails) folders
            {| folder_hash := build_folder_hash p;
               folder_add := [];
               drawn := d |};
  Ret (folder_add b, drawn b).

End SharedFolderGrants.

(** ** Order of consumption of a queue *)

(** [consumed_in_order queue sent]: every chunk of [sent] is the first
    [chunk_size] operations of what is left of [queue], and what is left
    only ever loses a non-empty prefix of that chunk. *)
Inductive consumed_in_order {op : Type} : list op -> list (list op) -> Prop :=
| consumed_done : consumed_in_order [] []
| consumed_chunk (queue : list op) (k : nat) (sent : list (list op)) :
    1 <= k <= length (firstn chunk_size queue) ->
    consumed_in_order (skipn k queue) sent ->
    consumed_in_order queue (firstn chunk_size queue :: sent).

(** ** Paths of the export: [get_folder_path] and [get_import_folder] *)

(** [s.replace(old, new)]: the occurrences of [old] from the left, none
    of them overlapping another; with an empty [old], [new] goes before
    every character and after the last one. *)
Fixpoint replace_from (old new : string) (skip : nat) (s : string) : string :=
  match s with
  | EmptyString => EmptyString
  | String c rest =>
      match skip with
      | S skip => replace_from old new skip rest
      | O =>
          if String.prefix old s
          then (new ++ replace_from old new (String.length old - 1) rest)%string
          else String c (replace_from old new 0 rest)
      end
  end.

Fixpoint interleave (new s : string) : string :=
  match s with
  | EmptyString => new
  | String c rest => (new ++ String c (interleave new rest))%string
  end.

Definition replace (old new s : string) : string :=
  if String.eqb old "" then interleave new s else replace_from old new 0 s.

(** How a [while] loop over the parents of a folder ends: it returns, it
    raises [AttributeError] on a folder whose [name] is [None], or it is
    still running when the fuel is used up. *)
Inductive walked (A : Type) : Type :=
| Done (a : A)
| NoName
| OutOfFuel.
Arguments Done {A} a.
Arguments NoName {A}.
Arguments OutOfFuel {A}.

Section FolderPaths.

(** [PathDelimiter] of [importer/importer.py]. *)
Variable PathDelimiter : string.
Variable p : params.

(** [f.name.replace(PathDelimiter, 2*PathDelimiter)] *)
Definition escaped (name : string) : string :=
  replace PathDelimiter (PathDelimiter ++ PathDelimiter) name.

(** Lines 62-67: the path with the name of [f] put before it; [None]
    when [f.name] is [None]. *)
Definition path_step (f : folder_node) (path : string) : option string :=
  match fn_name f with
  | Some name =>
      Some (if String.eqb path "" then escaped name
            else escaped name ++ PathDelimiter ++ path)%string
  | None => None
  end.

(** Lines 61-71: [while uid in params.folder_cache]. *)
Fixpoint get_folder_path_loop (fuel : nat) (uid path : string)
  : walked string :=
  match fuel with
  | O => OutOfFuel
  | S fuel =>
      match Dict.get uid (folder_cache p) with
      | None => Done path
      | Some f =>
          match path_step f path with
          | None => NoName
          | Some path =>
              if truthy (fn_parent_uid f)
              then get_folder_path_loop fuel (or_empty (fn_parent_uid f)) path
              else Done path
          end
      end
  end.

(** [get_folder_path(params, folder_uid)] *)
Definition get_folder_path (fuel : nat) (folder_uid : string) : walked string :=
  get_folder_path_loop fuel folder_uid "".

(** Lines 42-47: the first entry for the record among the records of the
    shared folder [f]. *)
Definition shared_entry (record_uid : string) (f : folder_node)
  : option sf_record :=
  match Dict.get (fn_uid f) (shared_folder_cache p) with
  | Some sf =>
      match sf_records sf with
      | Some records =>
          List.find (fun sfr => String.eqb (sfr_record_uid sfr) record_uid)
                    records
      | None => None
      end
  | None => None
  end.

(** Lines 32-47: the folder of the export after the cached folder [f];
    [None] when [f.name] is [None]. *)
Definition import_folder_step (record_uid : string) (f : folder_node)
    (folder : ImportFolder) : option ImportFolder :=
  match fn_name f with
  | Some name =>
      let path :=
        (if truthy (fol_path folder)
         then escaped name ++ PathDelimiter ++ or_empty (fol_path folder)
         else escaped name)%string in
      if decide (fn_type f = SharedFolderType) then
        let entry := shared_entry record_uid f in
        Some {| fol_uid := fol_uid folder;
                fol_domain := Some path;
                fol_path := None;
                fol_can_edit :=
                  match entry with
                  | Some sfr => Some (sfr_can_edit sfr)
                  | None => fol_can_edit folder
                  end;
                fol_can_share :=
                  match entry with
                  | Some sfr => Some (sfr_can_share sfr)
                  | None => fol_can_share folder
                  end |}
      else
        Some {| fol_uid := fol_uid folder;
                fol_domain := fol_domain folder;
                fol_path := Some path;
                fol_can_edit := fol_can_edit folder;
                fol_can_share := fol_can_share folder |}
  | None => None
  end.

(** Lines 31-53: [while uid in params.folder_cache]. *)
Fixpoint get_import_folder_loop (fuel : nat) (record_uid uid : string)
    (folder : ImportFolder) : walked ImportFolder :=
  match fuel with
  | O => OutOfFuel
  | S fuel =>
      match Dict.get uid (folder_cache p) with
      | None => Done folder
      | Some f =>
          match import_folder_step record_uid f folder with
          | None => NoName
          | Some folder =>
              if truthy (fn_parent_uid f)
              then get_import_folder_loop fuel record_uid
                     (or_empty (fn_parent_uid f)) folder
              else Done folder
          end
      end
  end.

(** [ImportFolder()] *)
Definition new_import_folder : ImportFolder :=
  {| fol_uid := None; fol_domain := None; fol_path := None;
     fol_can_edit := None; fol_can_share := None |}.

(** [get_import_folder(params, folder_uid, record_uid)] *)
Definition get_import_folder (fuel : nat) (folder_uid record_uid : string)
  : walked ImportFolder :=
  get_import_folder_loop fuel record_uid folder_uid new_import_folder.

End FolderPaths.

(** ** Shared folders from a file: [parse_sf_json] and [create_sf] *)

(** An entry of [response_json['add_users']] or
    [response_json['add_records']]: its ['status'], if it has one. *)
Record info : Type := Info {
  info_status : option string
}.

(** The answer to a [shared_folder_update]. *)
Record sf_response : Type := SfResponse {
  rs_add_users : option (list info);
  rs_add_records : option (list info)
}.

(** What [create_sf] prints about results (the progress lines
    ['Creating shared folder(s)...'], ['Preparing shared folder in
    read_json'] and ['Sending request'] are left out). *)
Inductive message : Type :=
| UsersAdded (n : nat)
| UsersFailed (n : nat)
| RecordsAdded (n : nat)
| RecordsFailed (n : nat)
| CreatedSharedFolder (shared_folder_uid : string)
| CreatedSharedFolders (num_success : nat).

(** The variables of the loop of [create_sf], and what was printed. *)
Record sf_counters : Type := SfCounters {
  num_success : nat;
  add_records_success : list info;
  user_success : list info;
  printed : list message
}.

Section SharedFoldersFromFile.

Local Open Scope py_scope.

(** JSON values, with [[]]; the [SharedFolder] object. *)
Variable json : Type.
Variable empty_list : json.

Record SharedFolderObject : Type := SharedFolderObject_ {
  sfo_default_manage_records : json;
  sfo_default_manage_users : json;
  sfo_default_can_edit : json;
  sfo_default_can_share : json;
  sfo_name : json;
  sfo_records : json;
  sfo_users : json;
  sfo_teams : json
}.

(** [parse_sf_json(json)] *)
Definition parse_sf_json (j : Dict.t json) : py SharedFolderObject :=
  do default_manage_records <- Dict.item "default_manage_records" j;
  do default_manage_users <- Dict.item "default_manage_users" j;
  do default_can_edit <- Dict.item "default_can_edit" j;
  do default_can_share <- Dict.item "default_can_share" j;
  do name <- Dict.item "name" j;
  Ret {| sfo_default_manage_records := default_manage_records;
         sfo_default_manage_users := default_manage_users;
         sfo_default_can_edit := default_can_edit;
         sfo_default_can_share := default_can_share;
         sfo_name := name;
         sfo_records := default empty_list (Dict.get "records" j);
         sfo_users := default empty_list (Dict.get "users" j);
         sfo_teams := default empty_list (Dict.get "teams" j) |}.

(** The vault service and [api.py]: the request that
    [api.prepare_shared_folder] and [api.make_request] make of a shared
    folder, with its ['shared_folder_uid'], and [api.communicate]. *)
Variable state : Type.
Variable sf_request : Type.
Variable prepare_shared_folder : SharedFolderObject -> py sf_request.
Variable shared_folder_uid : sf_request -> string.
Variable communicate : state -> sf_request -> state * py sf_response.

(** [[info for info in infos if info['status'] == 'success']], and the
    same with [!=]. *)
Fixpoint with_status (success : bool) (infos : list info) : py (list info) :=
  match infos with
  | [] => Ret []
  | i :: rest =>
      match info_status i with
      | Some status =>
          do selected <- with_status success rest;
          Ret (if Bool.eqb (String.eqb status "success") success
               then i :: selected else selected)
      | None => Raise (KeyError "status")
      end
  end.

Definition print_count (make : nat -> message) (infos : list info)
    (out : list message) : list message :=
  if (0 <? length infos)%nat then out ++ [make (length infos)] else out.

(** Lines 662-680: what the loop does with an answer. *)
Definition count_response (request : sf_request) (response : sf_response)
    (c : sf_counters) : py sf_counters :=
  do c <-
    match rs_add_users response with
    | Some infos =>
        do success <- with_status true infos;
        let out := print_count UsersAdded success (printed c) in
        do failures <- with_status false infos;
        Ret {| num_success := num_success c;
               add_records_success := add_records_success c;
               user_success := success;
               printed := print_count UsersFailed failures out |}
    | None => Ret c
    end;
  do c <-
    match rs_add_records response with
    | Some infos =>
        do success <- with_status true infos;
        let out := print_count RecordsAdded success (printed c) in
        do failures <- with_status false infos;
        Ret {| num_success := num_success c;
               add_records_success := success;
               user_success := user_success c;
               printed := print_count RecordsFailed failures out |}
    | None => Ret c
    end;
  if (0 <? length (user_success c) + length (add_records_success c))%nat
  then Ret {| num_success := S (num_success c);
              add_records_success := add_records_success c;
              user_success := user_success c;
              printed := printed c
                         ++ [CreatedSharedFolder (shared_folder_uid request)] |}
  else Ret c.

(** Lines 652-680: one shared folder of the file. *)
Definition create_one (s : state * sf_counters) (json_sf : Dict.t json)
  : state * py sf_counters :=
  let '(st, c) := s in
  match parse_sf_json json_sf with
  | Raise e => (st, Raise e)
  | Ret sf =>
      match prepare_shared_folder sf with
      | Raise e => (st, Raise e)
      | Ret request =>
          let '(st, rs) := communicate st request in
          match rs with
          | Raise e => (st, Raise e)
          | Ret response => (st, count_response request response c)
          end
      end
  end.

(** Lines 652-680: [for json_sf in read_json()]; an exception ends the
    loop. *)
Fixpoint create_loop (s : state * sf_counters) (file : list (Dict.t json))
  : state * py sf_counters :=
  match file with
  | [] => (s.1, Ret s.2)
  | json_sf :: rest =>
      match create_one s json_sf with
      | (st, Ret c) => create_loop (st, c) rest
      | (st, Raise e) => (st, Raise e)
      end
  end.

(** [create_sf(params, filename)], for the shared folders that the file
    holds: the state of the service, and what was printed. *)
Definition create_sf (st : state) (file : list (Dict.t json))
  : state * py (list message) :=
  match create_loop (st, {| num_success := 0; add_records_success := [];
                            user_success := []; printed := [] |}) file with
  | (st, Ret c) =>
      (st, Ret (if (0 <? num_success c)%nat
                then printed c ++ [CreatedSharedFolders (num_success c)]
                else printed c))
  | (st, Raise e) => (st, Raise e)
  end.

End SharedFoldersFromFile.

(** * Vocabulary of the properties, and scenarios *)

(** ** Remote stores for the batch executor *)

(** A store that answers every request with ['success'] and the first
    [k] results. *)
Definition acknowledging (k : nat) (st : unit) (chunk : list nat)
  : unit * py batch_response :=
  (st, Ret {| rs_result := Some "success";
              rs_results :=
                Some (repeat {| res_result := Some "success";
                                res_message := None |}
                             (Nat.min k (length chunk))) |}).

(** A store whose first call raises and which answers in full
    afterwards; its state counts the calls. *)
Definition failing_once (st : nat) (chunk : list nat)
  : nat * py batch_response :=
  (S st,
   match st with
   | O => Raise (RemoteError "timeout")
   | S _ => Ret {| rs_result := Some "success";
                   rs_results :=
                     Some (repeat {| res_result := Some "success";
                                     res_message := None |} (length chunk)) |}
   end).

Definition refreshed (st : nat) (v : unit) : py unit := Ret v.

(** ** Collaborators for the scenarios *)

Definition plain_char (c : ascii) : bool :=
  let n := nat_of_ascii c in
  ((48 <=? n)%nat && (n <=? 57)%nat)
  || ((65 <=? n)%nat && (n <=? 90)%nat)
  || ((97 <=? n)%nat && (n <=? 122)%nat)
  || Ascii.eqb c "."%char || Ascii.eqb c "-"%char || Ascii.eqb c "_"%char.

Fixpoint plain_word (s : string) : bool :=
  match s with
  | EmptyString => true
  | String c rest => plain_char c && plain_word rest
  end.

(** [local@domain] with both parts plain and not empty. *)
Fixpoint plain_mailbox (s : string) (seen_local : bool) : bool :=
  match s with
  | EmptyString => false
  | String c rest =>
      if Ascii.eqb c "@"%char
      then seen_local && negb (String.eqb rest "") && plain_word rest
      else plain_char c && plain_mailbox rest true
  end.

(** The address part of [email.utils.parseaddr] on the names of the
    scenarios: a word of letters, digits, dots, hyphens and underscores, or
    two of them around one ['@'], is returned as it is (so is a team name
    such as ['Engineering']); the scenarios use no other names than these
    and ['(ops)'], of which [parseaddr] makes [''] as well. *)
Definition scenario_parseaddr (s : string) : string :=
  if (plain_word s || plain_mailbox s false) then s else "".

(** Components of a path separated by single backslashes; the scenarios
    use neither doubled backslashes nor blanks. *)
Fixpoint scenario_components (s cur : string) : list string :=
  match s with
  | EmptyString => if String.eqb cur "" then [] else [cur]
  | String c rest =>
      if Ascii.eqb c "\"%char
      then (if String.eqb cur "" then [] else [cur]) ++ scenario_components rest ""
      else scenario_components rest (cur ++ String c EmptyString)%string
  end.

(** The scenarios draw the uids [uid0], [uid1], ... and 32-byte keys that
    end in the number of the draw; the directory is a list of users with
    their public keys, and the key ['garbage'] does not parse. *)
Definition scenario_key (n : nat) : string :=
  let digits := pretty n in
  (String.substring 0 (32 - String.length digits) "key-----------------------------"
   ++ digits)%string.

Definition scenario (directory : list (string * string)) : Externals :=
  {| parseaddr := scenario_parseaddr;
     path_components := fun path => scenario_components path "";
     generate_record_uid := fun n => ("uid" ++ pretty n)%string;
     urandom := scenario_key;
     public_keys := fun owners =>
       Ret (Some (omap (fun owner =>
                          match Dict.get owner directory with
                          | Some key => Some {| pk_key_owner := Some owner;
                                                pk_public_key := Some key |}
                          | None => None
                          end) owners));
     import_key := fun public_key =>
       if String.eqb public_key "garbage"
       then Raise (TypeError "RSA key format is not supported")
       else Ret public_key |}.

(** ** A vault for the scenarios *)

(** Two shared folders ([Team], [Ops]), a folder inside [Team], a user
    folder [Work], one record in [Work], one team; the operator is
    [alice@example.com]. *)
Definition vault_folders : Dict.t folder_node :=
  [ ("F1", FolderNode "F1" UserFolderType (Some "Work") None None);
    ("SF1", FolderNode "SF1" SharedFolderType (Some "Team") None None);
    ("SFF1", FolderNode "SFF1" SharedFolderFolderType (Some "Sub") (Some "SF1") (Some "SF1"));
    ("SF2", FolderNode "SF2" SharedFolderType (Some "Ops") None None) ].

Definition vault_shared_folders : Dict.t shared_folder :=
  [ ("SF1", SharedFolder "sfkey1" None
              (Some [SfRecord "R1" false true])
              (Some [SfTeam "T1" true])
              (Some [SfUser "bob@example.com" false true]));
    ("SF2", SharedFolder "sfkey2" None (Some []) None None) ].

Definition vault_records : Dict.t vault_record :=
  [ ("R1", VaultRecord (Some "Site A") (Some "bob") (Some "pw1") "rk1") ].

Definition vault (folders_of : string -> list string) : params :=
  {| user := "alice@example.com";
     data_key := "master";
     folder_cache := vault_folders;
     shared_folder_cache := vault_shared_folders;
     record_cache := vault_records;
     team_cache := [ ("T1", Team "Engineering" "tk1") ];
     find_folders := folders_of |}.

Definition empty_vault : params :=
  {| user := "alice@example.com";
     data_key := "master";
     folder_cache := [];
     shared_folder_cache := [];
     record_cache := [];
     team_cache := [];
     find_folders := fun _ => [] |}.

Definition no_draws : draws := {| uid_draws := 0; key_draws := 0 |}.

Definition in_folder (uid : option string) (domain path : option string)
  : ImportFolder :=
  {| fol_uid := uid; fol_domain := domain; fol_path := path;
     fol_can_edit := None; fol_can_share := None |}.

Definition site_record (uid : option string) (folders : list ImportFolder)
  : ImportRecord :=
  {| rec_uid := uid;
     rec_title := Some "Site B";
     rec_login := Some "carol";
     rec_password := Some "pw2";
     rec_login_url := None;
     rec_notes := None;
     rec_custom_fields := [];
     rec_folders := Some folders |}.

(** ** Owning keys *)

(** The key that protects what a folder holds, in the words of the
    specification: the key of the shared folder a [Shared] or [SharedSub]
    folder belongs to, and the vault master key otherwise. *)
Inductive owning_key : Type :=
| VaultMasterKey
| SharedFolderKey (shared_folder_uid : option string).

#[global] Instance owning_key_eq_dec : EqDecision owning_key.
Proof. solve_decision. Defined.

Definition owner_of (f : folder_node) : owning_key :=
  if is_shared_type (fn_type f)
  then SharedFolderKey (shared_folder_of f) else VaultMasterKey.

(** The transition keys the specification asks of a link from [src] to
    [dst]: none when both have the same owning key, else the record key
    under the owning key of the destination; [None] when that key is not in
    the vault. *)
Definition declared_transition_keys (p : params) (uid : string)
    (record : vault_record) (src dst : folder_node)
  : option (list (string * cipher)) :=
  let record_key := PBytes (vr_record_key_unencrypted record) in
  if decide (owner_of src = owner_of dst) then Some []
  else
    match owner_of dst with
    | VaultMasterKey => Some [(uid, EncryptAes record_key (data_key p))]
    | SharedFolderKey sf_uid =>
        match get_opt sf_uid (shared_folder_cache p) with
        | Some shf => Some [(uid, EncryptAes record_key (sf_shared_folder_key shf))]
        | None => None
        end
    end.

(** A request of [prepare_record_link] and the link it stands for. *)
Definition links_with_declared_keys (p : params) (rq : request) : Prop :=
  exists req uid record src dst,
    rq = Move req
    /\ Dict.get uid (record_cache p) = Some record
    /\ (exists k, Dict.get k (folder_cache p) = Some src)
    /\ (exists k, Dict.get k (folder_cache p) = Some dst)
    /\ mv_move req = [ {| mo_uid := uid;
                          mo_from_type := request_type (fn_type src);
                          mo_from_uid := request_uid src;
                          mo_cascade := true |} ]
    /\ mv_to_type req = request_type (fn_type dst)
    /\ mv_to_uid req = request_uid dst
    /\ declared_transition_keys p uid record src dst
       = Some (mv_transition_keys req).

(** ** Keys of a new record *)

(** What C10 says of a request of [prepare_record_add]: the record key is
    there under the vault master key, and a request into a shared folder
    or a folder of one has, besides, the same record key under the key of
    a cached shared folder. *)
Definition carries_master_wrapped_key (p : params) (rq : request) : Prop :=
  exists req record_key,
    rq = RecordAdd req
    /\ ra_record_key req = EncryptAes (PBytes record_key) (data_key p)
    /\ (is_shared_type (ra_folder_type req) = true ->
        exists sf_uid sf,
          Dict.get sf_uid (shared_folder_cache p) = Some sf
          /\ ra_folder_key req
             = Some (EncryptAes (PBytes record_key) (sf_shared_folder_key sf)))
    /\ (is_shared_type (ra_folder_type req) = false -> ra_folder_key req = None).

(** ** Records for the scenarios *)

(** The cached record [R1], declared in three folders. *)
Definition relinked_record : ImportRecord :=
  site_record (Some "R1")
    [ in_folder (Some "SF1") None None; in_folder (Some "SF2") None None;
      in_folder (Some "F1") None None ].

(** Two records that the vault does not hold: one placed in the folder
    [Sub] of the shared folder [Team], one without a folder. *)
Definition new_records : list ImportRecord :=
  [ site_record None [in_folder (Some "SFF1") (Some "Team") (Some "Sub")];
    {| rec_uid := None; rec_title := Some "Site C"; rec_login := None;
       rec_password := None; rec_login_url := None; rec_notes := None;
       rec_custom_fields := []; rec_folders := None |} ].

(** ** Types required along the path of a shared folder *)

(** Lines 267-270: the last component of the path of an imported shared
    folder has to be a shared folder, the others user folders. *)
Definition required_type (is_last : bool) : folder_type :=
  if is_last then SharedFolderType else UserFolderType.

Definition scenario_builder (p : params) : builder :=
  {| folder_hash := build_folder_hash p; folder_add := []; drawn := no_draws |}.

Definition shared_folder_at (path : string)
    (permissions : list ImportPermission) : ImportSharedFolder :=
  {| isf_path := path;
     isf_manage_users := Some false;
     isf_manage_records := Some true;
     isf_can_edit := Some true;
     isf_can_share := Some false;
     isf_permissions := Some permissions |}.

(** ** The live entry of a record in a shared folder *)

(** The entry of the live ACL that a declared folder of the record [uid]
    is compared with: the first entry for [uid] among the records of the
    shared folder that the resolved folder is, or belongs to. *)
Definition live_entry (p : params) (uid : string) (fol : ImportFolder)
  : option (string * sf_record) :=
  if truthy (fol_uid fol) then
    match get_opt (fol_uid fol) (folder_cache p) with
    | Some folder =>
        if is_shared_type (fn_type folder) then
          match (if decide (fn_type folder = SharedFolderFolderType)
                 then fn_shared_folder_uid folder else Some (fn_uid folder)) with
          | Some sf_uid =>
              match Dict.get sf_uid (shared_folder_cache p) with
              | Some sf =>
                  match sf_records sf with
                  | Some records =>
                      match List.find (fun sfr => String.eqb (sfr_record_uid sfr) uid)
                                      records with
                      | Some sfr => Some (sf_uid, sfr)
                      | None => None
                      end
                  | None => None
                  end
              | None => None
              end
          | None => None
          end
        else None
    | None => None
    end
  else None.

(** The request that sets the declared permissions of record [uid] in the
    shared folder [sf_uid]. *)
Definition record_update (uid sf_uid : string) (fol : ImportFolder) : request :=
  SharedFolderUpdate
    {| su_shared_folder_uid := sf_uid;
       su_defaults := None;
       su_add_teams := None;
       su_add_users := None;
       su_update_records :=
         Some [ {| rg_record_uid := uid;
                   rg_shared_folder_uid := sf_uid;
                   rg_can_edit := fol_can_edit fol;
                   rg_can_share := fol_can_share fol |} ] |}.

(** The record [R1] of the vault, declared in the shared folder [Team]
    with the given permissions. *)
Definition shared_record (can_share can_edit : option bool) : ImportRecord :=
  site_record (Some "R1")
    [ {| fol_uid := Some "SF1"; fol_domain := Some "Team"; fol_path := None;
         fol_can_edit := can_edit; fol_can_share := can_share |} ].

Definition grantee (name : string) : ImportPermission :=
  {| perm_uid := None; perm_name := name;
     perm_manage_users := Some false; perm_manage_records := Some true |}.

(** ** Grantees without a usable public key *)

(** The directory lookup left no public key for the grantee that can be
    used: the name was not looked up, no key came back, or the key that
    came back is empty or does not parse. *)
Definition key_unavailable `{Externals} (emails : Dict.t (option string))
    (perm : ImportPermission) : Prop :=
  match Dict.get (lower (perm_name perm)) emails with
  | Some (Some key) => key = "" \/ exists e, import_key key = Raise e
  | _ => True
  end.

(** The directory of the scenarios knows the key of [bob@example.com]. *)
Definition directory : list (string * string) := [("bob@example.com", "pkbob")].

(** A vault whose only team is named like an address. *)
Definition vault_with_mail_team : params :=
  {| user := "alice@example.com";
     data_key := "master";
     folder_cache := vault_folders;
     shared_folder_cache := vault_shared_folders;
     record_cache := vault_records;
     team_cache := [ ("T2", Team "Ops@corp.com" "tk2") ];
     find_folders := fun _ => [] |}.

(** The request for the shared folder [Team] before its permissions are
    added. *)
Definition team_update : shared_folder_update_rq :=
  {| su_shared_folder_uid := "SF1";
     su_defaults := None;
     su_add_teams := None;
     su_add_users := None;
     su_update_records := None |}.

(** What the directory lookup leaves in [emails] when [bob@example.com]
    and [dave@example.com] are declared. *)
Definition looked_up : Dict.t (option string) :=
  [("bob@example.com", Some "pkbob"); ("dave@example.com", None)].

(** ** The vault after a batch *)

(** Modelled from the spec: the remote store and [api.sync_down] are not
    among the sources at hand.  After the queue of a stage has drained the
    snapshot is refreshed "so later stages see newly created objects"
    (section 2): every [folder_add] of the batch is a folder node with the
    uid, type and name of the request below the parent it names (section 3,
    FolderNode; a folder directly below a shared folder names it as
    [shared_folder_uid]), a new shared folder is cached with its key, and
    every [record_add] is a record with the title, login and password of
    the request.  New objects come after the ones the vault had, in the
    order of the batch. *)
Definition stored_folder (rq : folder_add_rq) : folder_node :=
  {| fn_uid := fa_folder_uid rq;
     fn_type := fa_folder_type rq;
     fn_name :=
       match fa_data rq with
       | EncryptAes (PFolderData name) _ => Some name
       | _ => None
       end;
     fn_parent_uid :=
       match fa_parent_uid rq with
       | Some uid => Some uid
       | None => fa_shared_folder_uid rq
       end;
     fn_shared_folder_uid := fa_shared_folder_uid rq |}.

(** Modelled from the spec: a [folder_add] of the batch becomes a node of
    [folder_cache] under its uid; other requests leave the folders alone. *)
Definition store_folder (cache : Dict.t folder_node) (rq : request)
  : Dict.t folder_node :=
  match rq with
  | FolderAdd rq => Dict.set (fa_folder_uid rq) (stored_folder rq) cache
  | _ => cache
  end.

(** Modelled from the spec: a [folder_add] of a shared folder becomes an
    entry of [shared_folder_cache] with the key that the request carries
    (section 3: the symmetric key is present iff the tier is Shared). *)
Definition store_shared_folder (cache : Dict.t shared_folder) (rq : request)
  : Dict.t shared_folder :=
  match rq with
  | FolderAdd rq =>
      match fa_folder_type rq, fa_key rq with
      | SharedFolderType, EncryptAes (PBytes key) _ =>
          Dict.set (fa_folder_uid rq)
                   {| sf_shared_folder_key := key;
                      sf_key_type := None;
                      sf_records := None;
                      sf_teams := None;
                      sf_users := None |} cache
      | _, _ => cache
      end
  | _ => cache
  end.

(** Modelled from the spec: the record that a [record_add] creates, as
    [api.get_record] reads it back from the refreshed snapshot. *)
Definition stored_record (rq : record_add_rq) : vault_record :=
  match ra_data rq with
  | EncryptAes (PRecordData title secret1 secret2 _ _ _) key =>
      {| vr_title := Some title;
         vr_login := Some secret1;
         vr_password := Some secret2;
         vr_record_key_unencrypted := key |}
  | _ =>
      {| vr_title := None;
         vr_login := None;
         vr_password := None;
         vr_record_key_unencrypted := "" |}
  end.

(** Modelled from the spec: a [record_add] of the batch becomes an entry
    of [record_cache] under its uid. *)
Definition store_record (cache : Dict.t vault_record) (rq : request)
  : Dict.t vault_record :=
  match rq with
  | RecordAdd rq => Dict.set (ra_record_uid rq) (stored_record rq) cache
  | _ => cache
  end.

(** Modelled from the spec: the snapshot after the batch [batch] was
    applied in full and [api.sync_down] has refreshed [params] (section 4.7:
    after the queue is drained a full snapshot refresh takes place before
    any dependent stage runs). *)
Definition refreshed_after (batch : list request) (p : params) : params :=
  {| user := user p;
     data_key := data_key p;
     folder_cache := fold_left store_folder batch (folder_cache p);
     shared_folder_cache :=
       fold_left store_shared_folder batch (shared_folder_cache p);
     record_cache := fold_left store_record batch (record_cache p);
     team_cache := team_cache p;
     find_folders := find_folders p |}.

(** A snapshot as [api.sync_down] builds it: the root is not a node of
    [folder_cache], and a shared folder has a uid and a cached key. *)
Record well_formed (p : params) : Prop := WellFormed {
  no_root_node :
    forall uid fol, In (uid, fol) (folder_cache p) ->
                    fn_type fol <> RootFolderType;
  shared_folder_cached :
    forall uid fol, In (uid, fol) (folder_cache p) ->
                    fn_type fol = SharedFolderType ->
                    uid <> "" /\ truthy (cached_shared_folder_key p fol) = true
}.

(** The random sources give new material: uids that are not empty,
    differ from one another and from the uids of the vault, and keys that
    are not empty. *)
Record fresh_entropy `{Externals} (p : params) : Prop := FreshEntropy {
  uid_injective :
    forall m n, generate_record_uid m = generate_record_uid n -> m = n;
  uid_not_empty : forall n, generate_record_uid n <> "";
  uid_not_a_folder :
    forall n, ~ In (generate_record_uid n) (Dict.keys (folder_cache p));
  uid_not_a_record :
    forall n, ~ In (generate_record_uid n) (Dict.keys (record_cache p));
  key_not_empty : forall n, urandom n <> ""
}.

(** The uid part of [folder_hash], and the same built from the snapshot
    alone. *)
Definition hash_uids (h : gmap string hash_entry) : gmap string string :=
  (fun e : hash_entry => e.1.1) <$> h.

Definition uid_index (cache : Dict.t folder_node) : gmap string string :=
  fold_left
    (fun h '(f_uid, fol) =>
       <[ folder_digest (or_empty (fn_name fol)) (or_empty (fn_parent_uid fol))
          := f_uid ]> h)
    cache ∅.

(** The fingerprint of an imported record (lines 432-435). *)
Definition record_fingerprint (rec : ImportRecord) : string :=
  record_digest (or_empty (rec_title rec)) (or_empty (rec_login rec))
                (or_empty (rec_password rec)).

(** The fingerprint of a cached record (lines 425-427). *)
Definition cached_fingerprint (r : vault_record) : string :=
  record_digest (or_empty (vr_title r)) (or_empty (vr_login r))
                (or_empty (vr_password r)).

(** ** Invariants of the folder tree builder *)

(** An entry of [folder_hash] as the snapshot and the builder make them. *)
Definition sound_hash (h : gmap string hash_entry) : Prop :=
  forall digest uid type key,
    h !! digest = Some (uid, type, key) ->
    type <> RootFolderType
    /\ (type = SharedFolderType -> uid <> "" /\ truthy key = true).

(** The loop variables of a walk agree with one another. *)
Definition sound_walk (w : walk) : Prop :=
  (parent_type w = RootFolderType -> parent_uid w = "")
  /\ (parent_type w = SharedFolderType ->
      parent_shared_folder_uid w = Some (parent_uid w)
      /\ parent_uid w <> ""
      /\ truthy (parent_shared_folder_key w) = true).

(** The builder against the snapshot [p] it started from, [n0] uids having
    been drawn before: the index knows no more than the snapshot will hold
    once the requests made so far are applied, and these requests create
    the folders with the uids drawn since. *)
Definition sound_builder `{Externals} (p : params) (n0 : nat) (b : builder)
  : Prop :=
  sound_hash (folder_hash b)
  /\ hash_uids (folder_hash b)
     ⊆ uid_index (fold_left store_folder (folder_add b) (folder_cache p))
  /\ n0 <= uid_draws (drawn b)
  /\ Dict.keys (fold_left store_folder (folder_add b) (folder_cache p))
     = Dict.keys (folder_cache p)
       ++ map generate_record_uid (seq n0 (uid_draws (drawn b) - n0))
  /\ Forall (fun rq => match rq with FolderAdd _ => True | _ => False end)
            (folder_add b).

(** ** An import for two runs *)

(** The record of the vault, under a folder that the vault does not have,
    and a new record in a folder of a new shared folder. *)
Definition twice_imported : list ImportRecord :=
  [ {| rec_uid := None; rec_title := Some "Site A"; rec_login := Some "bob";
       rec_password := Some "pw1"; rec_login_url := None; rec_notes := None;
       rec_custom_fields := [];
       rec_folders := Some [in_folder None None (Some "Work\Site A")] |};
    site_record None [in_folder None (Some "Clients") (Some "Acme")] ].

(** ** Folders of an import *)

(** The folders that a record declares. *)
Definition declared_folders (rec : ImportRecord) : list ImportFolder :=
  default [] (rec_folders rec).


(** A declared folder after [fol.uid = parent_uid] (line 416). *)
Definition resolved_to (uid : string) (fol : ImportFolder) : ImportFolder :=
  {| fol_uid := Some uid;
     fol_domain := fol_domain fol;
     fol_path := fol_path fol;
     fol_can_edit := fol_can_edit fol;
     fol_can_share := fol_can_share fol |}.

(** Records that declare the places of [twice_imported] again, with
    permissions of their own. *)
Definition late_comers : list ImportRecord :=
  [ site_record None
      [ {| fol_uid := None; fol_domain := Some "Clients"; fol_path := Some "Acme";
           fol_can_edit := Some true; fol_can_share := Some false |} ];
    site_record None
      [ in_folder None None (Some "Work\Site A");
        in_folder None (Some "Clients") (Some "Acme") ] ].

(** The uids of the folders that a list of requests creates. *)
Definition created_uids (batch : list request) : list string :=
  omap (fun rq => match rq with
                  | FolderAdd rq => Some (fa_folder_uid rq)
                  | _ => None
                  end) batch.

(** Where the uid of a resolved folder comes from: it is empty (the
    root), the uid of a cached folder, or the uid of a folder that the
    requests create. *)
Definition uid_origin (p : params) (batch : list request) (uid : string) : Prop :=
  uid = "" \/ In uid (Dict.keys (folder_cache p)) \/ In uid (created_uids batch).

(** The bookkeeping of a builder that started with the draws [d0]: it
    holds one [folder_add] per uid and key drawn, in order, and its index
    knows only cached folders and the folders of these requests. *)
Definition tracked `{Externals} (p : params) (d0 : draws) (b : builder) : Prop :=
  exists reqs,
    folder_add b = map FolderAdd reqs
    /\ map fa_folder_uid reqs
       = map generate_record_uid (seq (uid_draws d0) (length reqs))
    /\ uid_draws (drawn b) = uid_draws d0 + length reqs
    /\ key_draws (drawn b) = key_draws d0 + length reqs
    /\ forall digest uid type key,
         folder_hash b !! digest = Some (uid, type, key) ->
         In uid (Dict.keys (folder_cache p)) \/ In uid (map fa_folder_uid reqs).



(** ** Records of an import against the cache *)

(** The cached record that an imported record is taken for: the last one
    of [record_cache] with its fingerprint. *)
Definition known_as (p : params) (rec : ImportRecord) : option string :=
  fst <$> last (filter (fun e : string * vault_record =>
                          cached_fingerprint e.2 = record_fingerprint rec)
                       (record_cache p)).

(** The records of an import that no cached record has the fingerprint
    of. *)
Definition unknown_records (p : params) (records : list ImportRecord)
  : list ImportRecord :=
  filter (fun rec => known_as p rec = None) records.

(** The shared folder that a cached folder of a shared type belongs to
    (line 461). *)
Definition shared_folder_uid_of (folder : folder_node) : option string :=
  if decide (fn_type folder = SharedFolderType)
  then Some (fn_uid folder) else fn_shared_folder_uid folder.

(** An unknown record whose first folder is a cached folder of a shared
    type, the shared folder of which [shared_folder_cache] does not hold. *)
Definition lacks_shared_folder (p : params) (rec : ImportRecord) : Prop :=
  known_as p rec = None
  /\ truthy (primary_folder_uid rec) = true
  /\ exists folder,
       get_opt (primary_folder_uid rec) (folder_cache p) = Some folder
       /\ is_shared_type (fn_type folder) = true
       /\ get_opt (shared_folder_uid_of folder) (shared_folder_cache p) = None.

(** The uid that [prepare_record_add] gives a record: the uid of the
    cached record it is taken for, or the uid of one of the requests
    [reqs]. *)
Definition assigned (p : params) (reqs : list record_add_rq)
    (rec rec' : ImportRecord) : Prop :=
  exists uid,
    rec' = with_uid rec uid
    /\ (forall known, known_as p rec = Some known -> uid = known)
    /\ (known_as p rec = None -> In uid (map ra_record_uid reqs)).

(** ** Links that an import asks for *)

(** The links that [prepare_record_link] has to make for a record, as
    pairs of the record uid and the uid of the folder to link it into: the
    record is cached and some folder holds it, and the declared folder is
    resolved to a cached folder that does not hold the record. *)
Definition missing_links (p : params) (rec : ImportRecord)
  : list (string * string) :=
  match rec_uid rec with
  | Some uid =>
      if negb (String.eqb uid "") && Dict.mem uid (record_cache p) then
        match find_folders p uid with
        | [] => []
        | folder_ids =>
            map (pair uid)
                (filter (fun dst_uid =>
                           dst_uid <> ""
                           /\ Dict.mem dst_uid (folder_cache p) = true
                           /\ dst_uid ∉ folder_ids)
                        (omap fol_uid (declared_folders rec)))
        end
      else []
  | None => []
  end.

(** A request that links the record of the pair from the first folder
    that holds it into the folder of the pair. *)
Definition links_into (p : params) (link : string * string) (rq : request)
  : Prop :=
  exists req first rest src dst,
    rq = Move req
    /\ find_folders p link.1 = first :: rest
    /\ Dict.get first (folder_cache p) = Some src
    /\ Dict.get link.2 (folder_cache p) = Some dst
    /\ mv_move req = [ {| mo_uid := link.1;
                          mo_from_type := request_type (fn_type src);
                          mo_from_uid := request_uid src;
                          mo_cascade := true |} ]
    /\ mv_to_type req = request_type (fn_type dst)
    /\ mv_to_uid req = request_uid dst.

(** A link that cannot be made: the first folder that holds the record is
    not in [folder_cache], or the record key has to be encrypted under the
    key of a shared folder that is not in [shared_folder_cache]. *)
Definition unlinkable (p : params) (link : string * string) : Prop :=
  match find_folders p link.1 with
  | first :: _ =>
      match Dict.get first (folder_cache p), Dict.get link.2 (folder_cache p) with
      | Some src, Some dst =>
          is_shared_type (fn_type dst) = true
          /\ (is_shared_type (fn_type src) = true ->
              shared_folder_of src <> shared_folder_of dst)
          /\ get_opt (shared_folder_of dst) (shared_folder_cache p) = None
      | _, _ => True
      end
  | [] => False
  end.

(** ** Where shared folders are created *)

(** A folder the vault will hold with the type [type] once the requests
    [batch] are applied: a cached folder, or one that a [folder_add] of
    [batch] creates. *)
Definition known_folder (p : params) (batch : list request) (uid : string)
    (type : folder_type) : Prop :=
  (exists fol, In (uid, fol) (folder_cache p) /\ fn_type fol = type)
  \/ (exists rq, In (FolderAdd rq) batch
                 /\ fa_folder_uid rq = uid /\ fa_folder_type rq = type).

(** A request of [prepare_shared_folder_add] against the requests made
    before it: a user folder or a shared folder, with a key of its own
    under the vault master key, in the root or in a user folder; or the
    update of a shared folder. *)
Definition placed (p : params) (earlier : list request) (rq : request) : Prop :=
  match rq with
  | FolderAdd rq =>
      (fa_folder_type rq = UserFolderType \/ fa_folder_type rq = SharedFolderType)
      /\ fa_shared_folder_uid rq = None
      /\ (exists key, fa_key rq = EncryptAes (PBytes key) (data_key p))
      /\ match fa_parent_uid rq with
         | Some parent => known_folder p earlier parent UserFolderType
         | None => True
         end
  | SharedFolderUpdate rq =>
      known_folder p earlier (su_shared_folder_uid rq) SharedFolderType
  | _ => False
  end.

(** Every request of a batch is [placed] against the requests before
    it. *)
Definition well_placed (p : params) (batch : list request) : Prop :=
  forall earlier rq later,
    batch = earlier ++ rq :: later -> placed p earlier rq.

(** Only the last component of a path is flagged as the last one. *)
Fixpoint last_only (comps : list (bool * string)) : Prop :=
  match comps with
  | [] => True
  | (is_last, _) :: rest => (is_last = true -> rest = []) /\ last_only rest
  end.

(** The builder of [prepare_shared_folder_add]: its index knows folders
    with the type they have or will have, and its requests are well
    placed. *)
Definition sound_shared_builder (p : params) (b : builder) : Prop :=
  (forall digest uid type key,
      folder_hash b !! digest = Some (uid, type, key) ->
      known_folder p (folder_add b) uid type)
  /\ well_placed p (folder_add b).

(** The walk along the path of a shared folder knows where it is, and it
    is in the root or in a user folder as long as components follow. *)
Definition walk_known (p : params) (b : builder) (w : sf_walk) : Prop :=
  forall type, sfw_parent_type w = Some type ->
               known_folder p (folder_add b) (sfw_parent_uid w) type.

Definition walk_in_user_folder (w : sf_walk) : Prop :=
  sfw_parent_uid w = "" \/ sfw_parent_type w = Some UserFolderType.

(** A shared folder of the import with a path of two components. *)
Definition nested_shared_folder : ImportSharedFolder :=
  {| isf_path := "Projects\Alpha";
     isf_manage_users := Some false;
     isf_manage_records := Some true;
     isf_can_edit := Some true;
     isf_can_share := Some false;
     isf_permissions := Some [ {| perm_uid := None;
                                  perm_name := "bob@example.com";
                                  perm_manage_users := Some false;
                                  perm_manage_records := Some true |} ] |}.

(** ** Parents before children *)

(** A [folder_add] of [prepare_folder_add] against the requests made
    before it: the parent it names is a user folder, or a folder of a
    shared folder when it is one itself, and the shared folder it names is
    a shared folder; both are cached or created by an earlier request. *)
Definition hangs (p : params) (earlier : list request) (rq : request) : Prop :=
  match rq with
  | FolderAdd rq =>
      match fa_parent_uid rq with
      | Some parent =>
          (known_folder p earlier parent UserFolderType
           /\ fa_folder_type rq <> SharedFolderFolderType)
          \/ (known_folder p earlier parent SharedFolderFolderType
              /\ fa_folder_type rq = SharedFolderFolderType)
      | None => True
      end
      /\ match fa_shared_folder_uid rq with
         | Some sf =>
             known_folder p earlier sf SharedFolderType
             /\ fa_folder_type rq = SharedFolderFolderType
         | None => True
         end
  | _ => False
  end.

(** Every request of a batch satisfies [P] against the requests before
    it. *)
Definition each_after (P : list request -> request -> Prop)
    (batch : list request) : Prop :=
  forall earlier rq later, batch = earlier ++ rq :: later -> P earlier rq.

(** The builder of [prepare_folder_add] knows the folders of its index,
    and its requests name folders that are there before them. *)
Definition parents_first (p : params) (b : builder) : Prop :=
  (forall digest uid type key,
      folder_hash b !! digest = Some (uid, type, key) ->
      known_folder p (folder_add b) uid type)
  /\ each_after (hangs p) (folder_add b).

(** The walk is at the root or at a folder the builder knows, and the
    shared folder it has passed is one. *)
Definition walk_placed (p : params) (b : builder) (w : walk) : Prop :=
  (parent_type w = RootFolderType
   \/ known_folder p (folder_add b) (parent_uid w) (parent_type w))
  /\ forall sf, parent_shared_folder_uid w = Some sf ->
                known_folder p (folder_add b) sf SharedFolderType.

(** ** Chains of parents *)

(** The folders from [uid] upwards, as the loops of [get_folder_path] and
    [get_import_folder] visit them: the chain ends at a folder without a
    parent or whose parent is not cached. *)
Inductive chain (p : params) : string -> list folder_node -> Prop :=
| chain_end (uid : string) :
    Dict.get uid (folder_cache p) = None -> chain p uid []
| chain_top (uid : string) (f : folder_node) :
    Dict.get uid (folder_cache p) = Some f ->
    truthy (fn_parent_uid f) = false ->
    chain p uid [f]
| chain_up (uid : string) (f : folder_node) (fs : list folder_node) :
    Dict.get uid (folder_cache p) = Some f ->
    truthy (fn_parent_uid f) = true ->
    chain p (or_empty (fn_parent_uid f)) fs ->
    chain p uid (f :: fs).

(** The folder has a name. *)
Definition named (f : folder_node) : Prop := fn_name f <> None.

(** The escaped names of the folders of a chain. *)
Definition escaped_names (PathDelimiter : string) (fs : list folder_node)
  : list string :=
  map (fun f => escaped PathDelimiter (default "" (fn_name f))) fs.

(** A list of names without the empty names it starts with. *)
Fixpoint skip_empty (names : list string) : list string :=
  match names with
  | [] => []
  | name :: rest => if String.eqb name "" then skip_empty rest else names
  end.

(** The path that the loops make of the names of a chain, the deepest
    folder first: the names from the root down with the delimiter between
    them, without the empty names of the deepest folders. *)
Definition path_of (PathDelimiter : string) (names : list string) : string :=
  String.concat PathDelimiter (rev (skip_empty names)).

(** A folder is a parent of another one, and an ancestor. *)
Definition parent_of (p : params) (uid parent : string) : Prop :=
  exists f, Dict.get uid (folder_cache p) = Some f
            /\ truthy (fn_parent_uid f) = true
            /\ or_empty (fn_parent_uid f) = parent.

Inductive ancestor_of (p : params) : string -> string -> Prop :=
| ancestor_parent (uid parent : string) :
    parent_of p uid parent -> ancestor_of p uid parent
| ancestor_further (uid parent above : string) :
    parent_of p uid parent -> ancestor_of p parent above ->
    ancestor_of p uid above.

(** The body of the loop of [get_import_folder] along the folders of a
    chain. *)
Fixpoint export_steps (PathDelimiter : string) (p : params)
    (record_uid : string) (fs : list folder_node) (folder : ImportFolder)
  : option ImportFolder :=
  match fs with
  | [] => Some folder
  | f :: rest =>
      match import_folder_step PathDelimiter p record_uid f folder with
      | Some folder => export_steps PathDelimiter p record_uid rest folder
      | None => None
      end
  end.

(** The folder is not a shared folder. *)
Definition unshared (f : folder_node) : Prop := fn_type f <> SharedFolderType.

(** The path of the export for names, and for the folders [fs], the
    deepest first: [None] when there is none. *)
Definition path_option (PathDelimiter : string) (names : list string)
  : option string :=
  match names with
  | [] => None
  | _ :: _ => Some (path_of PathDelimiter names)
  end.

Definition exported_path (PathDelimiter : string) (fs : list folder_node)
  : option string :=
  path_option PathDelimiter (escaped_names PathDelimiter fs).

(** A vault with the folder [Deep] in the folder [Sub] of the shared
    folder [Team], which is in the user folder [Work\2024]. *)
Definition deep_vault : params :=
  {| user := "alice@example.com";
     data_key := "master";
     folder_cache :=
       [ ("F1", FolderNode "F1" UserFolderType (Some "Work\2024") None None);
         ("SF1", FolderNode "SF1" SharedFolderType (Some "Team") (Some "F1") None);
         ("SFF1", FolderNode "SFF1" SharedFolderFolderType (Some "Sub")
                             (Some "SF1") (Some "SF1"));
         ("SFF2", FolderNode "SFF2" SharedFolderFolderType (Some "Deep")
                             (Some "SFF1") (Some "SF1"));
         ("L1", FolderNode "L1" UserFolderType (Some "Loop") (Some "L2") None);
         ("L2", FolderNode "L2" UserFolderType (Some "Pool") (Some "L1") None) ];
     shared_folder_cache := vault_shared_folders;
     record_cache := vault_records;
     team_cache := [];
     find_folders := fun _ => ["SFF2"] |}.

(** ** Shared folders from a file *)

(** The keys that [parse_sf_json] requires. *)
Definition required_keys : list string :=
  [ "default_manage_records"; "default_manage_users"; "default_can_edit";
    "default_can_share"; "name" ].

(** An answer that tells of no user and of no record. *)
Definition silent : sf_response :=
  {| rs_add_users := None; rs_add_records := None |}.

(** A shared folder of a file, with nothing but the required keys and
    the given name. *)
Definition named_shared_folder (name : string) : Dict.t string :=
  [ ("default_manage_records", "true"); ("default_manage_users", "false");
    ("default_can_edit", "true"); ("default_can_share", "false");
    ("name", name) ].

(** A service that adds the user of the shared folder [first] and tells
    nothing about any other shared folder; it counts the requests. *)
Definition first_only (st : nat) (request : string) : nat * py sf_response :=
  (S st,
   Ret (if String.eqb request "first"
        then {| rs_add_users := Some [ {| info_status := Some "success" |} ];
                rs_add_records := None |}
        else silent)).

(** A shared folder of a file whose answer tells of no user and of no
    record. *)
Definition told_nothing {json state sf_request : Type} (empty_list : json)
    (prepare_shared_folder : SharedFolderObject json -> py sf_request)
    (communicate : state -> sf_request -> state * py sf_response)
    (json_sf : Dict.t json) : Prop :=
  exists sf request,
    parse_sf_json json empty_list json_sf = Ret sf
    /\ prepare_shared_folder sf = Ret request
    /\ forall st, exists st', communicate st request = (st', Ret silent).

(** How [api.prepare_shared_folder] is taken in the scenario: the request
    is the name of the shared folder. *)
Definition request_by_name (sf : SharedFolderObject string) : py string :=
  Ret (sfo_name string sf).

(** ** Folders that an import finds again *)

(** The digest under which [folder_hash] holds a cached folder. *)
Definition cached_folder_digest (fol : folder_node) : string :=
  folder_digest (or_empty (fn_name fol)) (or_empty (fn_parent_uid fol)).

(** No two cached folders have the same digest: no folder has two
    subfolders with the same name up to the case of letters. *)
Definition distinct_folders (p : params) : Prop :=
  NoDup (map (fun e : string * folder_node => cached_folder_digest e.2)
             (folder_cache p)).

(** The chain ends in a folder of the root. *)
Definition rooted (fs : list folder_node) : Prop :=
  forall f, last fs = Some f -> truthy (fn_parent_uid f) = false.

(** The names of the folders of a chain. *)
Definition folder_names (fs : list folder_node) : list string :=
  map (fun f => default "" (fn_name f)) fs.

(** A vault with the user folder [Sites] in the user folder [Work]. *)
Definition nested_vault : params :=
  {| user := "alice@example.com";
     data_key := "master";
     folder_cache :=
       [ ("F1", FolderNode "F1" UserFolderType (Some "Work") None None);
         ("F2", FolderNode "F2" UserFolderType (Some "Sites") (Some "F1") None) ];
     shared_folder_cache := [];
     record_cache := vault_records;
     team_cache := [];
     find_folders := fun _ => ["F2"] |}.

(** * Properties *)

(** ** Test vectors of the digest and of the scenario helpers *)

Example md5_empty : MD5.hexdigest "" = "d41d8cd98f00b204e9800998ecf8427e".
Proof. vm_compute. reflexivity. Qed.

Example md5_abc : MD5.hexdigest "abc" = "900150983cd24fb0d6963f7d28e17f72".
Proof. vm_compute. reflexivity. Qed.

Example md5_fingerprint : MD5.hexdigest "site a|uid1" = "eb6924748a38ca85a56e264a4af33d8f".
Proof. vm_compute. reflexivity. Qed.

Example md5_two_blocks :
  MD5.hexdigest "yyyyyyyyyyyyyyyyyyyyyyyyyyyyyyyyyyyyyyyyyyyyyyyyyyyyyyyy"
  = "6c830a5d23df58dbe0171eb5639bf3e4".
Proof. vm_compute. reflexivity. Qed.

Example scenario_parseaddr_examples :
  map scenario_parseaddr ["bob@example.com"; "Engineering"; "(ops)"; ""]
  = ["bob@example.com"; "Engineering"; ""; ""].
Proof. reflexivity. Qed.

Example scenario_components_example :
  scenario_components "Work\Site A" "" = ["Work"; "Site A"].
Proof. reflexivity. Qed.

Example scenario_key_example :
  scenario_key 7 = "key----------------------------7"
  /\ String.length (scenario_key 7) = 32.
Proof. split; reflexivity. Qed.


(** ** The batch executor *)

Section BatchExecutorProperties.

Context {op server vault : Type}.
Variable communicate : server -> list op -> server * py batch_response.
Variable sync_down : server -> vault -> py vault.
Variable debug : bool.

Lemma chunk_bounds (queue : list op) :
  queue <> [] ->
  1 <= length (firstn chunk_size queue) <= 100.
Proof.
  intros Hq. rewrite length_firstn. unfold chunk_size.
  destruct queue as [|x queue]; [congruence|]. simpl length. lia.
Qed.

Lemma requeue_is_suffix (queue : list op) (k : nat) :
  k <= length (firstn chunk_size queue) ->
  skipn k (firstn chunk_size queue) ++ skipn chunk_size queue = skipn k queue.
Proof.
  intros Hk.
  rewrite <- (firstn_skipn chunk_size queue) at 3.
  rewrite skipn_app.
  replace (k - length (firstn chunk_size queue)) with 0 by lia.
  reflexivity.
Qed.

Lemma rest_is_suffix (queue : list op) :
  skipn chunk_size queue = skipn (length (firstn chunk_size queue)) queue.
Proof.
  rewrite length_firstn.
  destruct (Nat.le_ge_cases chunk_size (length queue)) as [Hle|Hge].
  - rewrite Nat.min_l by exact Hle. reflexivity.
  - rewrite Nat.min_r by exact Hge.
    rewrite !skipn_all2; [reflexivity|lia|exact Hge].
Qed.

(** What the [try] block leaves in [queue]: the rest, or the rest with a
    proper, non-empty-prefix-less part of the chunk in front. *)
Lemma after_response_cases (chunk queue1 : list op) (rs : batch_response) :
  match after_response debug chunk queue1 rs with
  | Ret q =>
      q = queue1 \/
      exists k, 1 <= k < length chunk /\ q = skipn k chunk ++ queue1
  | Raise _ => True
  end.
Proof.
  unfold after_response.
  destruct (rs_result rs) as [result|]; simpl; [|exact I].
  destruct (String.eqb result "success"); [|left; reflexivity].
  destruct (rs_results rs) as [results|]; [|left; reflexivity].
  destruct (Nat.ltb_spec 0 (length results)) as [Hpos|_]; [|left; reflexivity].
  destruct (debug_last debug chunk results); simpl; [|exact I].
  destruct (Nat.ltb_spec (length results) (length chunk)) as [Hlt|_].
  - right. exists (length results). split; [lia|reflexivity].
  - left. reflexivity.
Qed.

(** Every iteration sends the head of the queue and takes a non-empty
    prefix of it off the queue. *)
Lemma iteration_consumes (st : server) (queue : list op) :
  queue <> [] ->
  exists st' k,
    iteration communicate debug st queue
      = (firstn chunk_size queue, st', skipn k queue)
    /\ 1 <= k <= length (firstn chunk_size queue).
Proof.
  intros Hq. pose proof (chunk_bounds queue Hq) as Hb.
  unfold iteration.
  destruct (communicate st (firstn chunk_size queue)) as [st' reply].
  exists st'.
  destruct reply as [rs|e]; simpl.
  - pose proof (after_response_cases (firstn chunk_size queue)
                  (skipn chunk_size queue) rs) as Hc.
    destruct (after_response debug (firstn chunk_size queue)
                (skipn chunk_size queue) rs) as [q|e]; simpl.
    + destruct Hc as [->|(k & Hk & ->)].
      * exists (length (firstn chunk_size queue)).
        rewrite <- rest_is_suffix. split; [reflexivity|lia].
      * exists k. rewrite requeue_is_suffix by lia. split; [reflexivity|lia].
    + exists (length (firstn chunk_size queue)).
      rewrite <- rest_is_suffix. split; [reflexivity|lia].
  - exists (length (firstn chunk_size queue)).
    rewrite <- rest_is_suffix. split; [reflexivity|lia].
Qed.

Lemma iteration_shrinks (st : server) (queue : list op) :
  queue <> [] ->
  length (snd (iteration communicate debug st queue)) < length queue.
Proof.
  intros Hq.
  destruct (iteration_consumes st queue Hq) as (st' & k & -> & Hk).
  simpl. rewrite length_skipn.
  destruct queue; [congruence|]. simpl length in *. lia.
Qed.

(** The loop drains every queue: [length queue] iterations suffice. *)
Lemma execute_loop_total (fuel : nat) :
  forall (st : server) (queue : list op),
    length queue <= fuel ->
    exists st_end sent,
      execute_loop communicate debug fuel st queue = Some (st_end, sent).
Proof.
  induction fuel as [|fuel IH]; intros st queue Hlen.
  - destruct queue; [|simpl in Hlen; lia]. simpl. eauto.
  - destruct queue as [|x queue]; [simpl; eauto|].
    pose proof (iteration_shrinks st (x :: queue) ltac:(congruence)) as Hs.
    cbn [execute_loop].
    destruct (iteration communicate debug st (x :: queue))
      as [[chunk st'] queue'].
    simpl in Hs.
    destruct (IH st' queue') as (st_end & sent & ->); [simpl in Hlen; lia|].
    eauto.
Qed.

Lemma execute_loop_in_order (fuel : nat) :
  forall (st st_end : server) (queue : list op) (sent : list (list op)),
    execute_loop communicate debug fuel st queue = Some (st_end, sent) ->
    consumed_in_order queue sent.
Proof.
  induction fuel as [|fuel IH]; intros st st_end queue sent Hrun.
  - destruct queue; simpl in Hrun; [|discriminate].
    injection Hrun as _ <-. constructor.
  - destruct queue as [|x queue].
    { simpl in Hrun. injection Hrun as _ <-. constructor. }
    cbn [execute_loop] in Hrun.
    destruct (iteration_consumes st (x :: queue) ltac:(congruence))
      as (st' & k & Hit & Hk).
    rewrite Hit in Hrun.
    destruct (execute_loop communicate debug fuel st' (skipn k (x :: queue)))
      as [[st2 sent2]|] eqn:Hrest; [|discriminate].
    injection Hrun as _ <-.
    econstructor; [exact Hk|]. eapply IH. exact Hrest.
Qed.

End BatchExecutorProperties.

Section BatchExecutorClaims.

Context {op server vault : Type}.
Variable communicate : server -> list op -> server * py batch_response.
Variable sync_down : server -> vault -> py vault.
Variable debug : bool.

(** C1, as amended.  On a non-empty queue the executor sends the first
    [chunk_size] = 100 operations, in queue order.  When the store answers
    ['success'] with [k] results, [1 <= k < n] for a chunk of [n] operations
    (and, with [params.debug] set, the last result carries its ['result']
    entry), the [n - k] operations without a result are put back in front
    of the rest of the queue in their order.  The run ends, and over the
    whole run every chunk sent is the head of what is left of the queue,
    which only loses prefixes: the order of the queue is never changed. *)
Theorem execute_batch_requeues_in_order (st : server) (queue : list op) :
  queue <> [] ->
  let chunk := firstn chunk_size queue in
  (1 <= length chunk <= 100 /\ chunk ++ skipn chunk_size queue = queue)
  /\ (forall st' rs results,
        communicate st chunk = (st', Ret rs) ->
        rs_result rs = Some "success" ->
        rs_results rs = Some results ->
        1 <= length results < length chunk ->
        (debug = true ->
         exists res r, nth_error results (length results - 1) = Some res
                       /\ res_result res = Some r) ->
        iteration communicate debug st queue
          = (chunk, st', skipn (length results) chunk ++ skipn chunk_size queue))
  /\ (exists st_end sent,
        execute_loop communicate debug (length queue) st queue
        = Some (st_end, sent)
        /\ consumed_in_order queue sent).
Proof.
  intros Hq chunk. split; [|split].
  - split; [exact (chunk_bounds queue Hq)|apply firstn_skipn].
  - intros st' rs results Hcall Hres Hresults Hk Hdebug.
    unfold iteration. fold chunk. rewrite Hcall. simpl.
    unfold after_response. rewrite Hres, Hresults. simpl.
    destruct (Nat.ltb_spec 0 (length results)) as [_|Hno]; [|lia].
    assert (Hdbg : debug_last debug chunk results = Ret tt).
    { unfold debug_last. destruct debug; [|reflexivity].
      destruct (Hdebug eq_refl) as (res & r & Hlast & Hr).
      unfold index.
      destruct (nth_error chunk (length results - 1)) eqn:Hc.
      - simpl. rewrite Hlast. simpl. rewrite Hr. reflexivity.
      - apply nth_error_None in Hc. lia. }
    rewrite Hdbg. simpl.
    destruct (Nat.ltb_spec (length results) (length chunk)) as [_|Hno]; [|lia].
    reflexivity.
  - destruct (execute_loop_total communicate debug (length queue) st queue
                (Nat.le_refl _)) as (st_end & sent & Hrun).
    exists st_end, sent. split; [exact Hrun|].
    exact (execute_loop_in_order communicate debug _ st st_end queue sent Hrun).
Qed.

(** C7.  When the call for a chunk raises, nothing of the chunk goes back
    into the queue, the loop goes on with the operations queued behind it
    and returns; [execute_batch] then ends with [api.sync_down], the only
    call of it outside the [try]. *)
Theorem execute_batch_abandons_failed_chunk
    (st st' : server) (v : vault) (queue : list op) (e : exn) :
  queue <> [] ->
  communicate st (firstn chunk_size queue) = (st', Raise e) ->
  iteration communicate debug st queue
    = (firstn chunk_size queue, st', skipn chunk_size queue)
  /\ exists st_end sent,
       execute_loop communicate debug (length queue - 1) st'
                    (skipn chunk_size queue) = Some (st_end, sent)
       /\ execute_loop communicate debug (length queue) st queue
          = Some (st_end, firstn chunk_size queue :: sent)
       /\ execute_batch communicate sync_down debug st v queue
          = Some (py_bind (sync_down st_end v)
                          (fun v' => Ret (st_end, v', firstn chunk_size queue :: sent))).
Proof.
  intros Hq Hcall.
  assert (Hit : iteration communicate debug st queue
                = (firstn chunk_size queue, st', skipn chunk_size queue)).
  { unfold iteration. rewrite Hcall. reflexivity. }
  split; [exact Hit|].
  destruct queue as [|x queue]; [congruence|].
  replace (length (x :: queue) - 1) with (length queue) by (simpl; lia).
  destruct (execute_loop_total communicate debug (length queue) st'
              (skipn chunk_size (x :: queue))) as (st_end & sent & Hrest).
  { rewrite length_skipn. unfold chunk_size. simpl. lia. }
  exists st_end, sent. split; [exact Hrest|].
  assert (Hloop : execute_loop communicate debug (length (x :: queue)) st (x :: queue)
                  = Some (st_end, firstn chunk_size (x :: queue) :: sent)).
  { simpl length. cbn [execute_loop]. rewrite Hit, Hrest. reflexivity. }
  split; [exact Hloop|].
  unfold execute_batch. rewrite Hloop. reflexivity.
Qed.

End BatchExecutorClaims.

Lemma execute_batch_requeues_in_order_witness :
  iteration (acknowledging 2) true tt [1; 2; 3; 4; 5] = ([1; 2; 3; 4; 5], tt, [3; 4; 5])
  /\ consumed_in_order [1; 2; 3; 4; 5] [[1; 2; 3; 4; 5]; [3; 4; 5]; [5]].
Proof.
  pose proof (execute_batch_requeues_in_order (acknowledging 2) true tt
                [1; 2; 3; 4; 5] ltac:(discriminate)) as (_ & Hstep & Hrun).
  split.
  - apply (Hstep tt _ _ eq_refl eq_refl eq_refl).
    + simpl. lia.
    + intros _. eexists _, _. split; reflexivity.
  - destruct Hrun as (st_end & sent & Hsent & Horder).
    vm_compute in Hsent. injection Hsent as _ <-. exact Horder.
Defined.

Lemma execute_batch_abandons_failed_chunk_witness :
  execute_batch failing_once refreshed false 0 tt (seq 0 150)
  = Some (Ret (2, tt, [seq 0 100; seq 100 50])).
Proof.
  destruct (execute_batch_abandons_failed_chunk failing_once refreshed false
              0 1 tt (seq 0 150) (RemoteError "timeout")
              ltac:(discriminate) eq_refl)
    as (_ & st_end & sent & Hrest & _ & Hbatch).
  vm_compute in Hrest. injection Hrest as <- <-.
  rewrite Hbatch. reflexivity.
Defined.

(** C1 as stated fails for [k = 0]: a ['success'] answer with an empty
    list of results acknowledges none of the three operations of the chunk,
    and none of them is put back: the queue is empty after the iteration and
    the run sends the chunk once. *)
Lemma execute_batch_drops_unacknowledged_chunk :
  rs_results (BatchResponse (Some "success") (Some [])) = Some []
  /\ iteration (acknowledging 0) false tt [1; 2; 3] = ([1; 2; 3], tt, [])
  /\ execute_loop (acknowledging 0) false 3 tt [1; 2; 3] = Some (tt, [[1; 2; 3]]).
Proof. repeat split. Qed.

(** ** Loops that may raise *)

Lemma py_fold_app {A S : Type} (body : S -> A -> py S) (xs ys : list A) (s : S) :
  py_fold body (xs ++ ys) s = py_bind (py_fold body xs s) (py_fold body ys).
Proof.
  revert s. induction xs as [|x xs IH]; intros s; simpl; [reflexivity|].
  destruct (body s x); simpl; [apply IH|reflexivity].
Qed.

Lemma py_fold_invariant {A S : Type} (body : S -> A -> py S) (P : S -> Prop) :
  (forall s a s', P s -> body s a = Ret s' -> P s') ->
  forall xs s s', P s -> py_fold body xs s = Ret s' -> P s'.
Proof.
  intros Hstep xs. induction xs as [|x xs IH]; intros s s' Hs Hrun; simpl in Hrun.
  - injection Hrun as <-. exact Hs.
  - destruct (body s x) as [s1|e] eqn:Hb; simpl in Hrun; [|discriminate].
    eapply IH; [|exact Hrun]. eapply Hstep; eauto.
Qed.

(** ** The link relinker *)

Section LinkRelinkerProperties.

Variable p : params.

Lemma transition_key_declared (uid : string) (record : vault_record)
    (src dst : folder_node) (key : option cipher) :
  transition_key p (vr_record_key_unencrypted record) src dst = Ret key ->
  declared_transition_keys p uid record src dst
  = Some (match key with Some k => [(uid, k)] | None => [] end).
Proof.
  unfold transition_key, declared_transition_keys, owner_of, item_opt.
  destruct (is_shared_type (fn_type src)), (is_shared_type (fn_type dst)).
  - destruct (decide (shared_folder_of src <> shared_folder_of dst)) as [Hne|Heq].
    + rewrite decide_False by congruence.
      destruct (get_opt (shared_folder_of dst) (shared_folder_cache p));
        simpl; intros [= <-]; reflexivity.
    + apply dec_stable in Heq. rewrite Heq.
      rewrite decide_True by reflexivity. intros [= <-]. reflexivity.
  - rewrite decide_False by discriminate. intros [= <-]. reflexivity.
  - rewrite decide_False by discriminate.
    destruct (get_opt (shared_folder_of dst) (shared_folder_cache p));
      simpl; intros [= <-]; reflexivity.
  - rewrite decide_True by reflexivity. intros [= <-]. reflexivity.
Qed.

Lemma link_request_declared (uid : string) (record : vault_record)
    (first_folder dst_uid : string) (req : move_rq) :
  Dict.get uid (record_cache p) = Some record ->
  link_request p uid record first_folder dst_uid = Ret req ->
  links_with_declared_keys p (Move req).
Proof.
  intros Hrec. unfold link_request, Dict.item.
  destruct (Dict.get first_folder (folder_cache p)) as [src|] eqn:Hsrc;
    simpl; [|discriminate].
  destruct (Dict.get dst_uid (folder_cache p)) as [dst|] eqn:Hdst;
    simpl; [|discriminate].
  destruct (transition_key p (vr_record_key_unencrypted record) src dst)
    as [key|e] eqn:Hkey; simpl; [|discriminate].
  intros [= <-].
  eexists _, uid, record, src, dst. simpl.
  repeat split; eauto.
  apply transition_key_declared. exact Hkey.
Qed.

Lemma link_folder_declared (uid : string) (record : vault_record)
    (folder_ids : list string) (links links' : list request) (fol : ImportFolder) :
  Dict.get uid (record_cache p) = Some record ->
  Forall (links_with_declared_keys p) links ->
  link_folder p uid record folder_ids links fol = Ret links' ->
  Forall (links_with_declared_keys p) links'.
Proof.
  intros Hrec Hlinks. unfold link_folder.
  destruct (fol_uid fol) as [dst_uid|]; [|intros [= <-]; exact Hlinks].
  destruct (negb (String.eqb dst_uid "") && Dict.mem dst_uid (folder_cache p));
    [|intros [= <-]; exact Hlinks].
  destruct folder_ids as [|first_folder ids]; [intros [= <-]; exact Hlinks|].
  destruct (bool_decide (dst_uid ∈ first_folder :: ids));
    [intros [= <-]; exact Hlinks|].
  destruct (link_request p uid record first_folder dst_uid) as [req|e] eqn:Hreq;
    simpl; [|discriminate].
  intros [= <-]. apply Forall_app. split; [exact Hlinks|].
  constructor; [|constructor].
  eapply link_request_declared; eauto.
Qed.

Lemma link_record_declared (links links' : list request) (rec : ImportRecord) :
  Forall (links_with_declared_keys p) links ->
  link_record p links rec = Ret links' ->
  Forall (links_with_declared_keys p) links'.
Proof.
  intros Hlinks. unfold link_record.
  destruct (rec_folders rec) as [[|fol folders]|];
    try (intros [= <-]; exact Hlinks).
  destruct (rec_uid rec) as [uid|]; [|intros [= <-]; exact Hlinks].
  destruct (String.eqb uid ""); [intros [= <-]; exact Hlinks|].
  destruct (Dict.get uid (record_cache p)) as [record|] eqn:Hrec;
    [|intros [= <-]; exact Hlinks].
  apply (py_fold_invariant _ (Forall (links_with_declared_keys p))); [|exact Hlinks].
  intros s a s' Hs Hstep. eapply link_folder_declared; eauto.
Qed.

(** C9.  Every request of [prepare_record_link] links one record from the
    first folder that holds it to a declared folder, and its transition
    keys are the declared ones: the record key under the key of the
    destination's shared folder when the two folders belong to different
    shared folders or only the destination is shared, under the vault master
    key when only the source is shared, and none when both have the same
    owning key. *)
Theorem prepare_record_link_transition_keys
    (records : list ImportRecord) (links : list request) :
  prepare_record_link p records = Ret links ->
  Forall (links_with_declared_keys p) links.
Proof.
  unfold prepare_record_link.
  apply (py_fold_invariant _ (Forall (links_with_declared_keys p))); [|constructor].
  intros s a s' Hs Hstep. eapply link_record_declared; eauto.
Qed.

End LinkRelinkerProperties.

Lemma prepare_record_link_transition_keys_witness :
  exists links,
    prepare_record_link (vault (fun _ => ["SFF1"])) [relinked_record] = Ret links
    /\ map (fun rq => match rq with
                      | Move req => mv_transition_keys req
                      | _ => []
                      end) links
       = [ []; [("R1", EncryptAes (PBytes "rk1") "sfkey2")];
           [("R1", EncryptAes (PBytes "rk1") "master")] ]
    /\ Forall (links_with_declared_keys (vault (fun _ => ["SFF1"]))) links.
Proof.
  eexists. split; [vm_compute; reflexivity|]. split; [reflexivity|].
  apply (prepare_record_link_transition_keys
           (vault (fun _ => ["SFF1"])) [relinked_record]).
  vm_compute. reflexivity.
Defined.

(** ** The record upserter *)

Section RecordUpserterProperties.

Context {ext : Externals}.
Variable p : params.

Lemma get_opt_some {V : Type} (k : option string) (d : Dict.t V) (v : V) :
  get_opt k d = Some v -> exists k', k = Some k' /\ Dict.get k' d = Some v.
Proof. destruct k as [k'|]; simpl; [eauto|discriminate]. Qed.

Lemma new_record_keys (rec : ImportRecord) (d : draws) (req : record_add_rq) :
  new_record p rec d = Ret req ->
  carries_master_wrapped_key p (RecordAdd req).
Proof.
  unfold new_record, item_opt. intros Hnew.
  exists req, (urandom (key_draws d)).
  destruct (truthy (primary_folder_uid rec)).
  2:{ injection Hnew as <-. simpl. repeat split; try reflexivity; try discriminate. }
  destruct (get_opt (primary_folder_uid rec) (folder_cache p)) as [folder|].
  2:{ injection Hnew as <-. simpl. repeat split; try reflexivity; try discriminate. }
  destruct (is_shared_type (fn_type folder)) eqn:Hshared.
  - set (sh_uid := if decide (fn_type folder = SharedFolderType)
                   then Some (fn_uid folder) else fn_shared_folder_uid folder) in *.
    destruct (get_opt sh_uid (shared_folder_cache p)) as [sf|] eqn:Hsf;
      simpl in Hnew; [|discriminate].
    injection Hnew as <-. simpl.
    destruct (get_opt_some _ _ _ Hsf) as (k' & _ & Hget).
    repeat split.
    + intros _. exists k', sf. split; [exact Hget|reflexivity].
    + destruct (decide (fn_type folder = SharedFolderType)); discriminate.
  - injection Hnew as <-. simpl. repeat split; try reflexivity; try discriminate.
Qed.

Lemma upsert_records_keys (record_hash : gmap string string)
    (records : list ImportRecord) :
  forall (d d' : draws) (adds : list request) (records' : list ImportRecord),
    upsert_records p record_hash d records = Ret (adds, records', d') ->
    Forall (carries_master_wrapped_key p) adds.
Proof.
  induction records as [|rec rest IH]; intros d d' adds records' Hrun;
    simpl in Hrun.
  - injection Hrun as <- _ _. constructor.
  - destruct (record_hash !! _) as [record_uid|].
    + destruct (upsert_records p record_hash d rest) as [[[adds1 rest1] d1]|e]
        eqn:Hrest; simpl in Hrun; [|discriminate].
      injection Hrun as <- _ _. eapply IH. exact Hrest.
    + destruct (new_record p rec d) as [req|e] eqn:Hnew;
        simpl in Hrun; [|discriminate].
      destruct (upsert_records p record_hash _ rest) as [[[adds1 rest1] d1]|e]
        eqn:Hrest; simpl in Hrun; [|discriminate].
      injection Hrun as <- _ _. constructor.
      * eapply new_record_keys. exact Hnew.
      * eapply IH. exact Hrest.
Qed.

(** C10.  Every request of [prepare_record_add] carries the record key
    encrypted under the vault master key ([params.data_key]); a request
    whose folder type is [shared_folder] or [shared_folder_folder] carries
    in addition, as [folder_key], the same record key encrypted under the
    key of the shared folder. *)
Theorem prepare_record_add_keeps_master_wrapped_key
    (d d' : draws) (records records' : list ImportRecord) (adds : list request) :
  prepare_record_add p d records = Ret (adds, records', d') ->
  Forall (carries_master_wrapped_key p) adds.
Proof. apply upsert_records_keys. Qed.

End RecordUpserterProperties.

Lemma prepare_record_add_keeps_master_wrapped_key_witness :
  exists adds records' d',
    prepare_record_add (ext := scenario []) (vault (fun _ => [])) no_draws
                       new_records
    = Ret (adds, records', d')
    /\ map (fun rq => match rq with
                      | RecordAdd req => (ra_record_key req, ra_folder_key req)
                      | _ => (EncryptAes (PBytes "") "", None)
                      end) adds
       = [ (EncryptAes (PBytes (scenario_key 0)) "master",
            Some (EncryptAes (PBytes (scenario_key 0)) "sfkey1"));
           (EncryptAes (PBytes (scenario_key 1)) "master", None) ]
    /\ Forall (carries_master_wrapped_key (vault (fun _ => []))) adds.
Proof.
  eexists _, _, _. split; [vm_compute; reflexivity|]. split; [reflexivity|].
  eapply (prepare_record_add_keeps_master_wrapped_key (ext := scenario [])
            (vault (fun _ => [])) no_draws _ new_records).
  vm_compute. reflexivity.
Defined.

(** ** The folder tree builder: nodes it creates *)

Section CreatedFolders.

Context {ext : Externals}.
Variable p : params.

(** C8, as amended.  A component that the index does not know becomes one
    [folder_add] request.  Its type is [shared_folder_folder] exactly when
    the parent is a shared folder or a folder of one; otherwise it is
    [shared_folder] exactly when the component is the last one of
    [fol.domain], and [user_folder] in the remaining case.  Whatever the
    type, the node gets a key of its own from [os.urandom], under which its
    data is encrypted, and the next node gets the next key drawn; that key
    is encrypted under the key of the owning shared folder for a
    [shared_folder_folder] whose shared folder and key are known, and under
    the vault master key in every other case. *)
Theorem created_folder_tier_and_key
    (is_domain is_last : bool) (comp : string) (b : builder) (w : walk) :
  folder_hash b !! folder_digest comp (parent_uid w) = None ->
  exists rq,
    folder_add (fst (folder_component p is_domain (b, w) (is_last, comp)))
    = folder_add b ++ [FolderAdd rq]
    /\ (fa_folder_type rq = SharedFolderFolderType
        <-> is_shared_type (parent_type w) = true)
    /\ (fa_folder_type rq = SharedFolderType
        <-> is_shared_type (parent_type w) = false
            /\ is_domain = true /\ is_last = true)
    /\ (fa_folder_type rq = UserFolderType
        <-> is_shared_type (parent_type w) = false
            /\ (is_domain = false \/ is_last = false))
    /\ fa_data rq = EncryptAes (PFolderData comp) (urandom (key_draws (drawn b)))
    /\ fa_key rq
       = EncryptAes (PBytes (urandom (key_draws (drawn b))))
           (if is_shared_type (parent_type w)
               && truthy (parent_shared_folder_uid w)
               && truthy (parent_shared_folder_key w)
            then or_empty (parent_shared_folder_key w)
            else data_key p)
    /\ key_draws (drawn (fst (folder_component p is_domain (b, w) (is_last, comp))))
       = S (key_draws (drawn b)).
Proof.
  intros Hmiss. unfold folder_component. rewrite Hmiss.
  unfold new_folder. simpl. eexists. split; [reflexivity|]. simpl.
  destruct (parent_type w), is_domain, is_last; simpl;
    repeat split; try reflexivity; try discriminate; try tauto;
    intros; intuition discriminate.
Qed.

End CreatedFolders.

Lemma created_folder_tier_and_key_witness :
  exists rq,
    folder_add (fst (folder_component (ext := scenario []) empty_vault true
                       ({| folder_hash := ∅; folder_add := []; drawn := no_draws |},
                        start) (true, "Team")))
    = [FolderAdd rq]
    /\ fa_folder_type rq = SharedFolderType
    /\ fa_key rq = EncryptAes (PBytes (scenario_key 0)) "master".
Proof.
  destruct (created_folder_tier_and_key (ext := scenario []) empty_vault
              true true "Team"
              {| folder_hash := ∅; folder_add := []; drawn := no_draws |}
              start) as (rq & Hadd & _ & Hshared & _ & _ & Hkey & _).
  { apply lookup_empty. }
  exists rq. split; [exact Hadd|]. split.
  - apply Hshared. repeat split.
  - exact Hkey.
Defined.

(** C8 as stated fails on a record placed under [fol.domain = 'Team\Inner']
    in a vault where [Team] is a shared folder: [Inner] is the declared
    ownership boundary and is created as a [shared_folder_folder], and this
    node of the [SharedSub] tier has a key of its own, the first key drawn,
    sent under the key of [Team]. *)
Lemma boundary_under_shared_folder_is_shared_folder_folder :
  prepare_folder_add (ext := scenario []) (vault (fun _ => [])) no_draws
    [ site_record None [in_folder None (Some "Team\Inner") None] ]
  = ( [ FolderAdd
          {| fa_folder_uid := "uid0";
             fa_folder_type := SharedFolderFolderType;
             fa_key := EncryptAes (PBytes (scenario_key 0)) "sfkey1";
             fa_parent_uid := None;
             fa_shared_folder_uid := Some "SF1";
             fa_name := None;
             fa_data := EncryptAes (PFolderData "Inner") (scenario_key 0) |} ],
      [ site_record None [in_folder (Some "uid0") (Some "Team\Inner") None] ],
      {| uid_draws := 1; key_draws := 1 |} ).
Proof. vm_compute. reflexivity. Qed.

(** ** Folders found with another type *)

Section TierConflicts.

Context {ext : Externals}.
Variable p : params.

Lemma shared_path_app (xs ys : list (bool * string)) :
  forall (b : builder) (w : sf_walk),
    shared_path p b w (xs ++ ys)
    = let '(b1, w1, skip_folder) := shared_path p b w xs in
      if skip_folder then (b1, w1, true) else shared_path p b1 w1 ys.
Proof.
  induction xs as [|[is_last comp] xs IH]; intros b w; simpl; [reflexivity|].
  destruct (folder_hash b !! folder_digest comp (sfw_parent_uid w))
    as [[[uid type] key]|].
  - destruct (if is_last then _ else _); [reflexivity|apply IH].
  - apply IH.
Qed.

(** C3, as amended.  Along the path of an imported shared folder
    ([prepare_shared_folder_add]) a component found in the index with
    another type than the one required there ends the walk: the builder is
    left as it was on reaching the component, so no [folder_add] is made for
    that component or a later one, the entry of the index keeps its type, no
    [shared_folder_update] is made for the folder and nothing is raised.
    Along the folders of a record ([prepare_folder_add]) a component found
    in the index is taken with the type stored there, whatever its
    position, and the walk goes on below it. *)
Theorem tier_conflict_skips_shared_folder_only :
  (forall (emails : Dict.t (option string)) (b b1 : builder)
          (fol : ImportSharedFolder) (before after : list (bool * string))
          (is_last : bool) (comp : string) (w1 : sf_walk)
          (uid : string) (type : folder_type) (key : option string),
      indexed_components (path_components (isf_path fol))
      = before ++ (is_last, comp) :: after ->
      shared_path p b sf_start before = (b1, w1, false) ->
      folder_hash b1 !! folder_digest comp (sfw_parent_uid w1)
      = Some (uid, type, key) ->
      type <> required_type is_last ->
      add_shared_folder p emails b fol = Ret b1)
  /\ (forall (is_domain is_last : bool) (comp : string) (b : builder) (w : walk)
             (uid : string) (type : folder_type) (key : option string),
        folder_hash b !! folder_digest comp (parent_uid w) = Some (uid, type, key) ->
        folder_component p is_domain (b, w) (is_last, comp)
        = (b, enter_shared_folder
                {| parent_uid := uid;
                   parent_shared_folder_uid := parent_shared_folder_uid w;
                   parent_shared_folder_key := key;
                   parent_type := type |})).
Proof.
  split.
  - intros emails b b1 fol before after is_last comp w1 uid type key
           Hpath Hbefore Hfound Hconflict.
    unfold add_shared_folder. rewrite Hpath, shared_path_app, Hbefore.
    simpl. rewrite Hfound.
    assert (Hskip : (if is_last
                     then negb (bool_decide (type = SharedFolderType))
                     else negb (bool_decide (type = UserFolderType))) = true).
    { unfold required_type in Hconflict.
      destruct is_last; rewrite bool_decide_false by exact Hconflict;
        reflexivity. }
    rewrite Hskip. reflexivity.
  - intros is_domain is_last comp b w uid type key Hfound.
    unfold folder_component. rewrite Hfound. reflexivity.
Qed.

End TierConflicts.

Lemma tier_conflict_skips_shared_folder_only_witness :
  add_shared_folder (ext := scenario []) (vault (fun _ => [])) []
    (scenario_builder (vault (fun _ => []))) (shared_folder_at "Work" [])
  = Ret (scenario_builder (vault (fun _ => [])))
  /\ folder_component (ext := scenario []) (vault (fun _ => [])) true
       (scenario_builder (vault (fun _ => [])), start) (true, "Work")
     = (scenario_builder (vault (fun _ => [])),
        {| parent_uid := "F1";
           parent_shared_folder_uid := None;
           parent_shared_folder_key := None;
           parent_type := UserFolderType |}).
Proof.
  destruct (tier_conflict_skips_shared_folder_only (ext := scenario [])
              (vault (fun _ => []))) as [Hshared Hrecord].
  split.
  - apply (Hshared [] _ _ (shared_folder_at "Work" []) [] [] true "Work"
             sf_start "F1" UserFolderType None).
    + reflexivity.
    + reflexivity.
    + vm_compute. reflexivity.
    + discriminate.
  - apply (Hrecord true true "Work" _ start "F1" UserFolderType None).
    vm_compute. reflexivity.
Defined.

(** C3 as stated fails on a record placed under [fol.domain = 'Work'],
    [fol.path = 'Sub'] in a vault where [Work] is a user folder: the
    ownership boundary [Work] matches a node that is not a shared folder,
    and the placement goes on: a [folder_add] is made for [Sub] below
    [Work] and [fol.uid] becomes the new folder, into which the record is
    then put. *)
Lemma record_folder_placed_below_conflicting_node :
  Dict.get "F1" (folder_cache (vault (fun _ => [])))
  = Some (FolderNode "F1" UserFolderType (Some "Work") None None)
  /\ prepare_folder_add (ext := scenario []) (vault (fun _ => [])) no_draws
       [ site_record None [in_folder None (Some "Work") (Some "Sub")] ]
     = ( [ FolderAdd
             {| fa_folder_uid := "uid0";
                fa_folder_type := UserFolderType;
                fa_key := EncryptAes (PBytes (scenario_key 0)) "master";
                fa_parent_uid := Some "F1";
                fa_shared_folder_uid := None;
                fa_name := None;
                fa_data := EncryptAes (PFolderData "Sub") (scenario_key 0) |} ],
         [ site_record None [in_folder (Some "uid0") (Some "Work") (Some "Sub")] ],
         {| uid_draws := 1; key_draws := 1 |} ).
Proof. split; vm_compute; reflexivity. Qed.

(** ** Permissions against the live ACL *)

Section AclUpdates.

Context {ext : Externals}.
Variable p : params.

Lemma folder_permission_live (uid : string) (fol : ImportFolder) :
  folder_permission p uid fol
  = match live_entry p uid fol with
    | Some (sf_uid, sfr) =>
        if negb (bool_decide (Some (sfr_can_share sfr) = fol_can_share fol))
           || negb (bool_decide (Some (sfr_can_edit sfr) = fol_can_edit fol))
        then [record_update uid sf_uid fol] else []
    | None => []
    end.
Proof.
  unfold folder_permission, live_entry, record_permission, record_update.
  destruct (truthy (fol_uid fol)); [|reflexivity].
  destruct (get_opt (fol_uid fol) (folder_cache p)) as [folder|]; [|reflexivity].
  destruct (is_shared_type (fn_type folder)); [|reflexivity].
  destruct (if decide (fn_type folder = SharedFolderFolderType)
            then fn_shared_folder_uid folder else Some (fn_uid folder))
    as [sf_uid|]; [|reflexivity].
  simpl.
  destruct (Dict.get sf_uid (shared_folder_cache p)) as [sf|]; [|reflexivity].
  destruct (sf_records sf) as [records|]; [|reflexivity].
  destruct (List.find _ records) as [sfr|]; reflexivity.
Qed.

Lemma prepare_record_permission_in (records : list ImportRecord) (rq : request) :
  In rq (prepare_record_permission p records) ->
  exists rec uid fol,
    In rec records /\ rec_uid rec = Some uid
    /\ In fol (default [] (rec_folders rec))
    /\ In rq (folder_permission p uid fol).
Proof.
  unfold prepare_record_permission. rewrite in_concat.
  intros (rqs & Hin & Hrq). apply in_map_iff in Hin as (rec & <- & Hrec).
  unfold record_permissions in Hrq.
  destruct (rec_folders rec) as [[|fol folders]|] eqn:Hfolders;
    try (destruct Hrq; fail).
  destruct (rec_uid rec) as [uid|] eqn:Huid; [|destruct Hrq].
  destruct (negb (String.eqb uid "") && Dict.mem uid (record_cache p));
    [|destruct Hrq].
  apply in_concat in Hrq as (rqs & Hin & Hrq).
  apply in_map_iff in Hin as (fol' & <- & Hfol).
  exists rec, uid, fol'. rewrite Hfolders. auto.
Qed.

(** C4, as amended.  [prepare_record_permission] makes no request for a
    declared folder whose [(can_share, can_edit)] equals the live entry of
    the record, and each of its requests is for a record with a live entry
    that differs from what is declared; a record without a live entry gets
    none.  [prepare_shared_folder_add] does not look at the live ACL: a
    shared folder of the import whose path ends, without a type conflict,
    in a shared folder gets its [shared_folder_update] whenever the loop
    over its permissions returns. *)
Theorem acl_update_only_for_record_entries_that_differ :
  (forall (uid sf_uid : string) (fol : ImportFolder) (sfr : sf_record),
      live_entry p uid fol = Some (sf_uid, sfr) ->
      fol_can_share fol = Some (sfr_can_share sfr) ->
      fol_can_edit fol = Some (sfr_can_edit sfr) ->
      folder_permission p uid fol = [])
  /\ (forall (records : list ImportRecord) (rq : request),
        In rq (prepare_record_permission p records) ->
        exists rec uid fol sf_uid sfr,
          In rec records /\ rec_uid rec = Some uid
          /\ In fol (default [] (rec_folders rec))
          /\ live_entry p uid fol = Some (sf_uid, sfr)
          /\ (fol_can_share fol <> Some (sfr_can_share sfr)
              \/ fol_can_edit fol <> Some (sfr_can_edit sfr))
          /\ rq = record_update uid sf_uid fol)
  /\ (forall (emails : Dict.t (option string)) (b b' : builder)
             (fol : ImportSharedFolder) (w : sf_walk)
             (request : shared_folder_update_rq),
        shared_path p b sf_start
          (indexed_components (path_components (isf_path fol))) = (b', w, false) ->
        sfw_parent_type w = Some SharedFolderType ->
        py_fold (add_permission p emails (sfw_parent_key w))
                (default [] (isf_permissions fol))
                {| su_shared_folder_uid := sfw_parent_uid w;
                   su_defaults :=
                     Some {| fd_manage_users := isf_manage_users fol;
                             fd_manage_records := isf_manage_records fol;
                             fd_can_edit := isf_can_edit fol;
                             fd_can_share := isf_can_share fol |};
                   su_add_teams := None;
                   su_add_users := None;
                   su_update_records := None |} = Ret request ->
        exists b'',
          add_shared_folder p emails b fol = Ret b''
          /\ folder_add b'' = folder_add b' ++ [SharedFolderUpdate request]).
Proof.
  split; [|split].
  - intros uid sf_uid fol sfr Hlive Hshare Hedit.
    rewrite folder_permission_live, Hlive, Hshare, Hedit.
    rewrite !bool_decide_true by reflexivity. reflexivity.
  - intros records rq Hin.
    apply prepare_record_permission_in in Hin
      as (rec & uid & fol & Hrec & Huid & Hfol & Hrq).
    rewrite folder_permission_live in Hrq.
    destruct (live_entry p uid fol) as [[sf_uid sfr]|] eqn:Hlive; [|destruct Hrq].
    exists rec, uid, fol, sf_uid, sfr.
    destruct (bool_decide_reflect (Some (sfr_can_share sfr) = fol_can_share fol))
      as [Hs|Hs];
      destruct (bool_decide_reflect (Some (sfr_can_edit sfr) = fol_can_edit fol))
        as [He|He]; simpl in Hrq; try (destruct Hrq; fail);
      destruct Hrq as [<-|[]];
      repeat split; auto; (left; congruence) || (right; congruence).
  - intros emails b b' fol w request Hpath Htype Hloop.
    unfold add_shared_folder. rewrite Hpath, Htype.
    rewrite bool_decide_true by reflexivity. simpl.
    rewrite Hloop. simpl. eexists. split; reflexivity.
Qed.

End AclUpdates.

Lemma acl_update_only_for_record_entries_that_differ_witness :
  folder_permission (vault (fun _ => [])) "R1"
    {| fol_uid := Some "SF1"; fol_domain := Some "Team"; fol_path := None;
       fol_can_edit := Some true; fol_can_share := Some false |} = []
  /\ (exists sfr,
        live_entry (vault (fun _ => [])) "R1"
          {| fol_uid := Some "SF1"; fol_domain := Some "Team"; fol_path := None;
             fol_can_edit := Some true; fol_can_share := Some true |}
        = Some ("SF1", sfr)
        /\ sfr_can_share sfr = false)
  /\ (exists b'' request,
        add_shared_folder (ext := scenario directory) (vault (fun _ => []))
          [("bob@example.com", Some "pkbob")]
          (scenario_builder (vault (fun _ => [])))
          (shared_folder_at "Team" [grantee "bob@example.com"]) = Ret b''
        /\ folder_add b'' = [SharedFolderUpdate request]).
Proof.
  destruct (acl_update_only_for_record_entries_that_differ
              (ext := scenario directory) (vault (fun _ => [])))
    as (Hsame & Hdiffers & Hfolder).
  split; [|split].
  - apply (Hsame "R1" "SF1" _ (SfRecord "R1" false true)); reflexivity.
  - destruct (Hdiffers [shared_record (Some true) (Some true)]
                (record_update "R1" "SF1"
                   {| fol_uid := Some "SF1"; fol_domain := Some "Team";
                      fol_path := None; fol_can_edit := Some true;
                      fol_can_share := Some true |}))
      as (rec & uid & fol & sf_uid & sfr & Hrec & Huid & Hfol & Hlive & _ & _).
    { left. reflexivity. }
    destruct Hrec as [<-|[]]. injection Huid as <-.
    destruct Hfol as [<-|[]].
    exists sfr. split.
    + rewrite Hlive. vm_compute in Hlive. injection Hlive as <- _. reflexivity.
    + vm_compute in Hlive. injection Hlive as _ <-. reflexivity.
  - destruct (Hfolder [("bob@example.com", Some "pkbob")]
                (scenario_builder (vault (fun _ => [])))
                (scenario_builder (vault (fun _ => [])))
                (shared_folder_at "Team" [grantee "bob@example.com"])
                {| sfw_parent_uid := "SF1";
                   sfw_parent_type := Some SharedFolderType;
                   sfw_parent_key := Some "sfkey1" |}
                _ ltac:(vm_compute; reflexivity) eq_refl
                ltac:(vm_compute; reflexivity))
      as (b'' & Hrun & Hadd).
    eexists b'', _. split; [exact Hrun|exact Hadd].
Defined.

(** C4 as stated fails on an imported shared folder [Team] that declares
    [bob@example.com] with the permissions he already has in the live
    shared folder: nothing is new and nothing differs, and [Team] still gets
    a [shared_folder_update] that adds him. *)
Lemma shared_folder_update_without_a_difference :
  Dict.get "SF1" (shared_folder_cache (vault (fun _ => [])))
  = Some (SharedFolder "sfkey1" None
            (Some [SfRecord "R1" false true]) (Some [SfTeam "T1" true])
            (Some [SfUser "bob@example.com" false true]))
  /\ grantee "bob@example.com"
     = Permission None "bob@example.com" (Some false) (Some true)
  /\ prepare_shared_folder_add (ext := scenario directory) (vault (fun _ => []))
       no_draws [shared_folder_at "Team" [grantee "bob@example.com"]]
     = Ret ( [ SharedFolderUpdate
                 {| su_shared_folder_uid := "SF1";
                    su_defaults :=
                      Some {| fd_manage_users := Some false;
                              fd_manage_records := Some true;
                              fd_can_edit := Some true;
                              fd_can_share := Some false |};
                    su_add_teams := None;
                    su_add_users :=
                      Some [ {| ug_username := "bob@example.com";
                                ug_manage_users := Some false;
                                ug_manage_records := Some true;
                                ug_shared_folder_key :=
                                  EncryptRsa (PBytes "sfkey1") "pkbob" |} ];
                    su_update_records := None |} ],
             no_draws ).
Proof. repeat split; vm_compute; reflexivity. Qed.

(** ** Grantees *)

Section Grantees.

Context {ext : Externals}.
Variable p : params.

(** C5, as amended.  A permission whose [uid] is set, while teams are
    cached, is a team grantee exactly when that uid is a cached team, and
    its name plays no part.  Otherwise the name is parsed as an address
    first: a name that parses is a user grantee and no team name is compared
    with it; only a name that does not parse is taken for a team, and such a
    permission never adds a user. *)
Theorem grantee_is_parsed_as_address_first (perm : ImportPermission) :
  (truthy (perm_uid perm) = true -> team_cache p <> [] ->
   resolve_grantee p perm
   = Ret (match get_opt (perm_uid perm) (team_cache p) with
          | Some _ => true
          | None => false
          end, perm_uid perm))
  /\ (truthy (perm_uid perm) = false \/ team_cache p = [] ->
      parseaddr (perm_name perm) <> "" ->
      forall emails parent_key request,
        add_permission p emails parent_key request perm
        = add_user p emails parent_key perm request)
  /\ (truthy (perm_uid perm) = false \/ team_cache p = [] ->
      parseaddr (perm_name perm) = "" ->
      forall emails parent_key request request',
        add_permission p emails parent_key request perm = Ret request' ->
        su_add_users request' = su_add_users request).
Proof.
  assert (Hguard : truthy (perm_uid perm) = false \/ team_cache p = [] ->
                   truthy (perm_uid perm)
                   && negb (bool_decide (team_cache p = [])) = false).
  { intros [->| ->]; [reflexivity|].
    rewrite bool_decide_true by reflexivity. apply andb_false_r. }
  split; [|split].
  - intros Huid Hteams. unfold resolve_grantee.
    rewrite Huid, bool_decide_false by exact Hteams. reflexivity.
  - intros Hno Hmail emails parent_key request.
    unfold add_permission, resolve_grantee. rewrite (Hguard Hno).
    apply String.eqb_neq in Hmail. rewrite Hmail. reflexivity.
  - intros Hno Hmail emails parent_key request request'.
    unfold add_permission, resolve_grantee. rewrite (Hguard Hno), Hmail.
    simpl. unfold team_by_name.
    destruct (Dict.keys (team_cache p)); simpl; [|discriminate].
    intros [= <-]. reflexivity.
Qed.

Lemma add_permission_with_users (emails : Dict.t (option string))
    (parent_key : option string) (request : shared_folder_update_rq)
    (perm : ImportPermission) :
  add_permission p emails parent_key (with_users request) perm
  = py_bind (add_permission p emails parent_key request perm)
            (fun r => Ret (with_users r)).
Proof.
  unfold add_permission.
  destruct (resolve_grantee p perm) as [[is_team uid]|e]; simpl; [|reflexivity].
  destruct is_team.
  - unfold add_team. destruct (truthy uid); [|reflexivity].
    destruct (get_opt uid (team_cache p)) as [t|]; [|reflexivity].
    destruct (wrap_aes parent_key (team_key t)); reflexivity.
  - unfold add_user.
    destruct (String.eqb (lower (perm_name perm)) (lower (user p))).
    + destruct (wrap_aes parent_key (data_key p)); reflexivity.
    + destruct (Dict.get (lower (perm_name perm)) emails) as [public_key|];
        [|reflexivity].
      destruct (truthy public_key); [|reflexivity].
      destruct (import_key (or_empty public_key)); simpl; [|reflexivity].
      destruct (wrap_rsa parent_key a); reflexivity.
Qed.

Lemma py_fold_with_users (emails : Dict.t (option string))
    (parent_key : option string) (perms : list ImportPermission) :
  forall request,
    py_fold (add_permission p emails parent_key) perms (with_users request)
    = py_bind (py_fold (add_permission p emails parent_key) perms request)
              (fun r => Ret (with_users r)).
Proof.
  induction perms as [|perm perms IH]; intros request; simpl; [reflexivity|].
  rewrite add_permission_with_users.
  destruct (add_permission p emails parent_key request perm); simpl;
    [apply IH|reflexivity].
Qed.

(** C6.  A user grantee other than the operator for whom the directory
    gave no usable public key adds nothing but the (possibly empty) list
    ['add_users']: the loop over the permissions of the folder returns, or
    raises, as it does without that permission, with the same grants for
    the other permissions, so the [shared_folder_update] of the folder is
    made as without it. *)
Theorem unresolved_key_drops_only_that_grant
    (emails : Dict.t (option string)) (perm : ImportPermission)
    (uid : option string) :
  resolve_grantee p perm = Ret (false, uid) ->
  lower (perm_name perm) <> lower (user p) ->
  key_unavailable emails perm ->
  (forall parent_key request,
      add_permission p emails parent_key request perm = Ret (with_users request))
  /\ (forall parent_key before after request,
        py_fold (add_permission p emails parent_key)
                (before ++ perm :: after) request
        = py_bind (py_fold (add_permission p emails parent_key)
                           (before ++ after) request)
                  (fun r => Ret (with_users r))).
Proof.
  intros Huser Hother Hkey.
  assert (Hone : forall parent_key request,
             add_permission p emails parent_key request perm
             = Ret (with_users request)).
  { intros parent_key request. unfold add_permission. rewrite Huser. simpl.
    unfold add_user. apply String.eqb_neq in Hother. rewrite Hother.
    unfold key_unavailable in Hkey.
    destruct (Dict.get (lower (perm_name perm)) emails) as [[key|]|];
      try reflexivity.
    simpl. destruct (String.eqb_spec key "") as [->|Hne]; [reflexivity|].
    simpl. destruct Hkey as [->|[e He]]; [congruence|].
    rewrite He. reflexivity. }
  split; [exact Hone|].
  intros parent_key before after request.
  rewrite !py_fold_app. simpl.
  destruct (py_fold (add_permission p emails parent_key) before request)
    as [r1|e]; simpl; [|reflexivity].
  rewrite Hone. simpl. apply py_fold_with_users.
Qed.

End Grantees.

Lemma grantee_is_parsed_as_address_first_witness :
  resolve_grantee (ext := scenario directory) (vault (fun _ => []))
    (Permission (Some "T1") "bob@example.com" None None)
  = Ret (true, Some "T1")
  /\ add_permission (ext := scenario directory) (vault (fun _ => []))
       looked_up (Some "sfkey1") team_update (grantee "bob@example.com")
     = add_user (ext := scenario directory) (vault (fun _ => []))
         looked_up (Some "sfkey1") (grantee "bob@example.com") team_update
  /\ su_add_users team_update = su_add_users team_update.
Proof.
  split; [|split].
  - apply (grantee_is_parsed_as_address_first (ext := scenario directory)
             (vault (fun _ => []))
             (Permission (Some "T1") "bob@example.com" None None));
      [reflexivity|discriminate].
  - apply (grantee_is_parsed_as_address_first (ext := scenario directory)
             (vault (fun _ => [])) (grantee "bob@example.com"));
      [left; reflexivity|discriminate].
  - apply (proj2 (proj2 (grantee_is_parsed_as_address_first
                           (ext := scenario directory) empty_vault
                           (grantee "(ops)")))
             (or_introl eq_refl) eq_refl looked_up (Some "sfkey1")
             team_update team_update).
    reflexivity.
Defined.

(** C5 as stated fails on a grantee named [ops@corp.com] when the team
    directory has the team [Ops@corp.com]: the names are equal but for their
    case, yet no team name is compared; the name parses as an address, so
    the grantee is added as a user and not as the team. *)
Lemma address_like_team_name_is_a_user :
  Dict.get "T2" (team_cache vault_with_mail_team) = Some (Team "Ops@corp.com" "tk2")
  /\ lower "Ops@corp.com" = lower "ops@corp.com"
  /\ prepare_shared_folder_add (ext := scenario [("ops@corp.com", "pkops")])
       vault_with_mail_team no_draws
       [shared_folder_at "Team" [grantee "ops@corp.com"]]
     = Ret ( [ SharedFolderUpdate
                 {| su_shared_folder_uid := "SF1";
                    su_defaults :=
                      Some {| fd_manage_users := Some false;
                              fd_manage_records := Some true;
                              fd_can_edit := Some true;
                              fd_can_share := Some false |};
                    su_add_teams := None;
                    su_add_users :=
                      Some [ {| ug_username := "ops@corp.com";
                                ug_manage_users := Some false;
                                ug_manage_records := Some true;
                                ug_shared_folder_key :=
                                  EncryptRsa (PBytes "sfkey1") "pkops" |} ];
                    su_update_records := None |} ],
             no_draws ).
Proof. repeat split; vm_compute; reflexivity. Qed.

(** The loop of lines 297-300 does not reach a team: with a team cached, a
    grantee whose name does not parse as an address makes
    [prepare_shared_folder_add] raise, whatever the name of the team. *)
Remark team_name_lookup_raises :
  prepare_shared_folder_add (ext := scenario directory) (vault (fun _ => []))
    no_draws [shared_folder_at "Team" [grantee "(ops)"]]
  = Raise (TypeError "string indices must be integers").
Proof. vm_compute. reflexivity. Qed.

Lemma unresolved_key_drops_only_that_grant_witness :
  py_fold (add_permission (ext := scenario directory) (vault (fun _ => []))
             looked_up (Some "sfkey1"))
          ([grantee "bob@example.com"] ++ grantee "dave@example.com"
             :: [grantee "alice@example.com"])
          team_update
  = Ret {| su_shared_folder_uid := "SF1";
           su_defaults := None;
           su_add_teams := None;
           su_add_users :=
             Some [ {| ug_username := "bob@example.com";
                       ug_manage_users := Some false;
                       ug_manage_records := Some true;
                       ug_shared_folder_key := EncryptRsa (PBytes "sfkey1") "pkbob" |};
                    {| ug_username := "alice@example.com";
                       ug_manage_users := Some false;
                       ug_manage_records := Some true;
                       ug_shared_folder_key := EncryptAes (PBytes "sfkey1") "master" |} ];
           su_update_records := None |}.
Proof.
  destruct (unresolved_key_drops_only_that_grant (ext := scenario directory)
              (vault (fun _ => [])) looked_up (grantee "dave@example.com") None)
    as [_ Hrest].
  - reflexivity.
  - vm_compute. discriminate.
  - exact I.
  - rewrite Hrest. vm_compute. reflexivity.
Defined.

(** ** A second import *)

Section Replay.

Context {ext : Externals}.

(** The snapshot of the first run and the one of the second. *)
Variables p p2 : params.

Lemma enter_shared_folder_uid (w : walk) :
  parent_uid (enter_shared_folder w) = parent_uid w.
Proof. unfold enter_shared_folder. destruct (decide _); reflexivity. Qed.

Lemma hash_uids_lookup (h : gmap string hash_entry) (digest uid : string) :
  hash_uids h !! digest = Some uid ->
  exists type key, h !! digest = Some (uid, type, key).
Proof.
  unfold hash_uids. rewrite lookup_fmap_Some.
  intros ([[uid' type] key] & <- & Hh). eauto.
Qed.

(** A component walked in the first run is found, with the same uid, by
    every later walk whose index knows what the first run's index knew
    afterwards. *)
Lemma folder_component_replay (is_domain : bool) (c : bool * string)
    (b b1 : builder) (w w1 : walk) :
  folder_component p is_domain (b, w) c = (b1, w1) ->
  hash_uids (folder_hash b) ⊆ hash_uids (folder_hash b1)
  /\ forall b2 w2,
       hash_uids (folder_hash b1) ⊆ hash_uids (folder_hash b2) ->
       parent_uid w2 = parent_uid w ->
       exists w2',
         folder_component p2 is_domain (b2, w2) c = (b2, w2')
         /\ parent_uid w2' = parent_uid w1.
Proof.
  destruct c as [is_last comp]. unfold folder_component.
  destruct (folder_hash b !! folder_digest comp (parent_uid w))
    as [[[uid type] key]|] eqn:Hfound.
  - intros [= <- <-]. split; [reflexivity|].
    intros b2 w2 Hknows Huid. rewrite Huid.
    assert (Hu : hash_uids (folder_hash b) !! folder_digest comp (parent_uid w)
                 = Some uid).
    { unfold hash_uids. rewrite lookup_fmap, Hfound. reflexivity. }
    apply (lookup_weaken _ _ _ _ Hu) in Hknows.
    destruct (hash_uids_lookup _ _ _ Hknows) as (type2 & key2 & ->).
    eexists. split; [reflexivity|].
    rewrite !enter_shared_folder_uid. reflexivity.
  - destruct (new_folder p is_domain is_last comp (drawn b) w) as [rq w'] eqn:Hnew.
    intros [= <- <-]. simpl.
    assert (Hins : hash_uids (<[folder_digest comp (parent_uid w)
                                := (parent_uid w', parent_type w',
                                    parent_shared_folder_key w')]> (folder_hash b))
                   = <[folder_digest comp (parent_uid w) := parent_uid w']>
                       (hash_uids (folder_hash b))).
    { unfold hash_uids. rewrite fmap_insert. reflexivity. }
    rewrite Hins. split.
    + apply insert_subseteq. unfold hash_uids.
      rewrite lookup_fmap, Hfound. reflexivity.
    + intros b2 w2 Hknows Huid. rewrite Huid.
      assert (Hu : <[folder_digest comp (parent_uid w) := parent_uid w']>
                     (hash_uids (folder_hash b))
                   !! folder_digest comp (parent_uid w) = Some (parent_uid w'))
        by apply lookup_insert_eq.
      apply (lookup_weaken _ _ _ _ Hu) in Hknows.
      destruct (hash_uids_lookup _ _ _ Hknows) as (type2 & key2 & ->).
      eexists. split; [reflexivity|].
      rewrite !enter_shared_folder_uid. reflexivity.
Qed.

Lemma folder_components_replay (is_domain : bool) (cs : list (bool * string)) :
  forall (b b1 : builder) (w w1 : walk),
    fold_left (folder_component p is_domain) cs (b, w) = (b1, w1) ->
    hash_uids (folder_hash b) ⊆ hash_uids (folder_hash b1)
    /\ forall b2 w2,
         hash_uids (folder_hash b1) ⊆ hash_uids (folder_hash b2) ->
         parent_uid w2 = parent_uid w ->
         exists w2',
           fold_left (folder_component p2 is_domain) cs (b2, w2) = (b2, w2')
           /\ parent_uid w2' = parent_uid w1.
Proof.
  induction cs as [|c cs IH]; intros b b1 w w1; simpl.
  - intros [= <- <-]. split; [reflexivity|]. eauto.
  - destruct (folder_component p is_domain (b, w) c) as [bm wm] eqn:Hc.
    intros Hrest.
    destruct (folder_component_replay _ _ _ _ _ _ Hc) as [Hmono1 Hreplay1].
    destruct (IH _ _ _ _ Hrest) as [Hmono2 Hreplay2].
    split; [etransitivity; eassumption|].
    intros b2 w2 Hknows Huid.
    destruct (Hreplay1 b2 w2) as (wm2 & -> & Hum);
      [etransitivity; eassumption|exact Huid|].
    apply Hreplay2; assumption.
Qed.

Lemma folder_path_replay (is_domain : bool) (path : option string)
    (b b1 : builder) (w w1 : walk) :
  folder_path p (b, w) is_domain path = (b1, w1) ->
  hash_uids (folder_hash b) ⊆ hash_uids (folder_hash b1)
  /\ forall b2 w2,
       hash_uids (folder_hash b1) ⊆ hash_uids (folder_hash b2) ->
       parent_uid w2 = parent_uid w ->
       exists w2',
         folder_path p2 (b2, w2) is_domain path = (b2, w2')
         /\ parent_uid w2' = parent_uid w1.
Proof.
  unfold folder_path. destruct (truthy path).
  - apply folder_components_replay.
  - intros [= <- <-]. split; [reflexivity|]. eauto.
Qed.

Lemma place_folder_replay (fol fol' : ImportFolder) (b b1 : builder) :
  place_folder p b fol = (b1, fol') ->
  hash_uids (folder_hash b) ⊆ hash_uids (folder_hash b1)
  /\ forall b2,
       hash_uids (folder_hash b1) ⊆ hash_uids (folder_hash b2) ->
       place_folder p2 b2 fol = (b2, fol').
Proof.
  unfold place_folder.
  destruct (folder_path p (b, start) true (fol_domain fol)) as [bd wd] eqn:Hd.
  destruct (folder_path p (bd, wd) false (fol_path fol)) as [bp wp] eqn:Hp.
  intros [= <- <-].
  destruct (folder_path_replay _ _ _ _ _ _ Hd) as [Hmono1 Hreplay1].
  destruct (folder_path_replay _ _ _ _ _ _ Hp) as [Hmono2 Hreplay2].
  split; [etransitivity; eassumption|].
  intros b2 Hknows.
  destruct (Hreplay1 b2 start) as (wd2 & -> & Hud);
    [etransitivity; eassumption|reflexivity|].
  destruct (Hreplay2 b2 wd2 Hknows Hud) as (wp2 & -> & Hup).
  rewrite Hup. reflexivity.
Qed.

Lemma place_folders_replay (folders : list ImportFolder) :
  forall (folders' : list ImportFolder) (b b1 : builder),
    place_folders p b folders = (b1, folders') ->
    hash_uids (folder_hash b) ⊆ hash_uids (folder_hash b1)
    /\ forall b2,
         hash_uids (folder_hash b1) ⊆ hash_uids (folder_hash b2) ->
         place_folders p2 b2 folders = (b2, folders').
Proof.
  induction folders as [|fol folders IH]; intros folders' b b1; simpl.
  - intros [= <- <-]. split; [reflexivity|]. reflexivity.
  - destruct (place_folder p b fol) as [bm fol1] eqn:Hfol.
    destruct (place_folders p bm folders) as [be rest1] eqn:Hrest.
    intros [= <- <-].
    destruct (place_folder_replay _ _ _ _ Hfol) as [Hmono1 Hreplay1].
    destruct (IH _ _ _ Hrest) as [Hmono2 Hreplay2].
    split; [etransitivity; eassumption|].
    intros b2 Hknows.
    rewrite Hreplay1 by (etransitivity; eassumption).
    rewrite Hreplay2 by exact Hknows. reflexivity.
Qed.

Lemma place_records_replay (records : list ImportRecord) :
  forall (records' : list ImportRecord) (b b1 : builder),
    place_records p b records = (b1, records') ->
    hash_uids (folder_hash b) ⊆ hash_uids (folder_hash b1)
    /\ forall b2,
         hash_uids (folder_hash b1) ⊆ hash_uids (folder_hash b2) ->
         place_records p2 b2 records = (b2, records').
Proof.
  induction records as [|rec records IH]; intros records' b b1; simpl.
  - intros [= <- <-]. split; reflexivity.
  - destruct (rec_folders rec) as [[|fol folders]|] eqn:Hfolders.
    + destruct (place_records p b records) as [be rest1] eqn:Hrest.
      intros [= <- <-]. destruct (IH _ _ _ Hrest) as [Hmono Hreplay].
      split; [exact Hmono|]. intros b2 Hknows.
      rewrite Hreplay by exact Hknows. reflexivity.
    + destruct (place_folders p b (fol :: folders)) as [bm folders1] eqn:Hfols.
      destruct (place_records p bm records) as [be rest1] eqn:Hrest.
      intros [= <- <-].
      destruct (place_folders_replay _ _ _ _ Hfols) as [Hmono1 Hreplay1].
      destruct (IH _ _ _ Hrest) as [Hmono2 Hreplay2].
      split; [etransitivity; eassumption|].
      intros b2 Hknows.
      rewrite Hreplay1 by (etransitivity; eassumption).
      rewrite Hreplay2 by exact Hknows. reflexivity.
    + destruct (place_records p b records) as [be rest1] eqn:Hrest.
      intros [= <- <-]. destruct (IH _ _ _ Hrest) as [Hmono Hreplay].
      split; [exact Hmono|]. intros b2 Hknows.
      rewrite Hreplay by exact Hknows. reflexivity.
Qed.

End Replay.

(** ** What the first run leaves behind *)

Lemma or_empty_some (s : string) : or_empty (Some s) = s.
Proof.
  unfold or_empty. destruct (String.eqb_spec s ""); [subst|]; reflexivity.
Qed.

Lemma truthy_some (s : string) : s <> "" -> truthy (Some s) = true.
Proof.
  intros Hs. unfold truthy. apply String.eqb_neq in Hs. rewrite Hs. reflexivity.
Qed.

Lemma fold_left_snoc {A B : Type} (f : A -> B -> A) (l : list B) (x : B) (a : A) :
  fold_left f (l ++ [x]) a = f (fold_left f l a) x.
Proof. rewrite fold_left_app. reflexivity. Qed.

Lemma dict_set_fresh {V : Type} (k : string) (v : V) (d : Dict.t V) :
  ~ In k (Dict.keys d) -> Dict.set k v d = d ++ [(k, v)].
Proof.
  induction d as [|[k' v'] d IH]; simpl; intros Hfresh; [reflexivity|].
  destruct (String.eqb_spec k k') as [->|Hne]; [tauto|].
  rewrite IH by tauto. reflexivity.
Qed.

Lemma dict_keys_app {V : Type} (d1 d2 : Dict.t V) :
  Dict.keys (d1 ++ d2) = Dict.keys d1 ++ Dict.keys d2.
Proof. apply map_app. Qed.

Lemma uid_index_snoc (cache : Dict.t folder_node) (uid : string)
    (fol : folder_node) :
  uid_index (cache ++ [(uid, fol)])
  = <[ folder_digest (or_empty (fn_name fol)) (or_empty (fn_parent_uid fol))
       := uid ]> (uid_index cache).
Proof. unfold uid_index. rewrite fold_left_snoc. reflexivity. Qed.

Lemma hash_uids_build (p : params) :
  hash_uids (build_folder_hash p) = uid_index (folder_cache p).
Proof.
  unfold build_folder_hash, uid_index.
  assert (Hgen : forall l (h : gmap string hash_entry),
             hash_uids
               (fold_left
                  (fun h '(f_uid, fol) =>
                     <[ folder_digest (or_empty (fn_name fol))
                                      (or_empty (fn_parent_uid fol))
                        := (f_uid, fn_type fol, cached_shared_folder_key p fol) ]> h)
                  l h)
             = fold_left
                 (fun h '(f_uid, fol) =>
                    <[ folder_digest (or_empty (fn_name fol))
                                     (or_empty (fn_parent_uid fol)) := f_uid ]> h)
                 l (hash_uids h)).
  { induction l as [|[uid fol] l IH]; intros h; simpl; [reflexivity|].
    rewrite IH. unfold hash_uids. rewrite fmap_insert. reflexivity. }
  rewrite Hgen. unfold hash_uids. rewrite fmap_empty. reflexivity.
Qed.

Lemma sound_hash_insert (h : gmap string hash_entry) (digest uid : string)
    (type : folder_type) (key : option string) :
  sound_hash h ->
  type <> RootFolderType ->
  (type = SharedFolderType -> uid <> "" /\ truthy key = true) ->
  sound_hash (<[digest := (uid, type, key)]> h).
Proof.
  intros Hh Htype Hshared digest' uid' type' key'.
  rewrite lookup_insert_Some. intros [[_ [= <- <- <-]]|[_ Hold]].
  - split; assumption.
  - eapply Hh. exact Hold.
Qed.

Lemma sound_hash_build (p : params) :
  well_formed p -> sound_hash (build_folder_hash p).
Proof.
  intros [Hroot Hshared]. unfold build_folder_hash.
  assert (Hgen : forall l (h : gmap string hash_entry),
             (forall uid fol, In (uid, fol) l -> In (uid, fol) (folder_cache p)) ->
             sound_hash h ->
             sound_hash
               (fold_left
                  (fun h '(f_uid, fol) =>
                     <[ folder_digest (or_empty (fn_name fol))
                                      (or_empty (fn_parent_uid fol))
                        := (f_uid, fn_type fol, cached_shared_folder_key p fol) ]> h)
                  l h)).
  { induction l as [|[uid fol] l IH]; intros h Hsub Hh; simpl; [exact Hh|].
    apply IH; [intros; apply Hsub; right; assumption|].
    apply sound_hash_insert; [exact Hh| |].
    - eapply Hroot. apply Hsub. left. reflexivity.
    - eapply Hshared. apply Hsub. left. reflexivity. }
  apply Hgen; [auto|]. intros digest uid type key. rewrite lookup_empty.
  discriminate.
Qed.

Section FirstRun.

#[local] Arguments or_empty : simpl never.
#[local] Arguments truthy : simpl never.

Context {ext : Externals}.
Variable p : params.
Variable n0 : nat.
Hypothesis Hfresh : fresh_entropy p.

Lemma sound_start : sound_walk start.
Proof. split; [reflexivity|discriminate]. Qed.

Lemma sound_enter_shared_folder (w : walk) :
  (parent_type w = RootFolderType -> parent_uid w = "") ->
  (parent_type w = SharedFolderType ->
   parent_uid w <> "" /\ truthy (parent_shared_folder_key w) = true) ->
  sound_walk (enter_shared_folder w).
Proof.
  intros Hroot Hshared. unfold enter_shared_folder.
  destruct (decide (parent_type w = SharedFolderType)) as [Hs|Hs].
  - split; simpl; [congruence|]. intros _.
    destruct (Hshared Hs). auto.
  - split; [exact Hroot|]. intros Hs'. contradiction.
Qed.

(** The node that the store keeps for a new folder has the fingerprint
    under which the builder enters it into its index. *)
Lemma new_folder_stored (is_domain is_last : bool) (comp : string)
    (d : draws) (w w' : walk) (rq : folder_add_rq) :
  sound_walk w ->
  new_folder p is_domain is_last comp d w = (rq, w') ->
  fa_folder_uid rq = generate_record_uid (uid_draws d)
  /\ parent_uid w' = generate_record_uid (uid_draws d)
  /\ parent_type w' <> RootFolderType
  /\ (parent_type w' = SharedFolderType ->
      truthy (parent_shared_folder_key w') = true)
  /\ folder_digest (or_empty (fn_name (stored_folder rq)))
                   (or_empty (fn_parent_uid (stored_folder rq)))
     = folder_digest comp (parent_uid w).
Proof.
  intros [Hroot Hshared]. unfold new_folder. intros [= <- <-]. simpl.
  split; [reflexivity|]. split; [reflexivity|].
  rewrite or_empty_some.
  destruct (parent_type w) eqn:Htype.
  - rewrite (Hroot eq_refl).
    destruct is_domain, is_last; simpl;
      repeat split; try discriminate; try reflexivity;
      intros _; apply truthy_some; apply (key_not_empty p Hfresh).
  - destruct is_domain, is_last; simpl; rewrite ?or_empty_some;
      repeat split; try discriminate; try reflexivity;
      intros _; apply truthy_some; apply (key_not_empty p Hfresh).
  - destruct (Hshared eq_refl) as (Hsf & Hne & Hkey).
    rewrite Hsf, Hkey, (truthy_some _ Hne). simpl. rewrite or_empty_some.
    repeat split; discriminate.
  - simpl. rewrite or_empty_some.
    destruct (truthy (parent_shared_folder_uid w)
              && truthy (parent_shared_folder_key w));
      repeat split; discriminate.
Qed.

Lemma drawn_uid_is_new (b : builder) :
  sound_builder p n0 b ->
  ~ In (generate_record_uid (uid_draws (drawn b)))
       (Dict.keys (fold_left store_folder (folder_add b) (folder_cache p))).
Proof.
  intros (_ & _ & Hle & Hkeys & _). rewrite Hkeys, in_app_iff.
  intros [Hold|Hnew].
  - exact (uid_not_a_folder p Hfresh _ Hold).
  - apply in_map_iff in Hnew as (j & Hj & Hin).
    apply (uid_injective p Hfresh) in Hj. apply in_seq in Hin. lia.
Qed.

Lemma folder_component_sound (is_domain : bool) (c : bool * string)
    (b b1 : builder) (w w1 : walk) :
  sound_builder p n0 b -> sound_walk w ->
  folder_component p is_domain (b, w) c = (b1, w1) ->
  sound_builder p n0 b1 /\ sound_walk w1.
Proof.
  intros Hb Hw. destruct c as [is_last comp]. unfold folder_component.
  destruct (folder_hash b !! folder_digest comp (parent_uid w))
    as [[[uid type] key]|] eqn:Hfound.
  - intros [= <- <-]. split; [exact Hb|].
    destruct Hb as (Hh & _). destruct (Hh _ _ _ _ Hfound) as [Hroot Hshared].
    apply sound_enter_shared_folder; simpl; [contradiction|exact Hshared].
  - destruct (new_folder p is_domain is_last comp (drawn b) w) as [rq w'] eqn:Hnew.
    intros [= <- <-].
    destruct (new_folder_stored _ _ _ _ _ _ _ Hw Hnew)
      as (Hrq & Huid & Hroot & Hkey & Hdigest).
    pose proof (drawn_uid_is_new b Hb) as Hnewuid.
    destruct Hb as (Hh & Hsub & Hle & Hkeys & Hall).
    split.
    + unfold sound_builder. cbn [folder_hash folder_add drawn uid_draws].
      rewrite fold_left_snoc. cbn [store_folder]. rewrite Hrq.
      rewrite dict_set_fresh by exact Hnewuid.
      split; [|split; [|split; [|split]]].
      * apply sound_hash_insert; [exact Hh|exact Hroot|].
        intros Hs. split; [|exact (Hkey Hs)].
        rewrite Huid. apply (uid_not_empty p Hfresh).
      * rewrite uid_index_snoc, Hdigest, Huid.
        unfold hash_uids. rewrite fmap_insert. cbn [fst].
        apply insert_mono. exact Hsub.
      * lia.
      * rewrite dict_keys_app, Hkeys, <- app_assoc. f_equal.
        replace (S (uid_draws (drawn b)) - n0)
          with (S (uid_draws (drawn b) - n0)) by lia.
        rewrite seq_S, map_app. cbn [Dict.keys map fst]. do 3 f_equal. lia.
      * apply Forall_app. split; [exact Hall|]. repeat constructor.
    + apply sound_enter_shared_folder; [intros Hr; contradiction|].
      intros Hs. split; [|exact (Hkey Hs)].
      rewrite Huid. apply (uid_not_empty p Hfresh).
Qed.

Lemma folder_components_sound (is_domain : bool) (cs : list (bool * string)) :
  forall (b b1 : builder) (w w1 : walk),
    sound_builder p n0 b -> sound_walk w ->
    fold_left (folder_component p is_domain) cs (b, w) = (b1, w1) ->
    sound_builder p n0 b1 /\ sound_walk w1.
Proof.
  induction cs as [|c cs IH]; intros b b1 w w1 Hb Hw; cbn [fold_left].
  - intros [= <- <-]. split; assumption.
  - destruct (folder_component p is_domain (b, w) c) as [bm wm] eqn:Hc.
    destruct (folder_component_sound _ _ _ _ _ _ Hb Hw Hc) as [Hbm Hwm].
    apply IH; assumption.
Qed.

Lemma folder_path_sound (is_domain : bool) (path : option string)
    (b b1 : builder) (w w1 : walk) :
  sound_builder p n0 b -> sound_walk w ->
  folder_path p (b, w) is_domain path = (b1, w1) ->
  sound_builder p n0 b1 /\ sound_walk w1.
Proof.
  intros Hb Hw. unfold folder_path. destruct (truthy path).
  - apply folder_components_sound; assumption.
  - intros [= <- <-]. split; assumption.
Qed.

Lemma place_folder_sound (fol fol' : ImportFolder) (b b1 : builder) :
  sound_builder p n0 b ->
  place_folder p b fol = (b1, fol') ->
  sound_builder p n0 b1.
Proof.
  intros Hb. unfold place_folder.
  destruct (folder_path p (b, start) true (fol_domain fol)) as [bd wd] eqn:Hd.
  destruct (folder_path p (bd, wd) false (fol_path fol)) as [bp wp] eqn:Hp.
  intros [= <- <-].
  destruct (folder_path_sound _ _ _ _ _ _ Hb sound_start Hd) as [Hbd Hwd].
  destruct (folder_path_sound _ _ _ _ _ _ Hbd Hwd Hp) as [Hbp _].
  exact Hbp.
Qed.

Lemma place_folders_sound (folders : list ImportFolder) :
  forall (folders' : list ImportFolder) (b b1 : builder),
    sound_builder p n0 b ->
    place_folders p b folders = (b1, folders') ->
    sound_builder p n0 b1.
Proof.
  induction folders as [|fol folders IH]; intros folders' b b1 Hb;
    cbn [place_folders].
  - intros [= <- <-]. exact Hb.
  - destruct (place_folder p b fol) as [bm fol1] eqn:Hfol.
    destruct (place_folders p bm folders) as [be rest1] eqn:Hrest.
    intros [= <- <-].
    eapply IH; [|exact Hrest]. eapply place_folder_sound; eassumption.
Qed.

Lemma place_records_sound (records : list ImportRecord) :
  forall (records' : list ImportRecord) (b b1 : builder),
    sound_builder p n0 b ->
    place_records p b records = (b1, records') ->
    sound_builder p n0 b1.
Proof.
  induction records as [|rec records IH]; intros records' b b1 Hb;
    cbn [place_records].
  - intros [= <- <-]. exact Hb.
  - destruct (rec_folders rec) as [[|fol folders]|].
    + destruct (place_records p b records) as [be rest1] eqn:Hrest.
      intros [= <- <-]. eapply IH; eassumption.
    + destruct (place_folders p b (fol :: folders)) as [bm folders1] eqn:Hfols.
      destruct (place_records p bm records) as [be rest1] eqn:Hrest.
      intros [= <- <-].
      eapply IH; [|exact Hrest]. eapply place_folders_sound; eassumption.
    + destruct (place_records p b records) as [be rest1] eqn:Hrest.
      intros [= <- <-]. eapply IH; eassumption.
Qed.

End FirstRun.

(** ** Records after the first run *)

Lemma store_record_folder_adds (batch : list request) :
  Forall (fun rq => match rq with FolderAdd _ => True | _ => False end) batch ->
  forall cache, fold_left store_record batch cache = cache.
Proof.
  induction 1 as [|rq batch Hrq _ IH]; intros cache; simpl; [reflexivity|].
  destruct rq; try contradiction. apply IH.
Qed.

Lemma store_folder_record_adds (reqs : list record_add_rq) :
  forall cache, fold_left store_folder (map RecordAdd reqs) cache = cache.
Proof. induction reqs as [|req reqs IH]; intros cache; simpl; auto. Qed.

Lemma store_record_fresh (reqs : list record_add_rq) :
  forall cache,
    NoDup (map ra_record_uid reqs) ->
    (forall req, In req reqs -> ~ In (ra_record_uid req) (Dict.keys cache)) ->
    fold_left store_record (map RecordAdd reqs) cache
    = cache ++ map (fun req => (ra_record_uid req, stored_record req)) reqs.
Proof.
  induction reqs as [|req reqs IH]; intros cache Hnodup Hfresh; simpl.
  - rewrite app_nil_r. reflexivity.
  - inversion Hnodup as [|uid uids Hnotin Hrest]; subst.
    rewrite dict_set_fresh by (apply Hfresh; left; reflexivity).
    rewrite IH.
    + rewrite <- app_assoc. reflexivity.
    + exact Hrest.
    + intros req' Hin. rewrite dict_keys_app, in_app_iff.
      intros [Hold|[Heq|[]]].
      * exact (Hfresh req' (or_intror Hin) Hold).
      * simpl in Heq. apply Hnotin. apply list_elem_of_In.
        rewrite Heq. apply in_map. exact Hin.
Qed.

Lemma record_hash_lookup (cache : Dict.t vault_record) (digest : string) :
  forall h : gmap string string,
    is_Some (fold_left
               (fun h '(r_uid, r) => <[cached_fingerprint r := r_uid]> h)
               cache h !! digest)
    <-> is_Some (h !! digest)
        \/ exists uid r, In (uid, r) cache /\ cached_fingerprint r = digest.
Proof.
  induction cache as [|[uid r] cache IH]; intros h; simpl.
  - split; [auto|]. intros [Hh|(uid & r & [] & _)]. exact Hh.
  - rewrite IH, lookup_insert_is_Some. split.
    + intros [[Heq|[_ Hh]]|(uid' & r' & Hin & Hfp)].
      * right. exists uid, r. auto.
      * left. exact Hh.
      * right. exists uid', r'. auto.
    + intros [Hh|(uid' & r' & [Heq|Hin] & Hfp)].
      * destruct (decide (cached_fingerprint r = digest)); auto.
      * injection Heq as <- <-. auto.
      * right. exists uid', r'. auto.
Qed.

Lemma build_record_hash_lookup (p : params) (digest : string) :
  is_Some (build_record_hash p !! digest)
  <-> exists uid r, In (uid, r) (record_cache p) /\ cached_fingerprint r = digest.
Proof.
  unfold build_record_hash.
  rewrite (record_hash_lookup (record_cache p) digest ∅), lookup_empty.
  split; [|auto]. intros [Hempty|Hin]; [|exact Hin].
  destruct Hempty as [x Hx]. discriminate.
Qed.

Section RecordsOfTheFirstRun.

Context {ext : Externals}.
Variable p : params.

Lemma new_record_stored (rec : ImportRecord) (d : draws) (req : record_add_rq) :
  new_record p rec d = Ret req ->
  ra_record_uid req = generate_record_uid (uid_draws d)
  /\ cached_fingerprint (stored_record req) = record_fingerprint rec.
Proof.
  unfold new_record, item_opt.
  assert (Hfp : cached_fingerprint
                  {| vr_title := Some (or_empty (rec_title rec));
                     vr_login := Some (or_empty (rec_login rec));
                     vr_password := Some (or_empty (rec_password rec));
                     vr_record_key_unencrypted := urandom (key_draws d) |}
                = record_fingerprint rec).
  { unfold cached_fingerprint, record_fingerprint. cbn [vr_title vr_login vr_password].
    rewrite !or_empty_some. reflexivity. }
  destruct (truthy (primary_folder_uid rec));
    [|intros [= <-]; split; [reflexivity|exact Hfp]].
  destruct (get_opt (primary_folder_uid rec) (folder_cache p)) as [folder|];
    [|intros [= <-]; split; [reflexivity|exact Hfp]].
  destruct (is_shared_type (fn_type folder)).
  - destruct (get_opt _ (shared_folder_cache p)) as [sf|]; simpl; [|discriminate].
    intros [= <-]. split; [reflexivity|exact Hfp].
  - intros [= <-]. split; [reflexivity|exact Hfp].
Qed.

(** The requests of a run create one record per imported record that the
    index does not know, with the uids drawn in order. *)
Lemma upsert_records_stored (record_hash : gmap string string)
    (records : list ImportRecord) :
  forall (d d' : draws) (adds : list request) (records' : list ImportRecord),
    upsert_records p record_hash d records = Ret (adds, records', d') ->
    exists reqs,
      adds = map RecordAdd reqs
      /\ map ra_record_uid reqs
         = map generate_record_uid (seq (uid_draws d) (length reqs))
      /\ forall rec, In rec records ->
           is_Some (record_hash !! record_fingerprint rec)
           \/ exists req, In req reqs
                /\ cached_fingerprint (stored_record req) = record_fingerprint rec.
Proof.
  induction records as [|rec rest IH]; intros d d' adds records' Hrun;
    cbn [upsert_records] in Hrun.
  - injection Hrun as <- _ _. exists []. repeat split. intros rec [].
  - fold (record_fingerprint rec) in Hrun.
    destruct (record_hash !! record_fingerprint rec) as [record_uid|] eqn:Hhit.
    + destruct (upsert_records p record_hash d rest) as [[[adds1 rest1] d1]|e]
        eqn:Hrest; simpl in Hrun; [|discriminate].
      injection Hrun as <- _ _.
      destruct (IH _ _ _ _ Hrest) as (reqs & -> & Huids & Hcov).
      exists reqs. split; [reflexivity|]. split; [exact Huids|].
      intros rec' [<-|Hin]; [left; rewrite Hhit; eauto|auto].
    + destruct (new_record p rec d) as [req|e] eqn:Hnew;
        simpl in Hrun; [|discriminate].
      destruct (upsert_records p record_hash _ rest) as [[[adds1 rest1] d1]|e]
        eqn:Hrest; simpl in Hrun; [|discriminate].
      injection Hrun as <- _ _.
      destruct (IH _ _ _ _ Hrest) as (reqs & -> & Huids & Hcov).
      destruct (new_record_stored _ _ _ Hnew) as [Huid Hfp].
      exists (req :: reqs). split; [reflexivity|]. split.
      * simpl. rewrite Huid. f_equal. exact Huids.
      * intros rec' [<-|Hin].
        -- right. exists req. split; [left; reflexivity|exact Hfp].
        -- destruct (Hcov rec' Hin) as [Hk|(req' & Hin' & Hfp')]; [auto|].
           right. exists req'. split; [right; exact Hin'|exact Hfp'].
Qed.

(** A run in which the index knows every record makes no request and
    draws nothing. *)
Lemma upsert_records_known (record_hash : gmap string string) (d : draws)
    (records : list ImportRecord) :
  (forall rec, In rec records -> is_Some (record_hash !! record_fingerprint rec)) ->
  exists records',
    upsert_records p record_hash d records = Ret ([], records', d).
Proof.
  induction records as [|rec rest IH]; intros Hknown; cbn [upsert_records].
  - eauto.
  - fold (record_fingerprint rec).
    destruct (Hknown rec (or_introl eq_refl)) as [uid ->].
    destruct IH as [rest' ->]; [intros; apply Hknown; right; assumption|].
    simpl. eauto.
Qed.

End RecordsOfTheFirstRun.

Section SecondImport.

Context {ext : Externals}.
Variable p : params.
Hypothesis Hwf : well_formed p.
Hypothesis Hfresh : fresh_entropy p.

Lemma drawn_uids_nodup (len : nat) :
  forall n, NoDup (map generate_record_uid (seq n len)).
Proof.
  induction len as [|len IH]; intros n; simpl; constructor; [|apply IH].
  rewrite list_elem_of_In, in_map_iff. intros (j & Hj & Hin).
  apply (uid_injective p Hfresh) in Hj. apply in_seq in Hin. lia.
Qed.

Lemma sound_initial_builder (d : draws) :
  sound_builder p (uid_draws d)
    {| folder_hash := build_folder_hash p; folder_add := []; drawn := d |}.
Proof.
  unfold sound_builder. cbn [folder_hash folder_add drawn fold_left].
  split; [exact (sound_hash_build p Hwf)|].
  split; [rewrite hash_uids_build; reflexivity|].
  split; [lia|]. split; [|constructor].
  rewrite Nat.sub_diag. simpl. rewrite app_nil_r. reflexivity.
Qed.

(** C2.  Let the first run of an import start from a well-formed
    snapshot [p], with random sources that give new uids and keys, let the
    requests of [prepare_folder_add] be applied and the snapshot refreshed,
    and likewise the requests of [prepare_record_add].  On the resulting
    snapshot a second run of the same import finds the fingerprint of every
    folder component and of every record in the rebuilt index:
    [prepare_folder_add] makes no request, resolves every folder to the uid
    of the first run and draws nothing, and neither does
    [prepare_record_add]. *)
Theorem second_import_creates_nothing
    (d d1 d2 : draws) (records records1 records2 : list ImportRecord)
    (folder_adds record_adds : list request) :
  prepare_folder_add p d records = (folder_adds, records1, d1) ->
  prepare_record_add (refreshed_after folder_adds p) d1 records1
  = Ret (record_adds, records2, d2) ->
  forall d3 : draws,
    prepare_folder_add (refreshed_after record_adds (refreshed_after folder_adds p))
                       d3 records
    = ([], records1, d3)
    /\ exists records4,
         prepare_record_add
           (refreshed_after record_adds (refreshed_after folder_adds p))
           d3 records1
         = Ret ([], records4, d3).
Proof.
  unfold prepare_folder_add at 1.
  destruct (place_records p
              {| folder_hash := build_folder_hash p; folder_add := []; drawn := d |}
              records) as [b1 recs1] eqn:Hrun1.
  intros [= <- <- <-] Hrecords d3.
  pose proof (place_records_sound p (uid_draws d) Hfresh _ _ _ _
                (sound_initial_builder d) Hrun1)
    as (_ & Hsub & _ & _ & Hall).
  set (p1 := refreshed_after (folder_add b1) p) in *.
  unfold prepare_record_add in Hrecords.
  destruct (upsert_records_stored p1 _ _ _ _ _ _ Hrecords)
    as (reqs & -> & Huids & Hcov).
  set (p2 := refreshed_after (map RecordAdd reqs) p1).
  assert (Hfolders2 : folder_cache p2
                      = fold_left store_folder (folder_add b1) (folder_cache p)).
  { unfold p2, refreshed_after. cbn [folder_cache].
    rewrite store_folder_record_adds. reflexivity. }
  assert (Hrecords1 : record_cache p1 = record_cache p).
  { unfold p1, refreshed_after. cbn [record_cache].
    apply store_record_folder_adds. exact Hall. }
  assert (Hrecords2 : record_cache p2
                      = record_cache p
                        ++ map (fun req => (ra_record_uid req, stored_record req)) reqs).
  { unfold p2, refreshed_after. cbn [record_cache]. fold p1. rewrite Hrecords1.
    apply store_record_fresh.
    - rewrite Huids. apply drawn_uids_nodup.
    - intros req Hin Hold.
      assert (Hgen : In (ra_record_uid req)
                        (map generate_record_uid
                             (seq (uid_draws (drawn b1)) (length reqs)))).
      { rewrite <- Huids. apply in_map. exact Hin. }
      apply in_map_iff in Hgen as (j & Hj & _). rewrite <- Hj in Hold.
      exact (uid_not_a_record p Hfresh _ Hold). }
  split.
  - unfold prepare_folder_add.
    destruct (place_records_replay p p2 _ _ _ _ Hrun1) as [_ Hreplay].
    rewrite (Hreplay {| folder_hash := build_folder_hash p2;
                        folder_add := []; drawn := d3 |}).
    + reflexivity.
    + cbn [folder_hash]. rewrite hash_uids_build, Hfolders2. exact Hsub.
  - unfold prepare_record_add. apply upsert_records_known.
    intros rec Hin. apply build_record_hash_lookup. rewrite Hrecords2.
    destruct (Hcov rec Hin) as [Hknown|(req & Hreq & Hfp)].
    + apply build_record_hash_lookup in Hknown as (uid & r & Hr & Hfp).
      rewrite Hrecords1 in Hr. exists uid, r. split; [|exact Hfp].
      apply in_app_iff. left. exact Hr.
    + exists (ra_record_uid req), (stored_record req). split; [|exact Hfp].
      apply in_app_iff. right.
      apply (in_map (fun req => (ra_record_uid req, stored_record req))).
      exact Hreq.
Qed.

End SecondImport.

Lemma vault_well_formed (folders_of : string -> list string) :
  well_formed (vault folders_of).
Proof.
  split.
  - intros uid fol Hin. simpl in Hin.
    repeat (destruct Hin as [[= <- <-]|Hin]); try contradiction; discriminate.
  - intros uid fol Hin Htype. simpl in Hin.
    repeat (destruct Hin as [[= <- <-]|Hin]); try contradiction;
      try discriminate Htype; (split; [discriminate|reflexivity]).
Qed.

Lemma append_not_empty (s t : string) : t <> "" -> (s ++ t)%string <> "".
Proof. destruct s; simpl; [auto|discriminate]. Qed.

Lemma scenario_key_not_empty (n : nat) : scenario_key n <> "".
Proof.
  unfold scenario_key. destruct (pretty n) as [|c digits].
  - vm_compute. discriminate.
  - apply append_not_empty. discriminate.
Qed.

Lemma scenario_entropy_fresh (directory : list (string * string))
    (folders_of : string -> list string) :
  fresh_entropy (H := scenario directory) (vault folders_of).
Proof.
  split; simpl.
  - intros m n Heq. injection Heq as Heq. exact (inj pretty _ _ Heq).
  - discriminate.
  - intros n Hin. repeat (destruct Hin as [Heq|Hin]; [discriminate Heq|]).
    exact Hin.
  - intros n Hin. repeat (destruct Hin as [Heq|Hin]; [discriminate Heq|]).
    exact Hin.
  - apply scenario_key_not_empty.
Qed.

Lemma second_import_creates_nothing_witness :
  exists folder_adds records1 d1 record_adds records2 d2,
    prepare_folder_add (ext := scenario []) (vault (fun _ => [])) no_draws
                       twice_imported
    = (folder_adds, records1, d1)
    /\ length folder_adds = 3
    /\ prepare_record_add (ext := scenario [])
         (refreshed_after folder_adds (vault (fun _ => []))) d1 records1
       = Ret (record_adds, records2, d2)
    /\ length record_adds = 1
    /\ prepare_folder_add (ext := scenario [])
         (refreshed_after record_adds
            (refreshed_after folder_adds (vault (fun _ => []))))
         d2 twice_imported
       = ([], records1, d2)
    /\ exists records4,
         prepare_record_add (ext := scenario [])
           (refreshed_after record_adds
              (refreshed_after folder_adds (vault (fun _ => []))))
           d2 records1
         = Ret ([], records4, d2).
Proof.
  eexists _, _, _, _, _, _.
  split; [vm_compute; reflexivity|]. split; [reflexivity|].
  split; [vm_compute; reflexivity|]. split; [reflexivity|].
  eapply (second_import_creates_nothing (ext := scenario [])
            (vault (fun _ => [])) (vault_well_formed _)
            (scenario_entropy_fresh [] _) no_draws _ _ twice_imported).
  - vm_compute. reflexivity.
  - vm_compute. reflexivity.
Defined.

(** * Further properties *)

(** ** The batch executor: what is sent *)

Section BatchExecutorCoverage.

Context {op server : Type}.
Variable communicate : server -> list op -> server * py batch_response.
Variable debug : bool.

Lemma in_firstn_of {A : Type} (k : nat) (l : list A) (x : A) :
  In x (firstn k l) -> In x l.
Proof.
  intros Hin. rewrite <- (firstn_skipn k l). apply in_or_app. left. exact Hin.
Qed.

Lemma consumed_in_order_covers (queue : list op) (sent : list (list op)) :
  consumed_in_order queue sent ->
  (forall x, In x queue -> exists chunk, In chunk sent /\ In x chunk)
  /\ length sent <= length queue
  /\ length queue <= chunk_size * length sent
  /\ Forall (fun chunk => 1 <= length chunk <= chunk_size) sent.
Proof.
  induction 1 as [|queue k sent Hk _ (Hcov & Hle & Hge & Hall)].
  - repeat split; [intros x []|reflexivity|simpl; lia|constructor].
  - pose proof (length_firstn chunk_size queue) as Hlen.
    rewrite length_skipn in Hle, Hge.
    split; [|split; [|split]].
    + intros x Hin. rewrite <- (firstn_skipn k queue) in Hin.
      apply in_app_or in Hin as [Hhead|Htail].
      * exists (firstn chunk_size queue). split; [left; reflexivity|].
        replace k with (Nat.min k chunk_size) in Hhead by lia.
        rewrite <- firstn_firstn in Hhead. eapply in_firstn_of. exact Hhead.
      * destruct (Hcov x Htail) as (chunk & Hchunk & Hx).
        exists chunk. split; [right; exact Hchunk|exact Hx].
    + simpl. lia.
    + simpl length. lia.
    + constructor; [lia|exact Hall].
Qed.

(** X1.  Whatever the store answers, [execute_batch] ends, every operation of
    the queue is sent in at least one [execute] request, no request is empty
    or has more than 100 operations, and the number of requests lies between
    a hundredth of the number of operations and that number. *)
Theorem execute_batch_sends_every_operation (st : server) (requests : list op) :
  exists st_end sent,
    execute_loop communicate debug (length requests) st requests
    = Some (st_end, sent)
    /\ (forall x, In x requests -> exists chunk, In chunk sent /\ In x chunk)
    /\ length sent <= length requests
    /\ length requests <= chunk_size * length sent
    /\ Forall (fun chunk => 1 <= length chunk <= chunk_size) sent.
Proof.
  destruct (execute_loop_total communicate debug (length requests) st requests
              (Nat.le_refl _)) as (st_end & sent & Hrun).
  exists st_end, sent. split; [exact Hrun|].
  apply consumed_in_order_covers.
  exact (execute_loop_in_order communicate debug _ _ _ _ _ Hrun).
Qed.

(** A store that never reports fewer results than it was sent
    operations. *)
Hypothesis Hfull :
  forall st chunk st' rs results,
    communicate st chunk = (st', Ret rs) ->
    rs_results rs = Some results ->
    length chunk <= length results.





End BatchExecutorCoverage.


(** ** The folder tree builder: one node per place *)

Section FanIn.

Context {ext : Externals}.
Variable p : params.












End FanIn.


(** ** The folder tree builder: uids and draws *)

Lemma created_uids_folder_adds (reqs : list folder_add_rq) :
  created_uids (map FolderAdd reqs) = map fa_folder_uid reqs.
Proof.
  unfold created_uids. induction reqs as [|rq reqs IH]; simpl; [reflexivity|].
  f_equal. exact IH.
Qed.

Lemma created_uids_app (l1 l2 : list request) :
  created_uids (l1 ++ l2) = created_uids l1 ++ created_uids l2.
Proof. unfold created_uids. apply omap_app. Qed.

Lemma build_folder_hash_uids (p : params) (digest uid : string)
    (type : folder_type) (key : option string) :
  build_folder_hash p !! digest = Some (uid, type, key) ->
  In uid (Dict.keys (folder_cache p)).
Proof.
  unfold build_folder_hash.
  assert (Hgen : forall l (h : gmap string hash_entry),
             fold_left
               (fun h '(f_uid, fol) =>
                  <[ folder_digest (or_empty (fn_name fol))
                                   (or_empty (fn_parent_uid fol))
                     := (f_uid, fn_type fol, cached_shared_folder_key p fol) ]> h)
               l h !! digest = Some (uid, type, key) ->
             h !! digest = Some (uid, type, key) \/ In uid (Dict.keys l)).
  { induction l as [|[uid' fol] l IH]; intros h; simpl; [auto|].
    intros Hl. apply IH in Hl as [Hh|Hin]; [|auto].
    apply lookup_insert_Some in Hh as [[_ [= <- _ _]]|[_ Hh]]; auto. }
  intros Hl. apply Hgen in Hl as [Hempty|Hin]; [|exact Hin].
  rewrite lookup_empty in Hempty. discriminate.
Qed.

Section Bookkeeping.

Context {ext : Externals}.
Variable p : params.
Variable d0 : draws.

Lemma tracked_initial :
  tracked p d0 {| folder_hash := build_folder_hash p; folder_add := [];
                  drawn := d0 |}.
Proof.
  exists []. simpl. repeat split; try lia.
  intros digest uid type key Hfound. left.
  eapply build_folder_hash_uids. exact Hfound.
Qed.

Lemma uid_origin_later (batch more : list request) (uid : string) :
  uid_origin p batch uid -> uid_origin p (batch ++ more) uid.
Proof.
  intros [Hroot|[Hold|Hnew]]; [left|right; left|right; right]; try assumption.
  rewrite created_uids_app. apply in_or_app. left. exact Hnew.
Qed.

Lemma folder_component_tracked (is_domain : bool) (c : bool * string)
    (b b1 : builder) (w w1 : walk) :
  tracked p d0 b ->
  folder_component p is_domain (b, w) c = (b1, w1) ->
  tracked p d0 b1
  /\ (exists more, folder_add b1 = folder_add b ++ more)
  /\ uid_origin p (folder_add b1) (parent_uid w1).
Proof.
  intros (reqs & Hadds & Huids & Hu & Hk & Hknown).
  destruct c as [is_last comp]. unfold folder_component.
  destruct (folder_hash b !! folder_digest comp (parent_uid w))
    as [[[uid type] key]|] eqn:Hfound.
  - intros [= <- <-]. split; [exists reqs; auto|].
    split; [exists []; rewrite app_nil_r; reflexivity|].
    rewrite enter_shared_folder_uid. simpl.
    destruct (Hknown _ _ _ _ Hfound) as [Hold|Hnew]; [right; left; exact Hold|].
    right. right. rewrite Hadds, created_uids_folder_adds. exact Hnew.
  - destruct (new_folder p is_domain is_last comp (drawn b) w) as [rq w'] eqn:Hnew.
    assert (Hrq : fa_folder_uid rq = generate_record_uid (uid_draws (drawn b))
                  /\ parent_uid w' = generate_record_uid (uid_draws (drawn b))).
    { unfold new_folder in Hnew. injection Hnew as <- <-. split; reflexivity. }
    destruct Hrq as [Hrq Hw'].
    intros [= <- <-]. cbn [folder_add folder_hash drawn].
    split; [|split].
    + exists (reqs ++ [rq]). cbn [folder_add folder_hash drawn uid_draws key_draws].
      rewrite Hadds, !map_app, length_app, seq_app, map_app, Huids. simpl.
      split; [reflexivity|]. split; [rewrite Hrq, Hu; reflexivity|].
      split; [lia|]. split; [lia|].
      intros digest uid type key. rewrite lookup_insert_Some.
      intros [[_ [= <- _ _]]|[_ Hold]].
      * right. apply in_or_app. right. left. rewrite Hrq, Hw'. reflexivity.
      * destruct (Hknown _ _ _ _ Hold) as [Hc|Hn]; [left; exact Hc|].
        right. rewrite <- Huids. apply in_or_app. left. exact Hn.
    + eexists. reflexivity.
    + rewrite enter_shared_folder_uid. right. right.
      rewrite created_uids_app. apply in_or_app. right. simpl.
      left. rewrite Hrq, Hw'. reflexivity.
Qed.

Lemma folder_components_tracked (is_domain : bool) (cs : list (bool * string)) :
  forall (b b1 : builder) (w w1 : walk),
    tracked p d0 b ->
    uid_origin p (folder_add b) (parent_uid w) ->
    fold_left (folder_component p is_domain) cs (b, w) = (b1, w1) ->
    tracked p d0 b1
    /\ (exists more, folder_add b1 = folder_add b ++ more)
    /\ uid_origin p (folder_add b1) (parent_uid w1).
Proof.
  induction cs as [|c cs IH]; intros b b1 w w1 Hb Hw; cbn [fold_left].
  - intros [= <- <-]. split; [exact Hb|].
    split; [exists []; rewrite app_nil_r; reflexivity|exact Hw].
  - destruct (folder_component p is_domain (b, w) c) as [bm wm] eqn:Hc.
    destruct (folder_component_tracked _ _ _ _ _ _ Hb Hc)
      as (Hbm & (more1 & Hmore1) & Hwm).
    intros Hrest.
    destruct (IH _ _ _ _ Hbm Hwm Hrest) as (Hb1 & (more2 & Hmore2) & Hw1).
    split; [exact Hb1|]. split; [|exact Hw1].
    exists (more1 ++ more2). rewrite Hmore2, Hmore1, app_assoc. reflexivity.
Qed.

Lemma folder_path_tracked (is_domain : bool) (path : option string)
    (b b1 : builder) (w w1 : walk) :
  tracked p d0 b ->
  uid_origin p (folder_add b) (parent_uid w) ->
  folder_path p (b, w) is_domain path = (b1, w1) ->
  tracked p d0 b1
  /\ (exists more, folder_add b1 = folder_add b ++ more)
  /\ uid_origin p (folder_add b1) (parent_uid w1).
Proof.
  intros Hb Hw. unfold folder_path. destruct (truthy path).
  - apply folder_components_tracked; assumption.
  - intros [= <- <-]. split; [exact Hb|].
    split; [exists []; rewrite app_nil_r; reflexivity|exact Hw].
Qed.

Lemma place_folder_tracked (fol fol' : ImportFolder) (b b1 : builder) :
  tracked p d0 b ->
  place_folder p b fol = (b1, fol') ->
  tracked p d0 b1
  /\ (exists more, folder_add b1 = folder_add b ++ more)
  /\ exists uid, fol' = resolved_to uid fol /\ uid_origin p (folder_add b1) uid.
Proof.
  intros Hb. unfold place_folder.
  destruct (folder_path p (b, start) true (fol_domain fol)) as [bd wd] eqn:Hd.
  destruct (folder_path p (bd, wd) false (fol_path fol)) as [bp wp] eqn:Hp.
  intros [= <- <-].
  assert (Hstart : uid_origin p (folder_add b) (parent_uid start))
    by (left; reflexivity).
  destruct (folder_path_tracked _ _ _ _ _ _ Hb Hstart Hd)
    as (Hbd & (more1 & Hmore1) & Hwd).
  destruct (folder_path_tracked _ _ _ _ _ _ Hbd Hwd Hp)
    as (Hbp & (more2 & Hmore2) & Hwp).
  split; [exact Hbp|]. split.
  - exists (more1 ++ more2). rewrite Hmore2, Hmore1, app_assoc. reflexivity.
  - exists (parent_uid wp). split; [reflexivity|exact Hwp].
Qed.

Lemma resolved_later (batch more : list request)
    (l l' : list ImportFolder) :
  Forall2 (fun fol fol' =>
             exists uid, fol' = resolved_to uid fol /\ uid_origin p batch uid) l l' ->
  Forall2 (fun fol fol' =>
             exists uid, fol' = resolved_to uid fol
                         /\ uid_origin p (batch ++ more) uid) l l'.
Proof.
  intros Hall. eapply Forall2_impl; [exact Hall|].
  intros fol fol' (uid & Heq & Horigin). exists uid.
  split; [exact Heq|apply uid_origin_later; exact Horigin].
Qed.

Lemma place_folders_tracked (folders : list ImportFolder) :
  forall (folders' : list ImportFolder) (b b1 : builder),
    tracked p d0 b ->
    place_folders p b folders = (b1, folders') ->
    tracked p d0 b1
    /\ (exists more, folder_add b1 = folder_add b ++ more)
    /\ Forall2 (fun fol fol' =>
                  exists uid, fol' = resolved_to uid fol
                              /\ uid_origin p (folder_add b1) uid)
               folders folders'.
Proof.
  induction folders as [|fol folders IH]; intros folders' b b1 Hb;
    cbn [place_folders].
  - intros [= <- <-]. split; [exact Hb|].
    split; [exists []; rewrite app_nil_r; reflexivity|constructor].
  - destruct (place_folder p b fol) as [bm fol1] eqn:Hfol.
    destruct (place_folders p bm folders) as [be rest1] eqn:Hrest.
    intros [= <- <-].
    destruct (place_folder_tracked _ _ _ _ Hb Hfol)
      as (Hbm & (more1 & Hmore1) & uid & Hres & Horigin).
    destruct (IH _ _ _ Hbm Hrest) as (Hbe & (more2 & Hmore2) & Hall).
    split; [exact Hbe|]. split.
    + exists (more1 ++ more2). rewrite Hmore2, Hmore1, app_assoc. reflexivity.
    + constructor; [|exact Hall]. exists uid. split; [exact Hres|].
      rewrite Hmore2. apply uid_origin_later. exact Horigin.
Qed.

Lemma with_folders_same (rec : ImportRecord) :
  rec = with_folders rec (rec_folders rec).
Proof. destruct rec. reflexivity. Qed.

Lemma place_records_tracked (records : list ImportRecord) :
  forall (records' : list ImportRecord) (b b1 : builder),
    tracked p d0 b ->
    place_records p b records = (b1, records') ->
    tracked p d0 b1
    /\ (exists more, folder_add b1 = folder_add b ++ more)
    /\ Forall2 (fun rec rec' =>
                  rec' = with_folders rec (rec_folders rec')
                  /\ Forall2 (fun fol fol' =>
                                exists uid, fol' = resolved_to uid fol
                                            /\ uid_origin p (folder_add b1) uid)
                             (declared_folders rec) (declared_folders rec'))
               records records'.
Proof.
  induction records as [|rec records IH]; intros records' b b1 Hb;
    cbn [place_records].
  - intros [= <- <-]. split; [exact Hb|].
    split; [exists []; rewrite app_nil_r; reflexivity|constructor].
  - destruct (rec_folders rec) as [[|fol folders]|] eqn:Hfolders.
    + destruct (place_records p b records) as [be rest1] eqn:Hrest.
      intros [= <- <-]. destruct (IH _ _ _ Hb Hrest) as (Hbe & Hmore & Hall).
      split; [exact Hbe|]. split; [exact Hmore|]. constructor; [|exact Hall].
      split; [apply with_folders_same|].
      unfold declared_folders. rewrite Hfolders. constructor.
    + destruct (place_folders p b (fol :: folders)) as [bm folders1] eqn:Hfols.
      destruct (place_records p bm records) as [be rest1] eqn:Hrest.
      intros [= <- <-].
      destruct (place_folders_tracked _ _ _ _ Hb Hfols)
        as (Hbm & (more1 & Hmore1) & Hall1).
      destruct (IH _ _ _ Hbm Hrest) as (Hbe & (more2 & Hmore2) & Hall2).
      split; [exact Hbe|]. split.
      * exists (more1 ++ more2). rewrite Hmore2, Hmore1, app_assoc. reflexivity.
      * constructor; [|exact Hall2]. split; [reflexivity|].
        unfold declared_folders at 1 2. rewrite Hfolders.
        cbn [default rec_folders with_folders].
        rewrite Hmore2. apply resolved_later. exact Hall1.
    + destruct (place_records p b records) as [be rest1] eqn:Hrest.
      intros [= <- <-]. destruct (IH _ _ _ Hb Hrest) as (Hbe & Hmore & Hall).
      split; [exact Hbe|]. split; [exact Hmore|]. constructor; [|exact Hall].
      split; [apply with_folders_same|].
      unfold declared_folders. rewrite Hfolders. constructor.
Qed.

(** X4.  [prepare_folder_add] makes only [folder_add] requests, one for each
    uid and each key that it draws, in the order of the draws.  It changes
    nothing of a record but the uids of its folders, and resolves every
    declared folder to the empty uid (no component to walk), to the uid of
    a cached folder or to the uid of a folder that one of its requests
    creates. *)
Theorem prepare_folder_add_resolves_every_folder
    (records records' : list ImportRecord) (adds : list request) (d' : draws) :
  prepare_folder_add p d0 records = (adds, records', d') ->
  (exists reqs,
      adds = map FolderAdd reqs
      /\ map fa_folder_uid reqs
         = map generate_record_uid (seq (uid_draws d0) (length reqs)))
  /\ uid_draws d' = uid_draws d0 + length adds
  /\ key_draws d' = key_draws d0 + length adds
  /\ Forall2 (fun rec rec' =>
                rec' = with_folders rec (rec_folders rec')
                /\ Forall2 (fun fol fol' =>
                              exists uid, fol' = resolved_to uid fol
                                          /\ uid_origin p adds uid)
                           (declared_folders rec) (declared_folders rec'))
             records records'.
Proof.
  unfold prepare_folder_add.
  destruct (place_records p
              {| folder_hash := build_folder_hash p; folder_add := [];
                 drawn := d0 |} records) as [b1 recs1] eqn:Hrun.
  intros [= <- <- <-].
  destruct (place_records_tracked _ _ _ _ tracked_initial Hrun)
    as ((reqs & Hadds & Huids & Hu & Hk & _) & _ & Hall).
  split; [exists reqs; split; assumption|].
  rewrite Hadds, length_map. rewrite Hadds in Hall.
  split; [exact Hu|]. split; [exact Hk|exact Hall].
Qed.

End Bookkeeping.

Lemma prepare_folder_add_resolves_every_folder_witness :
  exists adds records' d',
    prepare_folder_add (ext := scenario []) (vault (fun _ => [])) no_draws
                       (twice_imported ++ late_comers)
    = (adds, records', d')
    /\ created_uids adds = ["uid0"; "uid1"; "uid2"]
    /\ d' = {| uid_draws := 3; key_draws := 3 |}
    /\ Forall2 (fun rec rec' =>
                  rec' = with_folders rec (rec_folders rec')
                  /\ Forall2 (fun fol fol' =>
                                exists uid,
                                  fol' = resolved_to uid fol
                                  /\ uid_origin (vault (fun _ => [])) adds uid)
                             (declared_folders rec) (declared_folders rec'))
               (twice_imported ++ late_comers) records'.
Proof.
  destruct (prepare_folder_add (ext := scenario []) (vault (fun _ => []))
              no_draws (twice_imported ++ late_comers))
    as [[adds records'] d'] eqn:Hrun.
  destruct (prepare_folder_add_resolves_every_folder (ext := scenario [])
              (vault (fun _ => [])) no_draws _ _ _ _ Hrun)
    as (_ & _ & _ & Hall).
  exists adds, records', d'. split; [reflexivity|].
  vm_compute in Hrun. injection Hrun as <- <- <-.
  split; [reflexivity|]. split; [reflexivity|exact Hall].
Defined.

(** ** The record upserter: which records are added *)

Lemma fold_insert_last {A V : Type} (key : A -> string) (val : A -> V)
    (f : gmap string V -> A -> gmap string V)
    (l : list A) (m : gmap string V) (k : string) :
  (forall h e, f h e = <[ key e := val e ]> h) ->
  fold_left f l m !! k
  = match last (filter (fun e => key e = k) l) with
    | Some e => Some (val e)
    | None => m !! k
    end.
Proof.
  intros Hf.
  induction l as [|x l IH] using rev_ind; [reflexivity|].
  rewrite fold_left_app, filter_app. cbn [fold_left].
  rewrite filter_cons, filter_nil, Hf.
  destruct (decide (key x = k)) as [Heq|Hne].
  - rewrite last_snoc, Heq, lookup_insert_eq. reflexivity.
  - rewrite app_nil_r, lookup_insert_ne by exact Hne. exact IH.
Qed.

Lemma build_record_hash_known (p : params) (rec : ImportRecord) :
  build_record_hash p !! record_fingerprint rec = known_as p rec.
Proof.
  unfold build_record_hash, known_as.
  rewrite (fold_insert_last
             (fun e : string * vault_record => cached_fingerprint e.2) fst).
  2:{ intros h [uid r]. reflexivity. }
  rewrite lookup_empty. destruct (last _); reflexivity.
Qed.

Section UpsertedRecords.

Context {ext : Externals}.
Variable p : params.

Lemma new_record_uid_data (rec : ImportRecord) (d : draws) (req : record_add_rq) :
  new_record p rec d = Ret req ->
  ra_record_uid req = generate_record_uid (uid_draws d)
  /\ ra_data req = EncryptAes (record_data rec) (urandom (key_draws d)).
Proof.
  unfold new_record, item_opt.
  destruct (truthy (primary_folder_uid rec)); [|intros [= <-]; split; reflexivity].
  destruct (get_opt (primary_folder_uid rec) (folder_cache p)) as [folder|];
    [|intros [= <-]; split; reflexivity].
  destruct (is_shared_type (fn_type folder)); [|intros [= <-]; split; reflexivity].
  destruct (get_opt _ (shared_folder_cache p)) as [sf|]; cbn [py_bind];
    [|discriminate].
  intros [= <-]. split; reflexivity.
Qed.

Lemma known_as_with_uid (rec : ImportRecord) (uid : string) :
  known_as p (with_uid rec uid) = known_as p rec.
Proof. reflexivity. Qed.

Lemma assigned_later (req : record_add_rq) (reqs : list record_add_rq)
    (l l' : list ImportRecord) :
  Forall2 (assigned p reqs) l l' -> Forall2 (assigned p (req :: reqs)) l l'.
Proof.
  intros Hall. eapply Forall2_impl; [exact Hall|].
  intros rec rec' (uid & Heq & Hknown & Hnew). exists uid.
  split; [exact Heq|]. split; [exact Hknown|].
  intros Hnone. right. apply Hnew. exact Hnone.
Qed.

Lemma upsert_records_unknown (records : list ImportRecord) :
  forall (d d' : draws) (adds : list request) (records' : list ImportRecord),
    upsert_records p (build_record_hash p) d records = Ret (adds, records', d') ->
    exists reqs,
      adds = map RecordAdd reqs
      /\ map (fun req => (ra_record_uid req, ra_data req)) reqs
         = imap (fun i rec =>
                   (generate_record_uid (uid_draws d + i),
                    EncryptAes (record_data rec) (urandom (key_draws d + i))))
                (unknown_records p records)
      /\ uid_draws d' = uid_draws d + length reqs
      /\ key_draws d' = key_draws d + length reqs
      /\ Forall2 (assigned p reqs) records records'
      /\ omap rec_uid (unknown_records p records') = map ra_record_uid reqs.
Proof.
  induction records as [|rec rest IH]; intros d d' adds records' Hrun;
    cbn [upsert_records] in Hrun.
  - injection Hrun as <- <- <-. exists []. cbn.
    repeat split; try lia. constructor.
  - fold (record_fingerprint rec) in Hrun.
    rewrite build_record_hash_known in Hrun.
    unfold unknown_records. rewrite filter_cons.
    destruct (known_as p rec) as [record_uid|] eqn:Hknown.
    + destruct (upsert_records p _ d rest) as [[[adds1 rest1] d1]|e] eqn:Hrest;
        cbn [py_bind] in Hrun; [|discriminate].
      injection Hrun as <- <- <-.
      destruct (IH _ _ _ _ Hrest) as (reqs & Hadds & Hreqs & Hu & Hk & Hall & Huids).
      exists reqs. split; [exact Hadds|].
      rewrite decide_False by discriminate. split; [exact Hreqs|].
      split; [exact Hu|]. split; [exact Hk|]. split.
      * constructor; [|exact Hall]. exists record_uid.
        split; [reflexivity|]. split; [congruence|congruence].
      * rewrite filter_cons, known_as_with_uid, Hknown.
        rewrite decide_False by discriminate. exact Huids.
    + destruct (new_record p rec d) as [req|e] eqn:Hnew;
        cbn [py_bind] in Hrun; [|discriminate].
      destruct (upsert_records p _ _ rest) as [[[adds1 rest1] d1]|e] eqn:Hrest;
        cbn [py_bind] in Hrun; [|discriminate].
      injection Hrun as <- <- <-.
      destruct (IH _ _ _ _ Hrest) as (reqs & Hadds & Hreqs & Hu & Hk & Hall & Huids).
      destruct (new_record_uid_data _ _ _ Hnew) as [Huid Hdata].
      cbn [uid_draws key_draws] in Hreqs, Hu, Hk.
      exists (req :: reqs). split; [rewrite Hadds; reflexivity|].
      rewrite decide_True by reflexivity. split.
      * cbn [map imap]. rewrite Huid, Hdata, !Nat.add_0_r. f_equal.
        rewrite Hreqs. apply imap_ext. intros i x _. cbn.
        rewrite !Nat.add_succ_r. reflexivity.
      * cbn [length]. split; [lia|]. split; [lia|]. split.
        -- constructor; [|apply assigned_later; exact Hall].
           exists (ra_record_uid req). split; [reflexivity|].
           split; [congruence|]. intros _. left. reflexivity.
        -- rewrite filter_cons, known_as_with_uid, Hknown.
           rewrite decide_True by reflexivity.
           change (ra_record_uid req :: omap rec_uid (unknown_records p rest1)
                   = ra_record_uid req :: map ra_record_uid reqs).
           f_equal. exact Huids.
Qed.

Lemma new_record_raises (rec : ImportRecord) (d : draws) (e : exn) :
  new_record p rec d = Raise e <->
  truthy (primary_folder_uid rec) = true
  /\ exists folder,
       get_opt (primary_folder_uid rec) (folder_cache p) = Some folder
       /\ is_shared_type (fn_type folder) = true
       /\ get_opt (shared_folder_uid_of folder) (shared_folder_cache p) = None
       /\ e = KeyError (or_empty (shared_folder_uid_of folder)).
Proof.
  unfold new_record, item_opt.
  destruct (truthy (primary_folder_uid rec)).
  2:{ split; [discriminate|]. intros [Habs _]. discriminate. }
  destruct (get_opt (primary_folder_uid rec) (folder_cache p)) as [folder|].
  2:{ split; [discriminate|]. intros (_ & folder & Habs & _). discriminate. }
  fold (shared_folder_uid_of folder).
  destruct (is_shared_type (fn_type folder)) eqn:Hshared.
  2:{ split; [discriminate|]. intros (_ & folder' & [= <-] & Habs & _).
      congruence. }
  destruct (get_opt (shared_folder_uid_of folder) (shared_folder_cache p))
    as [sf|] eqn:Hsf; cbn [py_bind].
  - split; [discriminate|]. intros (_ & folder' & [= <-] & _ & Habs & _).
    congruence.
  - split.
    + intros [= <-]. split; [reflexivity|]. exists folder. repeat split; assumption.
    + intros (_ & folder' & [= <-] & _ & _ & ->). reflexivity.
Qed.

Lemma upsert_records_raises (records : list ImportRecord) :
  forall (d : draws),
    ((exists e, upsert_records p (build_record_hash p) d records = Raise e)
     <-> Exists (lacks_shared_folder p) records)
    /\ forall e, upsert_records p (build_record_hash p) d records = Raise e ->
                 exists key, e = KeyError key.
Proof.
  induction records as [|rec rest IH]; intros d; cbn [upsert_records].
  - split; [|discriminate]. split; [intros [e He]; discriminate|].
    intros Habs. inversion Habs.
  - fold (record_fingerprint rec). rewrite build_record_hash_known.
    destruct (known_as p rec) as [record_uid|] eqn:Hknown.
    + destruct (IH d) as [Hiff Hkey].
      destruct (upsert_records p _ d rest) as [[[adds1 rest1] d1]|e1];
        cbn [py_bind].
      * split; [|discriminate]. split; [intros [e He]; discriminate|].
        intros Hex. apply Exists_cons in Hex as [(Habs & _)|Hex]; [congruence|].
        apply Hiff in Hex. destruct Hex as [e He]. discriminate.
      * split; [|exact Hkey]. split.
        -- intros _. apply Exists_cons_tl. apply Hiff. exists e1. reflexivity.
        -- intros _. exists e1. reflexivity.
    + destruct (new_record p rec d) as [req|e0] eqn:Hnew; cbn [py_bind].
      * destruct (IH {| uid_draws := S (uid_draws d);
                        key_draws := S (key_draws d) |}) as [Hiff Hkey].
        destruct (upsert_records p _ _ rest) as [[[adds1 rest1] d1]|e1];
          cbn [py_bind].
        -- split; [|discriminate]. split; [intros [e He]; discriminate|].
           intros Hex. apply Exists_cons in Hex as [(_ & Htruthy & Hfolder)|Hex].
           ++ destruct Hfolder as (folder & Hget & Hshared & Hmissing).
              assert (Hraise : new_record p rec d
                               = Raise (KeyError (or_empty (shared_folder_uid_of folder)))).
              { apply new_record_raises. split; [exact Htruthy|].
                exists folder. repeat split; assumption. }
              congruence.
           ++ apply Hiff in Hex. destruct Hex as [e He]. discriminate.
        -- split; [|exact Hkey]. split.
           ++ intros _. apply Exists_cons_tl. apply Hiff. exists e1. reflexivity.
           ++ intros _. exists e1. reflexivity.
      * apply new_record_raises in Hnew
          as (Htruthy & folder & Hget & Hshared & Hmissing & ->).
        split.
        -- split; [|intros _; eexists; reflexivity].
           intros _. apply Exists_cons_hd. split; [exact Hknown|].
           split; [exact Htruthy|]. exists folder. repeat split; assumption.
        -- intros e [= <-]. eexists. reflexivity.
Qed.

(** X5.  [prepare_record_add] makes one [record_add] for each record of the
    import that no cached record has the fingerprint of, in the order of
    the import and without looking at the requests it has made: a record
    that occurs twice is added twice.  The n-th request carries the n-th
    uid and the n-th key drawn and the data of the n-th unknown record.
    Every record leaves with a uid: the uid of the last cached record with
    its fingerprint, or the uid of its own request. *)
Theorem prepare_record_add_adds_unknown_records
    (d d' : draws) (records records' : list ImportRecord) (adds : list request) :
  prepare_record_add p d records = Ret (adds, records', d') ->
  exists reqs,
    adds = map RecordAdd reqs
    /\ map (fun req => (ra_record_uid req, ra_data req)) reqs
       = imap (fun i rec =>
                 (generate_record_uid (uid_draws d + i),
                  EncryptAes (record_data rec) (urandom (key_draws d + i))))
              (unknown_records p records)
    /\ uid_draws d' = uid_draws d + length reqs
    /\ key_draws d' = key_draws d + length reqs
    /\ Forall2 (assigned p reqs) records records'
    /\ omap rec_uid (unknown_records p records') = map ra_record_uid reqs.
Proof. apply upsert_records_unknown. Qed.

(** X6.  [prepare_record_add] raises if and only if the import holds a record
    that no cached record has the fingerprint of and whose first folder is
    a cached folder of a shared type, the shared folder of which is not in
    [shared_folder_cache]; what it raises is a [KeyError]. *)
Theorem prepare_record_add_raises_for_missing_shared_folder
    (d : draws) (records : list ImportRecord) :
  ((exists e, prepare_record_add p d records = Raise e)
   <-> Exists (lacks_shared_folder p) records)
  /\ forall e, prepare_record_add p d records = Raise e ->
               exists key, e = KeyError key.
Proof. apply upsert_records_raises. Qed.

End UpsertedRecords.

Lemma prepare_record_add_adds_unknown_records_witness :
  exists adds records' d' reqs,
    prepare_record_add (ext := scenario []) (vault (fun _ => [])) no_draws
                       (twice_imported ++ new_records)
    = Ret (adds, records', d')
    /\ map rec_uid records'
       = [Some "R1"; Some "uid0"; Some "uid1"; Some "uid2"]
    /\ adds = map RecordAdd reqs
    /\ d' = {| uid_draws := 3; key_draws := 3 |}
    /\ Forall2 (assigned (vault (fun _ => [])) reqs)
               (twice_imported ++ new_records) records'.
Proof.
  destruct (prepare_record_add (ext := scenario []) (vault (fun _ => []))
              no_draws (twice_imported ++ new_records))
    as [[[adds records'] d']|e] eqn:Hrun; [|vm_compute in Hrun; discriminate].
  destruct (prepare_record_add_adds_unknown_records (ext := scenario [])
              (vault (fun _ => [])) no_draws d' (twice_imported ++ new_records)
              records' adds Hrun)
    as (reqs & Hadds & _ & Hu & Hk & Hall & _).
  exists adds, records', d', reqs. split; [reflexivity|].
  split; [vm_compute in Hrun; injection Hrun as _ <- _; reflexivity|].
  split; [exact Hadds|]. split; [|exact Hall].
  vm_compute in Hrun. injection Hrun as _ _ <-. reflexivity.
Defined.

(** ** The link relinker: which links are made *)

Lemma py_fold_emits {A B R : Type} (body : list R -> A -> py (list R))
    (f : A -> list B) (rel : B -> R -> Prop) :
  (forall s a s', body s a = Ret s' ->
                  exists more, s' = s ++ more /\ Forall2 rel (f a) more) ->
  forall xs s s',
    py_fold body xs s = Ret s' ->
    exists more, s' = s ++ more /\ Forall2 rel (flat_map f xs) more.
Proof.
  intros Hstep xs. induction xs as [|x xs IH]; intros s s' Hrun;
    cbn [py_fold flat_map] in *.
  - injection Hrun as <-. exists []. rewrite app_nil_r. split; [reflexivity|constructor].
  - destruct (body s x) as [s1|e] eqn:Hbody; cbn [py_bind] in Hrun; [|discriminate].
    destruct (Hstep _ _ _ Hbody) as (more1 & -> & Hall1).
    destruct (IH _ _ Hrun) as (more2 & -> & Hall2).
    exists (more1 ++ more2). rewrite app_assoc. split; [reflexivity|].
    apply Forall2_app; assumption.
Qed.

Lemma py_fold_raises {A B S : Type} (body : S -> A -> py S)
    (f : A -> list B) (U : B -> Prop) :
  (forall s a, (exists e, body s a = Raise e) <-> Exists U (f a)) ->
  forall xs s,
    (exists e, py_fold body xs s = Raise e) <-> Exists U (flat_map f xs).
Proof.
  intros Hstep xs. induction xs as [|x xs IH]; intros s; cbn [py_fold flat_map].
  - split; [intros [e He]; discriminate|intros Habs; inversion Habs].
  - rewrite Exists_app. specialize (Hstep s x).
    destruct (body s x) as [s1|e1]; cbn [py_bind].
    + rewrite IH. split; [tauto|]. intros [Habs|Hex]; [|exact Hex].
      apply Hstep in Habs as [e He]. discriminate.
    + split; [|intros _; exists e1; reflexivity].
      intros _. left. apply Hstep. exists e1. reflexivity.
Qed.

Lemma py_fold_raised {A S : Type} (body : S -> A -> py S) (Q : exn -> Prop) :
  (forall s a e, body s a = Raise e -> Q e) ->
  forall xs s e, py_fold body xs s = Raise e -> Q e.
Proof.
  intros Hstep xs. induction xs as [|x xs IH]; intros s e Hrun;
    cbn [py_fold] in Hrun; [discriminate|].
  destruct (body s x) as [s1|e1] eqn:Hbody; cbn [py_bind] in Hrun.
  - eapply IH. exact Hrun.
  - injection Hrun as <-. eapply Hstep. exact Hbody.
Qed.

Section MissingLinks.

Variable p : params.

Lemma transition_key_raises (record_key : string) (src dst : folder_node) :
  ((exists e, transition_key p record_key src dst = Raise e)
   <-> is_shared_type (fn_type dst) = true
       /\ (is_shared_type (fn_type src) = true ->
           shared_folder_of src <> shared_folder_of dst)
       /\ get_opt (shared_folder_of dst) (shared_folder_cache p) = None)
  /\ forall e, transition_key p record_key src dst = Raise e ->
               exists key, e = KeyError key.
Proof.
  unfold transition_key, item_opt.
  destruct (is_shared_type (fn_type src)), (is_shared_type (fn_type dst)).
  - destruct (decide (shared_folder_of src <> shared_folder_of dst)) as [Hne|Heq].
    + destruct (get_opt (shared_folder_of dst) (shared_folder_cache p));
        cbn [py_bind].
      * split; [|discriminate]. split; [intros [e He]; discriminate|].
        intros (_ & _ & Habs). discriminate.
      * split; [|intros e [= <-]; eexists; reflexivity].
        split; [|intros _; eexists; reflexivity].
        intros _. split; [reflexivity|]. split; [intros _; exact Hne|reflexivity].
    + split; [|discriminate]. split; [intros [e He]; discriminate|].
      intros (_ & Hne & _). exfalso. apply Heq. apply Hne. reflexivity.
  - split; [|discriminate]. split; [intros [e He]; discriminate|].
    intros (Habs & _). discriminate.
  - destruct (get_opt (shared_folder_of dst) (shared_folder_cache p));
      cbn [py_bind].
    + split; [|discriminate]. split; [intros [e He]; discriminate|].
      intros (_ & _ & Habs). discriminate.
    + split; [|intros e [= <-]; eexists; reflexivity].
      split; [|intros _; eexists; reflexivity].
      intros _. split; [reflexivity|]. split; [discriminate|reflexivity].
  - split; [|discriminate]. split; [intros [e He]; discriminate|].
    intros (Habs & _). discriminate.
Qed.

Lemma link_request_links (uid : string) (record : vault_record)
    (first dst_uid : string) (rest : list string) (req : move_rq) :
  find_folders p uid = first :: rest ->
  link_request p uid record first dst_uid = Ret req ->
  links_into p (uid, dst_uid) (Move req).
Proof.
  intros Hids. unfold link_request, Dict.item.
  destruct (Dict.get first (folder_cache p)) as [src|] eqn:Hsrc;
    cbn [py_bind]; [|discriminate].
  destruct (Dict.get dst_uid (folder_cache p)) as [dst|] eqn:Hdst;
    cbn [py_bind]; [|discriminate].
  destruct (transition_key p (vr_record_key_unencrypted record) src dst)
    as [key|e]; cbn [py_bind]; [|discriminate].
  intros [= <-]. eexists _, first, rest, src, dst.
  split; [reflexivity|]. repeat split; assumption.
Qed.

Lemma link_request_raises (uid : string) (record : vault_record)
    (first dst_uid : string) (rest : list string) :
  find_folders p uid = first :: rest ->
  Dict.mem dst_uid (folder_cache p) = true ->
  ((exists e, link_request p uid record first dst_uid = Raise e)
   <-> unlinkable p (uid, dst_uid))
  /\ forall e, link_request p uid record first dst_uid = Raise e ->
               exists key, e = KeyError key.
Proof.
  intros Hids Hmem. unfold unlinkable, link_request, Dict.item, Dict.mem in *.
  cbn [fst snd]. rewrite Hids.
  destruct (Dict.get first (folder_cache p)) as [src|]; cbn [py_bind].
  2:{ split; [|intros e [= <-]; eexists; reflexivity].
      split; [intros _; exact I|intros _; eexists; reflexivity]. }
  destruct (Dict.get dst_uid (folder_cache p)) as [dst|]; [|discriminate].
  cbn [py_bind].
  destruct (transition_key_raises (vr_record_key_unencrypted record) src dst)
    as [Hiff Hkey].
  destruct (transition_key p (vr_record_key_unencrypted record) src dst)
    as [key|e]; cbn [py_bind].
  - split; [|discriminate]. split; [intros [e He]; discriminate|].
    intros Hun. apply Hiff in Hun as [e He]. discriminate.
  - split; [|intros e0 [= <-]; apply Hkey; reflexivity].
    split; [|intros _; eexists; reflexivity].
    intros _. apply Hiff. eexists. reflexivity.
Qed.

Lemma link_folders_links (uid : string) (record : vault_record)
    (first : string) (rest : list string) (folders : list ImportFolder) :
  find_folders p uid = first :: rest ->
  forall links links',
    py_fold (link_folder p uid record (first :: rest)) folders links = Ret links' ->
    exists more,
      links' = links ++ more
      /\ Forall2 (links_into p)
                 (map (pair uid)
                      (filter (fun dst_uid =>
                                 dst_uid <> ""
                                 /\ Dict.mem dst_uid (folder_cache p) = true
                                 /\ dst_uid ∉ first :: rest)
                              (omap fol_uid folders)))
                 more.
Proof.
  intros Hids. induction folders as [|fol folders IH]; intros links links' Hrun;
    cbn [py_fold] in Hrun.
  - injection Hrun as <-. exists []. rewrite app_nil_r.
    split; [reflexivity|constructor].
  - unfold link_folder at 1 in Hrun. cbn [omap list_omap].
    destruct (fol_uid fol) as [dst_uid|]; [|cbn [py_bind] in Hrun; auto].
    fold (omap fol_uid folders). rewrite filter_cons.
    destruct (String.eqb_spec dst_uid "") as [Hempty|Hempty];
      cbn [negb andb] in Hrun.
    { cbn [py_bind] in Hrun. rewrite decide_False by tauto. auto. }
    destruct (Dict.mem dst_uid (folder_cache p)) eqn:Hmem.
    2:{ cbn [py_bind] in Hrun. rewrite decide_False by (intros (_ & ? & _); congruence).
        auto. }
    destruct (bool_decide_reflect (dst_uid ∈ first :: rest)) as [Hin|Hout].
    { cbn [py_bind] in Hrun. rewrite decide_False by tauto. auto. }
    rewrite decide_True by tauto.
    destruct (link_request p uid record first dst_uid) as [req|e] eqn:Hreq;
      cbn [py_bind] in Hrun; [|discriminate].
    destruct (IH _ _ Hrun) as (more & -> & Hall).
    exists (Move req :: more). rewrite <- app_assoc. split; [reflexivity|].
    cbn [map]. constructor; [|exact Hall].
    eapply link_request_links; eassumption.
Qed.

Lemma link_folders_raises (uid : string) (record : vault_record)
    (first : string) (rest : list string) (folders : list ImportFolder) :
  find_folders p uid = first :: rest ->
  forall links,
    ((exists e, py_fold (link_folder p uid record (first :: rest)) folders links
                = Raise e)
     <-> Exists (unlinkable p)
                (map (pair uid)
                     (filter (fun dst_uid =>
                                dst_uid <> ""
                                /\ Dict.mem dst_uid (folder_cache p) = true
                                /\ dst_uid ∉ first :: rest)
                             (omap fol_uid folders))))
    /\ forall e, py_fold (link_folder p uid record (first :: rest)) folders links
                 = Raise e ->
                 exists key, e = KeyError key.
Proof.
  intros Hids. induction folders as [|fol folders IH]; intros links;
    cbn [py_fold].
  - split; [|discriminate].
    split; [intros [e He]; discriminate|intros Habs; inversion Habs].
  - unfold link_folder at 1 3. cbn [omap list_omap].
    destruct (fol_uid fol) as [dst_uid|]; [|cbn [py_bind]; apply IH].
    fold (omap fol_uid folders). rewrite filter_cons.
    destruct (String.eqb_spec dst_uid "") as [Hempty|Hempty]; cbn [negb andb].
    { cbn [py_bind]. rewrite decide_False by tauto. apply IH. }
    destruct (Dict.mem dst_uid (folder_cache p)) eqn:Hmem.
    2:{ cbn [py_bind]. rewrite decide_False by (intros (_ & ? & _); congruence).
        apply IH. }
    destruct (bool_decide_reflect (dst_uid ∈ first :: rest)) as [Hin|Hout].
    { cbn [py_bind]. rewrite decide_False by tauto. apply IH. }
    rewrite decide_True by tauto. cbn [map]. rewrite Exists_cons.
    destruct (link_request_raises uid record first dst_uid rest Hids Hmem)
      as [Hiff Hkey].
    destruct (link_request p uid record first dst_uid) as [req|e0];
      cbn [py_bind].
    + destruct (IH (links ++ [Move req])) as [IHiff IHkey].
      split; [|exact IHkey]. rewrite IHiff. split; [tauto|].
      intros [Hun|Hex]; [|exact Hex]. apply Hiff in Hun as [e He]. discriminate.
    + split; [|intros e [= <-]; apply Hkey; reflexivity].
      split; [|intros _; eexists; reflexivity].
      intros _. left. apply Hiff. eexists. reflexivity.
Qed.

Lemma link_folders_unheld (uid : string) (record : vault_record)
    (folders : list ImportFolder) (links : list request) :
  py_fold (link_folder p uid record []) folders links = Ret links.
Proof.
  induction folders as [|fol folders IH]; cbn [py_fold]; [reflexivity|].
  unfold link_folder at 1. destruct (fol_uid fol) as [dst_uid|]; [|exact IH].
  destruct (negb (String.eqb dst_uid "") && Dict.mem dst_uid (folder_cache p));
    exact IH.
Qed.

Lemma missing_links_no_folder (rec : ImportRecord) :
  declared_folders rec = [] -> missing_links p rec = [].
Proof.
  intros Hnone. unfold missing_links. rewrite Hnone.
  destruct (rec_uid rec) as [uid|]; [|reflexivity].
  destruct (negb (String.eqb uid "") && Dict.mem uid (record_cache p));
    [|reflexivity].
  destruct (find_folders p uid); reflexivity.
Qed.

(** What one record adds and when it raises, against [missing_links]. *)
Lemma link_record_links (links : list request) (rec : ImportRecord) :
  (forall links',
      link_record p links rec = Ret links' ->
      exists more, links' = links ++ more
                   /\ Forall2 (links_into p) (missing_links p rec) more)
  /\ ((exists e, link_record p links rec = Raise e)
      <-> Exists (unlinkable p) (missing_links p rec))
  /\ forall e, link_record p links rec = Raise e -> exists key, e = KeyError key.
Proof.
  assert (Hskip : missing_links p rec = [] ->
            (forall links',
                Ret links = Ret links' ->
                exists more, links' = links ++ more
                             /\ Forall2 (links_into p) (missing_links p rec) more)
            /\ ((exists e, Ret links = Raise e)
                <-> Exists (unlinkable p) (missing_links p rec))
            /\ forall e, Ret links = Raise e -> exists key, e = KeyError key).
  { intros ->. split; [|split; [|discriminate]].
    - intros links' [= <-]. exists []. rewrite app_nil_r.
      split; [reflexivity|constructor].
    - split; [intros [e He]; discriminate|intros Habs; inversion Habs]. }
  unfold link_record.
  destruct (rec_folders rec) as [[|fol folders]|] eqn:Hfolders.
  - apply Hskip. apply missing_links_no_folder.
    unfold declared_folders. rewrite Hfolders. reflexivity.
  - assert (Hdeclared : declared_folders rec = fol :: folders).
    { unfold declared_folders. rewrite Hfolders. reflexivity. }
    destruct (rec_uid rec) as [uid|] eqn:Huid.
    2:{ apply Hskip. unfold missing_links. rewrite Huid. reflexivity. }
    destruct (String.eqb uid "") eqn:Hempty.
    { apply Hskip. unfold missing_links. rewrite Huid, Hempty. reflexivity. }
    destruct (Dict.get uid (record_cache p)) as [record|] eqn:Hrecord.
    2:{ apply Hskip. unfold missing_links, Dict.mem.
        rewrite Huid, Hempty, Hrecord. reflexivity. }
    assert (Hlinks : missing_links p rec
                     = match find_folders p uid with
                       | [] => []
                       | folder_ids =>
                           map (pair uid)
                               (filter (fun dst_uid =>
                                          dst_uid <> ""
                                          /\ Dict.mem dst_uid (folder_cache p) = true
                                          /\ dst_uid ∉ folder_ids)
                                       (omap fol_uid (fol :: folders)))
                       end).
    { unfold missing_links, Dict.mem.
      rewrite Huid, Hempty, Hrecord, Hdeclared. reflexivity. }
    destruct (find_folders p uid) as [|first rest] eqn:Hids.
    + rewrite link_folders_unheld. apply Hskip. exact Hlinks.
    + rewrite Hlinks. split; [|apply link_folders_raises; exact Hids].
      intros links'. apply link_folders_links. exact Hids.
  - apply Hskip. apply missing_links_no_folder.
    unfold declared_folders. rewrite Hfolders. reflexivity.
Qed.

(** X7.  [prepare_record_link] makes, in the order of the import, one [move]
    request for each declared folder of a cached record that is resolved to
    a cached folder which does not hold the record, provided some folder
    holds it; the request links the record from the first folder that
    holds it.  It makes no other request: a record that no folder holds, or
    a folder that already holds the record, gets none, and a folder that is
    declared twice gets two. *)
Theorem prepare_record_link_links_missing_folders
    (records : list ImportRecord) (links : list request) :
  prepare_record_link p records = Ret links ->
  Forall2 (links_into p) (flat_map (missing_links p) records) links.
Proof.
  unfold prepare_record_link. intros Hrun.
  destruct (py_fold_emits (link_record p) (missing_links p) (links_into p))
    with (xs := records) (s := @nil request) (s' := links)
    as (more & -> & Hall); [|exact Hrun|exact Hall].
  intros s rec s'. apply link_record_links.
Qed.

(** X8.  [prepare_record_link] raises if and only if one of the links it has
    to make cannot be made: the first folder that holds the record is not
    in [folder_cache], or the key of the shared folder of the destination
    is needed and is not in [shared_folder_cache].  What it raises is a
    [KeyError], and no request of the run is returned. *)
Theorem prepare_record_link_raises_for_unlinkable (records : list ImportRecord) :
  ((exists e, prepare_record_link p records = Raise e)
   <-> Exists (unlinkable p) (flat_map (missing_links p) records))
  /\ forall e, prepare_record_link p records = Raise e ->
               exists key, e = KeyError key.
Proof.
  unfold prepare_record_link. split.
  - apply py_fold_raises. intros s rec. apply link_record_links.
  - apply (py_fold_raised (link_record p) (fun e => exists key, e = KeyError key)).
    intros s rec. apply link_record_links.
Qed.

End MissingLinks.

Lemma prepare_record_link_links_missing_folders_witness :
  exists links,
    prepare_record_link (vault (fun _ => ["SFF1"])) [relinked_record] = Ret links
    /\ flat_map (missing_links (vault (fun _ => ["SFF1"]))) [relinked_record]
       = [("R1", "SF1"); ("R1", "SF2"); ("R1", "F1")]
    /\ Forall2 (links_into (vault (fun _ => ["SFF1"])))
               (flat_map (missing_links (vault (fun _ => ["SFF1"])))
                         [relinked_record])
               links.
Proof.
  destruct (prepare_record_link (vault (fun _ => ["SFF1"])) [relinked_record])
    as [links|e] eqn:Hrun; [|vm_compute in Hrun; discriminate].
  exists links. split; [reflexivity|]. split; [vm_compute; reflexivity|].
  apply (prepare_record_link_links_missing_folders
           (vault (fun _ => ["SFF1"])) [relinked_record] links Hrun).
Defined.

(** ** The permission reconciler: every difference is updated *)

Section EveryDifference.

Variable p : params.

(** X9.  [prepare_record_permission] makes the request for every declared
    folder of a cached record whose live entry differs from what is
    declared.  A folder that declares no [can_share] or no [can_edit]
    ([None]) differs from every live entry, so that the request is made,
    and carries [None], whatever the live entry says. *)
Theorem prepare_record_permission_updates_every_difference
    (records : list ImportRecord) (rec : ImportRecord) (uid sf_uid : string)
    (fol : ImportFolder) (sfr : sf_record) :
  In rec records ->
  rec_uid rec = Some uid ->
  uid <> "" ->
  Dict.mem uid (record_cache p) = true ->
  In fol (declared_folders rec) ->
  live_entry p uid fol = Some (sf_uid, sfr) ->
  fol_can_share fol <> Some (sfr_can_share sfr)
  \/ fol_can_edit fol <> Some (sfr_can_edit sfr) ->
  In (record_update uid sf_uid fol) (prepare_record_permission p records).
Proof.
  intros Hrec Huid Hempty Hcached Hfol Hlive Hdiffers.
  unfold prepare_record_permission. apply in_concat.
  exists (record_permissions p rec). split; [apply in_map; exact Hrec|].
  unfold record_permissions, declared_folders in *.
  destruct (rec_folders rec) as [[|fol0 folders]|]; try (destruct Hfol; fail).
  cbn [default] in Hfol. rewrite Huid, Hcached.
  apply String.eqb_neq in Hempty. rewrite Hempty. cbn [negb andb].
  apply in_concat. exists (folder_permission p uid fol).
  split; [apply in_map; exact Hfol|].
  rewrite folder_permission_live, Hlive.
  destruct (bool_decide_reflect (Some (sfr_can_share sfr) = fol_can_share fol))
    as [Hs|Hs];
    destruct (bool_decide_reflect (Some (sfr_can_edit sfr) = fol_can_edit fol))
      as [He|He]; cbn [negb orb]; try (left; reflexivity).
  destruct Hdiffers as [Habs|Habs]; exfalso; apply Habs; congruence.
Qed.

End EveryDifference.

Lemma prepare_record_permission_updates_every_difference_witness :
  In (SharedFolderUpdate
        {| su_shared_folder_uid := "SF1";
           su_defaults := None;
           su_add_teams := None;
           su_add_users := None;
           su_update_records :=
             Some [ {| rg_record_uid := "R1";
                       rg_shared_folder_uid := "SF1";
                       rg_can_edit := None;
                       rg_can_share := None |} ] |})
     (prepare_record_permission (vault (fun _ => ["SFF1"])) [relinked_record]).
Proof.
  apply (prepare_record_permission_updates_every_difference
           (vault (fun _ => ["SFF1"])) [relinked_record] relinked_record
           "R1" "SF1" (in_folder (Some "SF1") None None)
           (SfRecord "R1" false true)).
  - left. reflexivity.
  - reflexivity.
  - discriminate.
  - reflexivity.
  - left. reflexivity.
  - reflexivity.
  - left. discriminate.
Defined.

(** ** Shared folders of an import: where they are created *)

Lemma last_only_indexed (comps : list string) :
  last_only (indexed_components comps).
Proof.
  unfold indexed_components.
  assert (Hgen : forall n k m, k + n <= m + 1 ->
            last_only (map (fun i => (Nat.eqb i m, nth i comps "")) (seq k n))).
  { induction n as [|n IH]; intros k m Hle; cbn [seq map last_only]; [exact I|].
    split; [|apply IH; lia].
    intros Heq. apply Nat.eqb_eq in Heq. subst m.
    destruct n; [reflexivity|lia]. }
  apply Hgen. lia.
Qed.

Lemma build_folder_hash_entries (p : params) (digest uid : string)
    (type : folder_type) (key : option string) :
  build_folder_hash p !! digest = Some (uid, type, key) ->
  exists fol, In (uid, fol) (folder_cache p) /\ fn_type fol = type.
Proof.
  unfold build_folder_hash.
  assert (Hgen : forall l (h : gmap string hash_entry),
             fold_left
               (fun h '(f_uid, fol) =>
                  <[ folder_digest (or_empty (fn_name fol))
                                   (or_empty (fn_parent_uid fol))
                     := (f_uid, fn_type fol, cached_shared_folder_key p fol) ]> h)
               l h !! digest = Some (uid, type, key) ->
             h !! digest = Some (uid, type, key)
             \/ exists fol, In (uid, fol) l /\ fn_type fol = type).
  { induction l as [|[uid' fol] l IH]; intros h; simpl; [auto|].
    intros Hl. apply IH in Hl as [Hh|(fol' & Hin & Htype)]; [|eauto].
    apply lookup_insert_Some in Hh as [[_ [= <- <- _]]|[_ Hh]]; eauto. }
  intros Hl. apply Hgen in Hl as [Hempty|Hin]; [|exact Hin].
  rewrite lookup_empty in Hempty. discriminate.
Qed.

Section PlacedRequests.

Context {ext : Externals}.
Variable p : params.

Lemma known_folder_later (batch more : list request) (uid : string)
    (type : folder_type) :
  known_folder p batch uid type -> known_folder p (batch ++ more) uid type.
Proof.
  intros [Hcached|(rq & Hin & Huid & Htype)]; [left; exact Hcached|].
  right. exists rq. split; [apply in_or_app; left; exact Hin|].
  split; assumption.
Qed.

Lemma well_placed_snoc (batch : list request) (rq : request) :
  well_placed p batch -> placed p batch rq -> well_placed p (batch ++ [rq]).
Proof.
  intros Hbatch Hrq earlier rq' later Heq.
  destruct later as [|x later _] using rev_ind.
  - apply app_inj_tail in Heq as [<- <-]. exact Hrq.
  - rewrite app_comm_cons, app_assoc in Heq.
    apply app_inj_tail in Heq as [Heq _].
    eapply Hbatch. exact Heq.
Qed.

Lemma shared_path_placed (comps : list (bool * string)) :
  last_only comps ->
  forall (b b' : builder) (w w' : sf_walk) (skip_folder : bool),
    sound_shared_builder p b -> walk_known p b w -> walk_in_user_folder w ->
    shared_path p b w comps = (b', w', skip_folder) ->
    sound_shared_builder p b' /\ walk_known p b' w'.
Proof.
  induction comps as [|[is_last comp] rest IH];
    intros Hlast b b' w w' skip_folder Hb Hw Hin; cbn [shared_path].
  - intros [= <- <- <-]. split; assumption.
  - destruct Hlast as [Hrest Hlast].
    destruct (folder_hash b !! folder_digest comp (sfw_parent_uid w))
      as [[[uid type] key]|] eqn:Hfound.
    + assert (Hw1 : walk_known p b {| sfw_parent_uid := uid;
                                      sfw_parent_type := Some type;
                                      sfw_parent_key := key |}).
      { intros type' [= <-]. cbn. eapply (proj1 Hb). exact Hfound. }
      destruct is_last.
      * rewrite (Hrest eq_refl). cbn [shared_path].
        destruct (negb (bool_decide (type = SharedFolderType)));
          intros [= <- <- <-]; split; assumption.
      * destruct (bool_decide_reflect (type = UserFolderType)) as [->|Htype];
          cbn [negb].
        -- apply IH; try assumption. right. reflexivity.
        -- intros [= <- <- <-]. split; assumption.
    + unfold new_shared_path_folder.
      set (rq := {| fa_folder_uid := generate_record_uid (uid_draws (drawn b));
                    fa_folder_type := if is_last then SharedFolderType
                                      else UserFolderType |}).
      cbn [fa_folder_uid fa_folder_type sfw_parent_key].
      set (b1 := {| folder_hash := _; folder_add := folder_add b ++ [FolderAdd rq] |}).
      set (w1 := {| sfw_parent_uid := generate_record_uid (uid_draws (drawn b)) |}).
      assert (Hnew : known_folder p (folder_add b1) (fa_folder_uid rq)
                                  (fa_folder_type rq)).
      { right. exists rq. split; [|split; reflexivity].
        apply in_or_app. right. left. reflexivity. }
      assert (Hb1 : sound_shared_builder p b1).
      { split.
        - intros digest uid type key Hl. subst b1. cbn [folder_hash folder_add] in *.
          apply lookup_insert_Some in Hl as [[_ [= <- <- _]]|[_ Hl]].
          + exact Hnew.
          + apply known_folder_later. eapply (proj1 Hb). exact Hl.
        - subst b1. cbn [folder_add]. apply well_placed_snoc; [exact (proj2 Hb)|].
          subst rq. cbn.
          split; [destruct is_last; auto|]. split; [reflexivity|].
          split; [eexists; reflexivity|].
          destruct (String.eqb_spec (sfw_parent_uid w) "") as [Hroot|Hroot];
            [exact I|].
          destruct Hin as [Habs|Htype]; [contradiction|].
          apply Hw. exact Htype. }
      assert (Hw1 : walk_known p b1 w1).
      { intros type [= <-]. exact Hnew. }
      destruct is_last.
      * rewrite (Hrest eq_refl). cbn [shared_path].
        intros [= <- <- <-]. split; assumption.
      * apply IH; try assumption. right. reflexivity.
Qed.

Lemma add_permission_shared_folder_uid (emails : Dict.t (option string))
    (parent_key : option string) (request request' : shared_folder_update_rq)
    (perm : ImportPermission) :
  add_permission p emails parent_key request perm = Ret request' ->
  su_shared_folder_uid request' = su_shared_folder_uid request.
Proof.
  unfold add_permission.
  destruct (resolve_grantee p perm) as [[[|] uid]|e]; cbn [py_bind];
    [| |discriminate].
  - unfold add_team. destruct (truthy uid); [|intros [= <-]; reflexivity].
    destruct (get_opt uid (team_cache p)) as [team|]; [|intros [= <-]; reflexivity].
    destruct (wrap_aes parent_key (team_key team)); cbn [py_bind];
      [|discriminate].
    intros [= <-]. reflexivity.
  - unfold add_user.
    destruct (String.eqb (lower (perm_name perm)) (lower (user p))).
    + destruct (wrap_aes parent_key (data_key p)); cbn [py_bind]; [|discriminate].
      intros [= <-]. reflexivity.
    + destruct (Dict.get (lower (perm_name perm)) emails) as [public_key|];
        [|intros [= <-]; reflexivity].
      destruct (truthy public_key); [|intros [= <-]; reflexivity].
      destruct (import_key (or_empty public_key)) as [rsa_key|];
        cbn [py_bind try_except]; [|intros [= <-]; reflexivity].
      destruct (wrap_rsa parent_key rsa_key); cbn [py_bind try_except];
        intros [= <-]; reflexivity.
Qed.

Lemma add_shared_folder_placed (emails : Dict.t (option string))
    (b b' : builder) (fol : ImportSharedFolder) :
  sound_shared_builder p b ->
  add_shared_folder p emails b fol = Ret b' ->
  sound_shared_builder p b'.
Proof.
  intros Hb. unfold add_shared_folder.
  destruct (shared_path p b sf_start
              (indexed_components (path_components (isf_path fol))))
    as [[b1 w] skip_folder] eqn:Hpath.
  destruct (shared_path_placed
              (indexed_components (path_components (isf_path fol)))
              (last_only_indexed _) b b1 sf_start w skip_folder Hb)
    as [Hb1 Hw]; [discriminate|left; reflexivity|exact Hpath|].
  destruct (negb skip_folder
            && bool_decide (sfw_parent_type w = Some SharedFolderType)) eqn:Hupdate;
    [|intros [= <-]; exact Hb1].
  apply andb_true_iff in Hupdate as [_ Htype]. apply bool_decide_eq_true in Htype.
  match goal with
  | |- context [py_fold ?body ?perms ?request] =>
      destruct (py_fold body perms request) as [request'|e] eqn:Hloop;
      cbn [py_bind]; [|discriminate];
      assert (Huid : su_shared_folder_uid request' = sfw_parent_uid w)
  end.
  { revert Hloop.
    apply (py_fold_invariant _
             (fun rq => su_shared_folder_uid rq = sfw_parent_uid w));
      [|reflexivity].
    intros s perm s' Hs Hstep.
    rewrite (add_permission_shared_folder_uid _ _ _ _ _ Hstep). exact Hs. }
  intros [= <-]. split; cbn [folder_hash folder_add].
  - intros digest uid type key Hl. apply known_folder_later.
    eapply (proj1 Hb1). exact Hl.
  - apply well_placed_snoc; [exact (proj2 Hb1)|]. cbn [placed].
    rewrite Huid. apply Hw. exact Htype.
Qed.

(** X10.  Every request of [prepare_shared_folder_add] is a [folder_add] or a
    [shared_folder_update].  A folder it creates is a user folder or a
    shared folder, never a folder of a shared folder; it has a key of its
    own under the vault master key and lies in the root or in a user
    folder that is cached or created earlier in the batch.  An update is
    for a shared folder that is cached or created earlier in the batch. *)
Theorem prepare_shared_folder_add_never_nests
    (d d' : draws) (folders : list ImportSharedFolder) (adds : list request) :
  prepare_shared_folder_add p d folders = Ret (adds, d') ->
  forall earlier rq later,
    adds = earlier ++ rq :: later -> placed p earlier rq.
Proof.
  unfold prepare_shared_folder_add.
  match goal with
  | |- context [py_fold ?body folders ?b0] =>
      destruct (py_fold body folders b0) as [b|e] eqn:Hrun;
      cbn [py_bind]; [|discriminate];
      assert (Hb : sound_shared_builder p b)
  end.
  { revert Hrun. apply (py_fold_invariant _ (sound_shared_builder p)).
    - intros s fol s' Hs Hstep. eapply add_shared_folder_placed; eassumption.
    - split; cbn [folder_hash folder_add].
      + intros digest uid type key Hl. left.
        eapply build_folder_hash_entries. exact Hl.
      + intros earlier rq later Heq. destruct earlier; discriminate. }
  intros [= <- <-]. exact (proj2 Hb).
Qed.

End PlacedRequests.

Lemma prepare_shared_folder_add_never_nests_witness :
  exists adds d' created shared update,
    prepare_shared_folder_add (ext := scenario directory) (vault (fun _ => []))
                              no_draws [nested_shared_folder]
    = Ret (adds, d')
    /\ adds = [FolderAdd created; FolderAdd shared; SharedFolderUpdate update]
    /\ placed (vault (fun _ => [])) [FolderAdd created] (FolderAdd shared)
    /\ placed (vault (fun _ => [])) [FolderAdd created; FolderAdd shared]
              (SharedFolderUpdate update).
Proof.
  destruct (prepare_shared_folder_add (ext := scenario directory)
              (vault (fun _ => [])) no_draws [nested_shared_folder])
    as [[adds d']|e] eqn:Hrun; [|vm_compute in Hrun; discriminate].
  pose proof (prepare_shared_folder_add_never_nests (ext := scenario directory)
                (vault (fun _ => [])) no_draws d' [nested_shared_folder] adds
                Hrun) as Hplaced.
  vm_compute in Hrun. injection Hrun as <- <-.
  eexists _, _, _, _, _. split; [reflexivity|]. split; [reflexivity|].
  split.
  - refine (Hplaced [_] _ [_] eq_refl).
  - refine (Hplaced [_; _] _ [] eq_refl).
Defined.

(** ** The folder tree builder: parents before children *)

Lemma each_after_snoc (P : list request -> request -> Prop)
    (batch : list request) (rq : request) :
  each_after P batch -> P batch rq -> each_after P (batch ++ [rq]).
Proof.
  intros Hbatch Hrq earlier rq' later Heq.
  destruct later as [|x later _] using rev_ind.
  - apply app_inj_tail in Heq as [<- <-]. exact Hrq.
  - rewrite app_comm_cons, app_assoc in Heq.
    apply app_inj_tail in Heq as [Heq _].
    eapply Hbatch. exact Heq.
Qed.

Section ParentsFirst.

Context {ext : Externals}.
Variable p : params.

Lemma walk_placed_later (b b1 : builder) (w : walk) (more : list request) :
  folder_add b1 = folder_add b ++ more ->
  walk_placed p b w -> walk_placed p b1 w.
Proof.
  intros Hmore [Hat Hsf]. split.
  - destruct Hat as [Hroot|Hknown]; [left; exact Hroot|right].
    rewrite Hmore. apply known_folder_later. exact Hknown.
  - intros sf Heq. rewrite Hmore. apply known_folder_later. apply Hsf. exact Heq.
Qed.

Lemma enter_shared_folder_placed (b : builder) (w : walk) :
  walk_placed p b w -> walk_placed p b (enter_shared_folder w).
Proof.
  intros [Hat Hsf]. unfold enter_shared_folder.
  destruct (decide (parent_type w = SharedFolderType)) as [Htype|Htype];
    [|split; assumption].
  split; cbn [parent_type parent_uid parent_shared_folder_uid].
  - exact Hat.
  - intros sf [= <-]. destruct Hat as [Hroot|Hknown]; [congruence|].
    rewrite <- Htype. exact Hknown.
Qed.

Lemma folder_component_parents_first (is_domain : bool) (b b1 : builder)
    (w w1 : walk) (c : bool * string) :
  parents_first p b -> walk_placed p b w ->
  folder_component p is_domain (b, w) c = (b1, w1) ->
  parents_first p b1 /\ walk_placed p b1 w1.
Proof.
  intros [Hhash Horder] [Hat Hsf]. destruct c as [is_last comp].
  unfold folder_component.
  destruct (folder_hash b !! folder_digest comp (parent_uid w))
    as [[[uid type] key]|] eqn:Hfound.
  - intros [= <- <-]. split; [split; assumption|].
    apply enter_shared_folder_placed. split; cbn.
    + right. eapply Hhash. exact Hfound.
    + exact Hsf.
  - destruct (new_folder p is_domain is_last comp (drawn b) w) as [rq w'] eqn:Hnew.
    intros [= <- <-].
    unfold new_folder in Hnew. injection Hnew as <- <-.
    set (folder_type := match parent_type w with
                        | UserFolderType | RootFolderType =>
                            if (if is_last then is_domain else false)
                            then SharedFolderType else UserFolderType
                        | _ => SharedFolderFolderType
                        end) in *.
    cbn [parent_uid parent_type parent_shared_folder_key].
    match goal with
    | |- context [FolderAdd ?r] => set (rq := r)
    end.
    assert (Hnew : known_folder p (folder_add b ++ [FolderAdd rq])
                     (generate_record_uid (uid_draws (drawn b))) folder_type).
    { right. exists rq. split; [|split; reflexivity].
      apply in_or_app. right. left. reflexivity. }
    split; [split|]; cbn [folder_hash folder_add].
    + intros digest uid type key Hl.
      apply lookup_insert_Some in Hl as [[_ [= <- <- _]]|[_ Hl]].
      * exact Hnew.
      * apply known_folder_later. eapply Hhash. exact Hl.
    + apply each_after_snoc; [exact Horder|]. subst rq. cbn. split.
      * destruct Hat as [Hroot|Hknown]; [rewrite Hroot; exact I|].
        subst folder_type.
        destruct (parent_type w); try exact I.
        -- left. split; [exact Hknown|].
           destruct (if is_last then is_domain else false); discriminate.
        -- right. split; [exact Hknown|reflexivity].
      * destruct (bool_decide_reflect (folder_type = SharedFolderFolderType))
          as [Htype|Htype]; cbn [andb]; [|exact I].
        destruct (truthy (parent_shared_folder_uid w)); cbn [andb]; [|exact I].
        destruct (truthy (parent_shared_folder_key w)); [|exact I].
        destruct (parent_shared_folder_uid w) as [sf|] eqn:Hpsf; [|exact I].
        split; [apply Hsf; reflexivity|exact Htype].
    + apply enter_shared_folder_placed. split; cbn.
      * right. exact Hnew.
      * intros sf Heq. apply known_folder_later. apply Hsf. exact Heq.
Qed.

Lemma folder_components_parents_first (is_domain : bool)
    (comps : list (bool * string)) :
  forall (b b1 : builder) (w w1 : walk),
    parents_first p b -> walk_placed p b w ->
    fold_left (folder_component p is_domain) comps (b, w) = (b1, w1) ->
    parents_first p b1 /\ walk_placed p b1 w1.
Proof.
  induction comps as [|c comps IH]; intros b b1 w w1 Hb Hw; cbn [fold_left].
  - intros [= <- <-]. split; assumption.
  - destruct (folder_component p is_domain (b, w) c) as [bm wm] eqn:Hstep.
    destruct (folder_component_parents_first _ _ _ _ _ _ Hb Hw Hstep)
      as [Hbm Hwm].
    apply IH; assumption.
Qed.

Lemma folder_path_parents_first (is_domain : bool) (path : option string)
    (b b1 : builder) (w w1 : walk) :
  parents_first p b -> walk_placed p b w ->
  folder_path p (b, w) is_domain path = (b1, w1) ->
  parents_first p b1 /\ walk_placed p b1 w1.
Proof.
  intros Hb Hw. unfold folder_path. destruct (truthy path).
  - apply folder_components_parents_first; assumption.
  - intros [= <- <-]. split; assumption.
Qed.

Lemma place_folder_parents_first (b b1 : builder) (fol fol' : ImportFolder) :
  parents_first p b ->
  place_folder p b fol = (b1, fol') ->
  parents_first p b1.
Proof.
  intros Hb. unfold place_folder.
  destruct (folder_path p (b, start) true (fol_domain fol)) as [bd wd] eqn:Hd.
  destruct (folder_path p (bd, wd) false (fol_path fol)) as [bp wp] eqn:Hp.
  intros [= <- _].
  assert (Hstart : walk_placed p b start)
    by (split; [left; reflexivity|discriminate]).
  destruct (folder_path_parents_first _ _ _ _ _ _ Hb Hstart Hd) as [Hbd Hwd].
  destruct (folder_path_parents_first _ _ _ _ _ _ Hbd Hwd Hp) as [Hbp _].
  exact Hbp.
Qed.

Lemma place_folders_parents_first (folders : list ImportFolder) :
  forall (b b1 : builder) (folders' : list ImportFolder),
    parents_first p b ->
    place_folders p b folders = (b1, folders') ->
    parents_first p b1.
Proof.
  induction folders as [|fol folders IH]; intros b b1 folders' Hb;
    cbn [place_folders].
  - intros [= <- _]. exact Hb.
  - destruct (place_folder p b fol) as [bm fol1] eqn:Hfol.
    destruct (place_folders p bm folders) as [be rest1] eqn:Hrest.
    intros [= <- _]. eapply IH; [|exact Hrest].
    eapply place_folder_parents_first; eassumption.
Qed.

Lemma place_records_parents_first (records : list ImportRecord) :
  forall (b b1 : builder) (records' : list ImportRecord),
    parents_first p b ->
    place_records p b records = (b1, records') ->
    parents_first p b1.
Proof.
  induction records as [|rec records IH]; intros b b1 records' Hb;
    cbn [place_records].
  - intros [= <- _]. exact Hb.
  - destruct (rec_folders rec) as [[|fol folders]|].
    + destruct (place_records p b records) as [be rest1] eqn:Hrest.
      intros [= <- _]. eapply IH; eassumption.
    + destruct (place_folders p b (fol :: folders)) as [bm folders1] eqn:Hfols.
      destruct (place_records p bm records) as [be rest1] eqn:Hrest.
      intros [= <- _]. eapply IH; [|exact Hrest].
      eapply place_folders_parents_first; eassumption.
    + destruct (place_records p b records) as [be rest1] eqn:Hrest.
      intros [= <- _]. eapply IH; eassumption.
Qed.

(** X11.  The requests of [prepare_folder_add] can be applied in their order:
    the parent that a [folder_add] names is cached or created by an
    earlier request of the batch, and so is the shared folder it names.
    The parent is a user folder, or a folder of a shared folder for a
    request that creates one; only such a request names a shared
    folder. *)
Theorem prepare_folder_add_parents_first
    (d d' : draws) (records records' : list ImportRecord) (adds : list request) :
  prepare_folder_add p d records = (adds, records', d') ->
  forall earlier rq later,
    adds = earlier ++ rq :: later -> hangs p earlier rq.
Proof.
  unfold prepare_folder_add.
  destruct (place_records p _ records) as [b1 recs1] eqn:Hrun.
  intros [= <- _ _].
  eapply place_records_parents_first in Hrun; [exact (proj2 Hrun)|].
  split; cbn [folder_hash folder_add].
  - intros digest uid type key Hl. left.
    eapply build_folder_hash_entries. exact Hl.
  - intros earlier rq later Heq. destruct earlier; discriminate.
Qed.

End ParentsFirst.

Lemma prepare_folder_add_parents_first_witness :
  exists adds records' d' work site,
    prepare_folder_add (ext := scenario []) (vault (fun _ => [])) no_draws
      [ site_record None [in_folder None (Some "Team") (Some "Work\Site A")] ]
    = (adds, records', d')
    /\ adds = [FolderAdd work; FolderAdd site]
    /\ hangs (vault (fun _ => [])) [] (FolderAdd work)
    /\ hangs (vault (fun _ => [])) [FolderAdd work] (FolderAdd site)
    /\ fa_shared_folder_uid work = Some "SF1"
    /\ fa_parent_uid site = Some (fa_folder_uid work).
Proof.
  destruct (prepare_folder_add (ext := scenario []) (vault (fun _ => []))
              no_draws
              [ site_record None
                  [in_folder None (Some "Team") (Some "Work\Site A")] ])
    as [[adds records'] d'] eqn:Hrun.
  pose proof (prepare_folder_add_parents_first (ext := scenario [])
                (vault (fun _ => [])) no_draws d' _ records' adds Hrun)
    as Hhangs.
  vm_compute in Hrun. injection Hrun as <- <- <-.
  eexists _, _, _, _, _. split; [reflexivity|]. split; [reflexivity|].
  split; [refine (Hhangs [] _ [_] eq_refl)|].
  split; [refine (Hhangs [_] _ [] eq_refl)|].
  split; reflexivity.
Defined.

(** ** Paths of the export *)

Example replace_overlapping : replace "aa" "b" "aaa" = "ba".
Proof. reflexivity. Qed.

Example replace_empty : replace "" "-" "ab" = "-a-b-".
Proof. reflexivity. Qed.

Example replace_delimiter : replace "\" "\\" "a\b\\c" = "a\\b\\\\c".
Proof. reflexivity. Qed.

Lemma string_app_empty (s t : string) : (s ++ t)%string = "" -> s = "" /\ t = "".
Proof. destruct s; cbn; [auto|discriminate]. Qed.

Lemma concat_empty (sep : string) (names : list string) :
  String.concat sep names = "" -> Forall (fun name => name = "") names.
Proof.
  induction names as [|name [|next rest] IH]; cbn [String.concat].
  - constructor.
  - intros ->. constructor; constructor.
  - intros Heq. apply string_app_empty in Heq as [-> Heq].
    apply string_app_empty in Heq as [_ Heq]. constructor; [reflexivity|].
    apply IH. exact Heq.
Qed.

Lemma skip_empty_head (names : list string) :
  match skip_empty names with
  | [] => True
  | name :: _ => name <> ""
  end.
Proof.
  induction names as [|name rest IH]; cbn [skip_empty]; [exact I|].
  destruct (String.eqb_spec name ""); [exact IH|assumption].
Qed.

Lemma skip_empty_snoc (names : list string) (name : string) :
  skip_empty (names ++ [name])
  = match skip_empty names with
    | [] => skip_empty [name]
    | _ :: _ => skip_empty names ++ [name]
    end.
Proof.
  induction names as [|n rest IH]; cbn [skip_empty app]; [reflexivity|].
  destruct (String.eqb n ""); [exact IH|reflexivity].
Qed.

(** The path is empty exactly when no name is left. *)
Lemma path_of_empty (sep : string) (names : list string) :
  path_of sep names = "" <-> skip_empty names = [] \/ skip_empty names = [""].
Proof.
  unfold path_of. pose proof (skip_empty_head names) as Hhead.
  destruct (skip_empty names) as [|name rest]; [cbn; tauto|].
  split.
  - intros Heq. apply concat_empty in Heq.
    apply Forall_rev in Heq. rewrite rev_involutive in Heq.
    inversion Heq; subst. contradiction.
  - intros [Habs|[= -> _]]; [discriminate|contradiction].
Qed.

Lemma path_of_snoc (sep : string) (names : list string) (name : string) :
  path_of sep (names ++ [name])
  = (if String.eqb (path_of sep names) "" then name
     else name ++ sep ++ path_of sep names)%string.
Proof.
  pose proof (path_of_empty sep names) as Hempty.
  pose proof (skip_empty_head names) as Hhead.
  unfold path_of in *. rewrite skip_empty_snoc.
  destruct (skip_empty names) as [|n rest] eqn:Hskip.
  - cbn [rev String.concat skip_empty app]. rewrite String.eqb_refl.
    destruct (String.eqb_spec name ""); [subst; reflexivity|reflexivity].
  - destruct (String.eqb_spec (String.concat sep (rev (n :: rest))) "")
      as [Heq|Hne].
    + apply Hempty in Heq as [Habs|[= -> _]]; [discriminate|contradiction].
    + rewrite rev_app_distr. cbn [rev app].
      destruct (rev rest ++ [n]) as [|x l] eqn:Hrev.
      * destruct (rev rest); discriminate.
      * reflexivity.
Qed.

Section ExportedPaths.

Variable PathDelimiter : string.
Variable p : params.

Lemma get_folder_path_loop_chain (uid : string) (fs : list folder_node) :
  chain p uid fs ->
  Forall named fs ->
  forall (fuel : nat) (names : list string),
    length fs < fuel ->
    get_folder_path_loop PathDelimiter p fuel uid (path_of PathDelimiter names)
    = Done (path_of PathDelimiter (names ++ escaped_names PathDelimiter fs)).
Proof.
  induction 1 as [uid Hout|uid f Hf Htop|uid f fs Hf Hup Hchain IH];
    intros Hnamed fuel names Hfuel;
    (destruct fuel as [|fuel]; [cbn [length] in Hfuel; lia|]);
    cbn [get_folder_path_loop].
  - rewrite Hout, app_nil_r. reflexivity.
  - rewrite Hf. unfold path_step. inversion Hnamed as [|? ? Hname _]; subst.
    destruct (fn_name f) as [name|] eqn:Hn; [|contradiction].
    rewrite Htop. cbn [escaped_names map]. rewrite Hn. cbn [default].
    rewrite path_of_snoc. reflexivity.
  - rewrite Hf. unfold path_step. inversion Hnamed as [|? ? Hname Hrest]; subst.
    destruct (fn_name f) as [name|] eqn:Hn; [|contradiction].
    rewrite Hup. rewrite <- path_of_snoc. rewrite IH.
    + cbn [escaped_names map]. rewrite Hn. cbn [default].
      rewrite <- app_assoc. reflexivity.
    + exact Hrest.
    + cbn [length] in Hfuel. lia.
Qed.

Lemma get_folder_path_loop_done (fuel : nat) :
  forall (uid result : string) (names : list string),
    get_folder_path_loop PathDelimiter p fuel uid (path_of PathDelimiter names)
    = Done result ->
    exists fs,
      chain p uid fs /\ Forall named fs
      /\ result = path_of PathDelimiter (names ++ escaped_names PathDelimiter fs).
Proof.
  induction fuel as [|fuel IH]; intros uid result names;
    cbn [get_folder_path_loop]; [discriminate|].
  destruct (Dict.get uid (folder_cache p)) as [f|] eqn:Hf.
  2:{ intros [= <-]. exists []. split; [apply chain_end; exact Hf|].
      split; [constructor|rewrite app_nil_r; reflexivity]. }
  unfold path_step. destruct (fn_name f) as [name|] eqn:Hn; [|discriminate].
  assert (Hnamed : named f) by (unfold named; congruence).
  assert (Hnames : escaped_names PathDelimiter [f] = [escaped PathDelimiter name]).
  { cbn [escaped_names map]. rewrite Hn. reflexivity. }
  rewrite <- path_of_snoc, <- Hnames.
  destruct (truthy (fn_parent_uid f)) eqn:Hup.
  - intros Hrun. apply IH in Hrun as (fs & Hchain & Hall & ->).
    exists (f :: fs). split; [apply chain_up; assumption|].
    split; [constructor 2; assumption|].
    rewrite <- app_assoc. reflexivity.
  - intros [= <-]. exists [f]. split; [apply chain_top; assumption|].
    split; [|reflexivity]. constructor 2; [exact Hnamed|constructor 1].
Qed.

Lemma chain_parent (uid parent : string) (fs : list folder_node) :
  chain p uid fs -> parent_of p uid parent ->
  exists f rest, fs = f :: rest /\ chain p parent rest.
Proof.
  intros Hchain (f & Hf & Hup & <-).
  inversion Hchain as [? Hout|? f' Hf' Htop|? f' rest Hf' Hup' Hrest]; subst.
  - congruence.
  - rewrite Hf in Hf'. injection Hf' as <-. congruence.
  - rewrite Hf in Hf'. injection Hf' as <-. eauto.
Qed.

Lemma chain_ancestor (uid above : string) :
  ancestor_of p uid above ->
  forall fs, chain p uid fs ->
             exists rest, chain p above rest /\ length rest < length fs.
Proof.
  induction 1 as [uid parent Hparent|uid parent above Hparent _ IH];
    intros fs Hchain;
    destruct (chain_parent _ _ _ Hchain Hparent) as (f & rest & -> & Hrest).
  - exists rest. split; [exact Hrest|cbn; lia].
  - destruct (IH _ Hrest) as (rest' & Hchain' & Hlen).
    exists rest'. split; [exact Hchain'|cbn; lia].
Qed.

Lemma no_chain_on_cycle (uid : string) :
  ancestor_of p uid uid -> forall fs, ~ chain p uid fs.
Proof.
  intros Hcycle fs. remember (length fs) as n eqn:Hn. revert fs Hn.
  induction n as [n IH] using lt_wf_ind. intros fs -> Hchain.
  destruct (chain_ancestor _ _ Hcycle _ Hchain) as (rest & Hrest & Hlen).
  exact (IH _ Hlen rest eq_refl Hrest).
Qed.

(** X12.  [get_folder_path] returns along a chain of named folders, within one
    step per folder and one more; what it returns is the path of the
    chain.  It returns in no other case. *)
Theorem get_folder_path_joins_escaped_names (folder_uid : string) :
  (forall fs fuel,
      chain p folder_uid fs -> Forall named fs -> length fs < fuel ->
      get_folder_path PathDelimiter p fuel folder_uid
      = Done (path_of PathDelimiter (escaped_names PathDelimiter fs)))
  /\ (forall fuel path,
        get_folder_path PathDelimiter p fuel folder_uid = Done path ->
        exists fs,
          chain p folder_uid fs /\ Forall named fs
          /\ path = path_of PathDelimiter (escaped_names PathDelimiter fs)).
Proof.
  unfold get_folder_path. split.
  - intros fs fuel Hchain Hnamed Hfuel.
    apply (get_folder_path_loop_chain _ _ Hchain Hnamed fuel [] Hfuel).
  - intros fuel path Hrun.
    apply (get_folder_path_loop_done fuel folder_uid path []) in Hrun.
    exact Hrun.
Qed.

Lemma get_import_folder_loop_chain (record_uid uid : string)
    (fs : list folder_node) :
  chain p uid fs ->
  forall (fuel : nat) (folder : ImportFolder),
    length fs < fuel ->
    get_import_folder_loop PathDelimiter p fuel record_uid uid folder
    = match export_steps PathDelimiter p record_uid fs folder with
      | Some result => Done result
      | None => NoName
      end.
Proof.
  induction 1 as [uid Hout|uid f Hf Htop|uid f fs Hf Hup Hchain IH];
    intros fuel folder Hfuel;
    (destruct fuel as [|fuel]; [cbn [length] in Hfuel; lia|]);
    cbn [get_import_folder_loop export_steps].
  - rewrite Hout. reflexivity.
  - rewrite Hf.
    destruct (import_folder_step PathDelimiter p record_uid f folder);
      [|reflexivity].
    rewrite Htop. reflexivity.
  - rewrite Hf.
    destruct (import_folder_step PathDelimiter p record_uid f folder);
      [|reflexivity].
    rewrite Hup. apply IH. cbn [length] in Hfuel. lia.
Qed.

Lemma get_import_folder_loop_done (record_uid : string) (fuel : nat) :
  forall (uid : string) (folder result : ImportFolder),
    get_import_folder_loop PathDelimiter p fuel record_uid uid folder
    = Done result ->
    exists fs, chain p uid fs
               /\ export_steps PathDelimiter p record_uid fs folder = Some result.
Proof.
  induction fuel as [|fuel IH]; intros uid folder result;
    cbn [get_import_folder_loop]; [discriminate|].
  destruct (Dict.get uid (folder_cache p)) as [f|] eqn:Hf.
  2:{ intros [= <-]. exists []. split; [apply chain_end; exact Hf|reflexivity]. }
  destruct (import_folder_step PathDelimiter p record_uid f folder)
    as [folder1|] eqn:Hstep; [|discriminate].
  destruct (truthy (fn_parent_uid f)) eqn:Hup.
  - intros Hrun. apply IH in Hrun as (fs & Hchain & Hsteps).
    exists (f :: fs). split; [apply chain_up; assumption|].
    cbn [export_steps]. rewrite Hstep. exact Hsteps.
  - intros [= <-]. exists [f]. split; [apply chain_top; assumption|].
    cbn [export_steps]. rewrite Hstep. reflexivity.
Qed.

(** X13.  On a folder that is its own ancestor through [parent_uid],
    neither [get_folder_path] nor [get_import_folder] returns: whatever the
    fuel, the loop is still running or has raised on a folder without a
    name. *)
Theorem folder_paths_never_return_on_a_cycle (uid : string) :
  ancestor_of p uid uid ->
  forall fuel,
    (forall path, get_folder_path PathDelimiter p fuel uid <> Done path)
    /\ (forall record_uid folder,
          get_import_folder PathDelimiter p fuel uid record_uid <> Done folder).
Proof.
  intros Hcycle fuel. split.
  - intros path Hrun.
    apply (get_folder_path_loop_done fuel uid path []) in Hrun
      as (fs & Hchain & _).
    exact (no_chain_on_cycle _ Hcycle _ Hchain).
  - intros record_uid folder Hrun.
    apply get_import_folder_loop_done in Hrun as (fs & Hchain & _).
    exact (no_chain_on_cycle _ Hcycle _ Hchain).
Qed.

Lemma path_option_next (names : list string) (name : string) :
  (if truthy (path_option PathDelimiter names)
   then name ++ PathDelimiter ++ or_empty (path_option PathDelimiter names)
   else name)%string
  = path_of PathDelimiter (names ++ [name]).
Proof.
  rewrite path_of_snoc. unfold path_option.
  destruct names as [|n rest]; [reflexivity|].
  cbn [truthy or_empty].
  destruct (String.eqb (path_of PathDelimiter (n :: rest)) "");
    reflexivity.
Qed.

Lemma export_steps_unshared (record_uid : string) (seg : list folder_node) :
  Forall named seg -> Forall unshared seg ->
  forall (folder : ImportFolder) (names : list string),
    fol_path folder = path_option PathDelimiter names ->
    export_steps PathDelimiter p record_uid seg folder
    = Some {| fol_uid := fol_uid folder;
              fol_domain := fol_domain folder;
              fol_path := path_option PathDelimiter (names ++ escaped_names PathDelimiter seg);
              fol_can_edit := fol_can_edit folder;
              fol_can_share := fol_can_share folder |}.
Proof.
  induction seg as [|f seg IH]; intros Hnamed Hunshared folder names Hpath;
    cbn [export_steps].
  - cbn [escaped_names map]. rewrite app_nil_r, <- Hpath.
    destruct folder. reflexivity.
  - inversion Hnamed as [|? ? Hname Hnamed']; subst.
    inversion Hunshared as [|? ? Htype Hunshared']; subst.
    unfold import_folder_step.
    destruct (fn_name f) as [name|] eqn:Hn; [|contradiction].
    rewrite decide_False by exact Htype.
    rewrite Hpath, path_option_next.
    rewrite (IH Hnamed' Hunshared' _ (names ++ [escaped PathDelimiter name])).
    + cbn [fol_uid fol_domain fol_can_edit fol_can_share escaped_names map].
      rewrite Hn. cbn [default]. rewrite <- app_assoc. reflexivity.
    + cbn [fol_path]. destruct names; reflexivity.
Qed.

Lemma export_step_shared (record_uid : string) (sf : folder_node)
    (folder : ImportFolder) (names : list string) :
  named sf -> fn_type sf = SharedFolderType ->
  fol_path folder = path_option PathDelimiter names ->
  import_folder_step PathDelimiter p record_uid sf folder
  = Some {| fol_uid := fol_uid folder;
            fol_domain :=
              Some (path_of PathDelimiter
                            (names ++ escaped_names PathDelimiter [sf]));
            fol_path := None;
            fol_can_edit :=
              match shared_entry p record_uid sf with
              | Some sfr => Some (sfr_can_edit sfr)
              | None => fol_can_edit folder
              end;
            fol_can_share :=
              match shared_entry p record_uid sf with
              | Some sfr => Some (sfr_can_share sfr)
              | None => fol_can_share folder
              end |}.
Proof.
  intros Hname Htype Hpath. unfold import_folder_step.
  destruct (fn_name sf) as [name|] eqn:Hn; [|contradiction].
  rewrite decide_True by exact Htype.
  rewrite Hpath, path_option_next. cbn [escaped_names map].
  rewrite Hn. reflexivity.
Qed.

Lemma export_steps_app (record_uid : string) (xs ys : list folder_node) :
  forall folder,
    export_steps PathDelimiter p record_uid (xs ++ ys) folder
    = match export_steps PathDelimiter p record_uid xs folder with
      | Some folder => export_steps PathDelimiter p record_uid ys folder
      | None => None
      end.
Proof.
  induction xs as [|f xs IH]; intros folder; cbn [app export_steps];
    [reflexivity|].
  destruct (import_folder_step PathDelimiter p record_uid f folder);
    [apply IH|reflexivity].
Qed.

Lemma get_import_folder_at_shared_folder
    (folder_uid record_uid : string) (below above : list folder_node)
    (sf : folder_node) (fuel : nat) :
  chain p folder_uid (below ++ sf :: above) ->
  Forall named (below ++ sf :: above) ->
  Forall unshared below ->
  fn_type sf = SharedFolderType ->
  Forall unshared above ->
  length (below ++ sf :: above) < fuel ->
  get_import_folder PathDelimiter p fuel folder_uid record_uid
  = Done {| fol_uid := None;
            fol_domain :=
              Some (path_of PathDelimiter
                            (escaped_names PathDelimiter (below ++ [sf])));
            fol_path := exported_path PathDelimiter above;
            fol_can_edit := sfr_can_edit <$> shared_entry p record_uid sf;
            fol_can_share := sfr_can_share <$> shared_entry p record_uid sf |}.
Proof.
  intros Hchain Hnamed Hbelow Htype Habove Hfuel. unfold get_import_folder.
  rewrite (get_import_folder_loop_chain _ _ _ Hchain) by exact Hfuel.
  apply Forall_app in Hnamed as [Hnamed_below Hnamed].
  inversion Hnamed as [|? ? Hname Hnamed_above]; subst.
  rewrite export_steps_app.
  rewrite (export_steps_unshared _ _ Hnamed_below Hbelow _ []) by reflexivity.
  cbn [export_steps app].
  rewrite (export_step_shared _ _ _ (escaped_names PathDelimiter below))
    by (assumption || reflexivity).
  rewrite (export_steps_unshared _ _ Hnamed_above Habove _ []) by reflexivity.
  cbn [fol_uid fol_domain fol_can_edit fol_can_share new_import_folder app].
  unfold escaped_names, exported_path. rewrite map_app.
  destruct (shared_entry p record_uid sf); reflexivity.
Qed.

(** X14.  Along a chain of named folders with one shared folder,
    [get_import_folder] returns the shared folder and the folders below it
    as [domain] and the folders above it as [path], each of them as the
    names from the top down with the delimiter between them; [can_edit] and
    [can_share] are those of the first entry of the record among the
    records of the shared folder, and [None] without one. *)
Theorem get_import_folder_splits_at_the_shared_folder
    (folder_uid record_uid : string) (below above : list folder_node)
    (sf : folder_node) (fuel : nat) :
  chain p folder_uid (below ++ sf :: above) ->
  Forall named (below ++ sf :: above) ->
  Forall unshared below ->
  fn_type sf = SharedFolderType ->
  Forall unshared above ->
  length (below ++ sf :: above) < fuel ->
  get_import_folder PathDelimiter p fuel folder_uid record_uid
  = Done {| fol_uid := None;
            fol_domain :=
              Some (path_of PathDelimiter
                            (escaped_names PathDelimiter (below ++ [sf])));
            fol_path := exported_path PathDelimiter above;
            fol_can_edit := sfr_can_edit <$> shared_entry p record_uid sf;
            fol_can_share := sfr_can_share <$> shared_entry p record_uid sf |}.
Proof. apply get_import_folder_at_shared_folder. Qed.

Lemma get_import_folder_unshared
    (folder_uid record_uid : string) (fs : list folder_node) (fuel : nat) :
  chain p folder_uid fs ->
  Forall named fs ->
  Forall unshared fs ->
  length fs < fuel ->
  get_import_folder PathDelimiter p fuel folder_uid record_uid
  = Done {| fol_uid := None;
            fol_domain := None;
            fol_path := exported_path PathDelimiter fs;
            fol_can_edit := None;
            fol_can_share := None |}
  /\ get_folder_path PathDelimiter p fuel folder_uid
     = Done (default "" (exported_path PathDelimiter fs)).
Proof.
  intros Hchain Hnamed Hunshared Hfuel. split.
  - unfold get_import_folder.
    rewrite (get_import_folder_loop_chain _ _ _ Hchain) by exact Hfuel.
    rewrite (export_steps_unshared _ _ Hnamed Hunshared _ []) by reflexivity.
    reflexivity.
  - unfold get_folder_path.
    change "" with (path_of PathDelimiter []) at 1.
    rewrite (get_folder_path_loop_chain _ _ Hchain Hnamed fuel [] Hfuel).
    unfold exported_path. cbn [app].
    destruct (escaped_names PathDelimiter fs); reflexivity.
Qed.

(** X15.  Along a chain of named folders none of which is a shared folder,
    [get_import_folder] returns a folder without [domain], [can_edit] and
    [can_share], and its [path] is what [get_folder_path] returns ([None]
    for [''], when the folder is not cached). *)
Theorem get_import_folder_without_shared_folder
    (folder_uid record_uid : string) (fs : list folder_node) (fuel : nat) :
  chain p folder_uid fs ->
  Forall named fs ->
  Forall unshared fs ->
  length fs < fuel ->
  get_import_folder PathDelimiter p fuel folder_uid record_uid
  = Done {| fol_uid := None;
            fol_domain := None;
            fol_path := exported_path PathDelimiter fs;
            fol_can_edit := None;
            fol_can_share := None |}
  /\ get_folder_path PathDelimiter p fuel folder_uid
     = Done (default "" (exported_path PathDelimiter fs)).
Proof. apply get_import_folder_unshared. Qed.

End ExportedPaths.

Lemma deep_chain :
  chain deep_vault "SFF2"
    [ FolderNode "SFF2" SharedFolderFolderType (Some "Deep") (Some "SFF1")
                 (Some "SF1");
      FolderNode "SFF1" SharedFolderFolderType (Some "Sub") (Some "SF1")
                 (Some "SF1");
      FolderNode "SF1" SharedFolderType (Some "Team") (Some "F1") None;
      FolderNode "F1" UserFolderType (Some "Work\2024") None None ].
Proof.
  apply chain_up; [reflexivity|reflexivity|].
  apply chain_up; [reflexivity|reflexivity|].
  apply chain_up; [reflexivity|reflexivity|].
  apply chain_top; reflexivity.
Qed.

Lemma get_folder_path_joins_escaped_names_witness :
  get_folder_path "\" deep_vault 5 "SFF2" = Done "Work\\2024\Team\Sub\Deep".
Proof.
  destruct (get_folder_path_joins_escaped_names "\" deep_vault "SFF2")
    as [Hreturns _].
  rewrite (Hreturns _ 5 deep_chain).
  - reflexivity.
  - repeat (constructor 2; [discriminate|]). constructor 1.
  - cbn. lia.
Defined.

Lemma folder_paths_never_return_on_a_cycle_witness :
  get_folder_path "\" deep_vault 50 "L1" = OutOfFuel
  /\ forall path, get_folder_path "\" deep_vault 50 "L1" <> Done path.
Proof.
  split; [reflexivity|].
  apply (folder_paths_never_return_on_a_cycle "\" deep_vault "L1").
  apply ancestor_further with (parent := "L2").
  - eexists. split; [reflexivity|]. split; reflexivity.
  - apply ancestor_parent. eexists. split; [reflexivity|]. split; reflexivity.
Defined.

Lemma get_import_folder_splits_at_the_shared_folder_witness :
  get_import_folder "\" deep_vault 5 "SFF2" "R1"
  = Done {| fol_uid := None;
            fol_domain := Some "Team\Sub\Deep";
            fol_path := Some "Work\\2024";
            fol_can_edit := Some true;
            fol_can_share := Some false |}.
Proof.
  rewrite (get_import_folder_splits_at_the_shared_folder "\" deep_vault
             "SFF2" "R1"
             [ FolderNode "SFF2" SharedFolderFolderType (Some "Deep")
                          (Some "SFF1") (Some "SF1");
               FolderNode "SFF1" SharedFolderFolderType (Some "Sub")
                          (Some "SF1") (Some "SF1") ]
             [ FolderNode "F1" UserFolderType (Some "Work\2024") None None ]
             (FolderNode "SF1" SharedFolderType (Some "Team") (Some "F1") None)
             5).
  - reflexivity.
  - exact deep_chain.
  - repeat (constructor 2; [discriminate|]). constructor 1.
  - repeat (constructor 2; [discriminate|]). constructor 1.
  - reflexivity.
  - repeat (constructor 2; [discriminate|]). constructor 1.
  - cbn. lia.
Defined.

Lemma get_import_folder_without_shared_folder_witness :
  get_import_folder "\" deep_vault 2 "F1" "R1"
  = Done {| fol_uid := None;
            fol_domain := None;
            fol_path := Some "Work\\2024";
            fol_can_edit := None;
            fol_can_share := None |}
  /\ get_folder_path "\" deep_vault 2 "F1" = Done "Work\\2024".
Proof.
  apply (get_import_folder_without_shared_folder "\" deep_vault "F1" "R1"
           [ FolderNode "F1" UserFolderType (Some "Work\2024") None None ] 2).
  - apply chain_top; reflexivity.
  - constructor 2; [discriminate|constructor 1].
  - constructor 2; [discriminate|constructor 1].
  - cbn. lia.
Defined.

(** ** An exported folder, imported again *)

Lemma indexed_components_first (comp next : string) (comps : list string) :
  exists rest,
    indexed_components (comp :: next :: comps) = (false, comp) :: rest.
Proof. unfold indexed_components. cbn. eexists. reflexivity. Qed.

Section RoundTrip.

Context {ext : Externals}.
Variable PathDelimiter : string.
(** The vault that is exported, and the vault that is imported into. *)
Variable p q : params.

(** X16.  A folder below a shared folder is exported with the shared folder as
    the first component of [domain]; [prepare_folder_add] makes the last
    component of a domain the shared folder.  So, when the exported domain
    splits into the name of the shared folder and further components, and
    the vault imported into has no folder of that name in its root, the
    first request of the import creates a user folder with the name of the
    shared folder. *)
Theorem exported_shared_folder_is_reimported_as_a_user_folder
    (folder_uid record_uid name : string) (below above : list folder_node)
    (sf : folder_node) (fuel : nat) (comps : list string) :
  chain p folder_uid (below ++ sf :: above) ->
  Forall named (below ++ sf :: above) ->
  Forall unshared below ->
  fn_type sf = SharedFolderType ->
  Forall unshared above ->
  length (below ++ sf :: above) < fuel ->
  path_of PathDelimiter (escaped_names PathDelimiter (below ++ [sf])) <> "" ->
  path_components
    (path_of PathDelimiter (escaped_names PathDelimiter (below ++ [sf])))
  = name :: comps ->
  comps <> [] ->
  build_folder_hash q !! folder_digest name "" = None ->
  exists fol,
    get_import_folder PathDelimiter p fuel folder_uid record_uid = Done fol
    /\ forall (rec : ImportRecord) (others : list ImportFolder)
              (rest : list ImportRecord) (d : draws),
         rec_folders rec = Some (fol :: others) ->
         exists rq more records' d',
           prepare_folder_add q d (rec :: rest)
           = (FolderAdd rq :: more, records', d')
           /\ fa_folder_type rq = UserFolderType
           /\ fa_parent_uid rq = None
           /\ fa_data rq = EncryptAes (PFolderData name) (urandom (key_draws d)).
Proof.
  intros Hchain Hnamed Hbelow Htype Habove Hfuel Hdomain Hsplit Hcomps Hnew.
  eexists. split.
  { apply get_import_folder_at_shared_folder; eassumption. }
  intros rec others rest d Hfolders.
  set (b0 := {| folder_hash := build_folder_hash q; folder_add := [];
                drawn := d |}).
  pose proof (tracked_initial q d) as Hb0. fold b0 in Hb0.
  destruct comps as [|next comps]; [contradiction|].
  destruct (indexed_components_first name next comps) as [cs Hcs].
  destruct (folder_component q true (b0, start) (false, name)) as [b1 w1]
    eqn:Hfirst.
  destruct (folder_component_tracked q d _ _ _ _ _ _ Hb0 Hfirst)
    as (Hb1 & _ & Hw1).
  assert (Hadd : exists rq,
             folder_add b1 = [FolderAdd rq]
             /\ fa_folder_type rq = UserFolderType
             /\ fa_parent_uid rq = None
             /\ fa_data rq
                = EncryptAes (PFolderData name) (urandom (key_draws d))).
  { unfold folder_component in Hfirst. cbn [parent_uid start] in Hfirst.
    subst b0. cbn [folder_hash] in Hfirst. rewrite Hnew in Hfirst.
    unfold new_folder in Hfirst. cbn in Hfirst.
    injection Hfirst as <- _. eexists. split; [reflexivity|].
    repeat split. }
  destruct Hadd as (rq & Hadd & Hrq).
  destruct (fold_left (folder_component q true) cs (b1, w1)) as [b2 w2]
    eqn:Hdomain_rest.
  destruct (folder_components_tracked q d _ _ _ _ _ _ Hb1 Hw1 Hdomain_rest)
    as (Hb2 & (more2 & Hmore2) & Hw2).
  destruct (folder_path q (b2, w2) false None) as [b3 w3] eqn:Hpath.
  clear Hpath b3 w3.
  unfold prepare_folder_add. fold b0. cbn [place_records].
  rewrite Hfolders. cbn [place_folders].
  unfold place_folder at 1.
  cbn [fol_domain fol_path fol_can_edit fol_can_share].
  unfold folder_path at 2.
  assert (Htruthy : truthy (Some (path_of PathDelimiter
                      (escaped_names PathDelimiter (below ++ [sf])))) = true).
  { cbn [truthy]. apply negb_true_iff. apply String.eqb_neq. exact Hdomain. }
  rewrite Htruthy.
  assert (Hor : or_empty (Some (path_of PathDelimiter
                   (escaped_names PathDelimiter (below ++ [sf]))))
                = path_of PathDelimiter
                    (escaped_names PathDelimiter (below ++ [sf]))).
  { cbn [or_empty]. apply String.eqb_neq in Hdomain. rewrite Hdomain.
    reflexivity. }
  rewrite Hor, Hsplit, Hcs. cbn [fold_left]. rewrite Hfirst, Hdomain_rest.
  destruct (folder_path q (b2, w2) false (exported_path PathDelimiter above))
    as [b3 w3] eqn:Hpath.
  destruct (folder_path_tracked q d _ _ _ _ _ _ Hb2 Hw2 Hpath)
    as (Hb3 & (more3 & Hmore3) & _).
  destruct (place_folders q b3 others) as [b4 others'] eqn:Hothers.
  destruct (place_folders_tracked q d _ _ _ _ Hb3 Hothers)
    as (Hb4 & (more4 & Hmore4) & _).
  destruct (place_records q b4 rest) as [b5 rest'] eqn:Hrest.
  destruct (place_records_tracked q d _ _ _ _ Hb4 Hrest)
    as (_ & (more5 & Hmore5) & _).
  eexists rq, (more2 ++ more3 ++ more4 ++ more5), _, _.
  split; [|exact Hrq].
  rewrite Hmore5, Hmore4, Hmore3, Hmore2, Hadd.
  rewrite <- !app_assoc. reflexivity.
Qed.

End RoundTrip.

Lemma exported_shared_folder_is_reimported_as_a_user_folder_witness :
  exists fol rq more records' d',
    get_import_folder "\" (vault (fun _ => [])) 3 "SFF1" "R1" = Done fol
    /\ fol_domain fol = Some "Team\Sub"
    /\ prepare_folder_add (ext := scenario []) empty_vault no_draws
                          [site_record None [fol]]
       = (FolderAdd rq :: more, records', d')
    /\ fa_folder_type rq = UserFolderType
    /\ fa_data rq = EncryptAes (PFolderData "Team") (scenario_key 0).
Proof.
  destruct (exported_shared_folder_is_reimported_as_a_user_folder
              (ext := scenario []) "\" (vault (fun _ => [])) empty_vault
              "SFF1" "R1" "Team"
              [ FolderNode "SFF1" SharedFolderFolderType (Some "Sub")
                           (Some "SF1") (Some "SF1") ]
              []
              (FolderNode "SF1" SharedFolderType (Some "Team") None None)
              3 ["Sub"])
    as (fol & Hexport & Himport).
  - apply chain_up; [reflexivity|reflexivity|]. apply chain_top; reflexivity.
  - repeat (constructor 2; [discriminate|]). constructor 1.
  - repeat (constructor 2; [discriminate|]). constructor 1.
  - reflexivity.
  - constructor 1.
  - cbn. lia.
  - discriminate.
  - reflexivity.
  - discriminate.
  - reflexivity.
  - destruct (Himport (site_record None [fol]) [] [] no_draws eq_refl)
      as (rq & more & records' & d' & Hrun & Htype & _ & Hdata).
    exists fol, rq, more, records', d'.
    split; [exact Hexport|]. split.
    + vm_compute in Hexport. injection Hexport as <-. reflexivity.
    + split; [exact Hrun|]. split; [exact Htype|exact Hdata].
Defined.

(** ** Shared folders from a file *)

Section FromFile.

(** JSON values, the state of the vault service and the requests to it. *)

Variable json : Type.
Variable empty_list : json.
Variable state : Type.
Variable sf_request : Type.
Variable prepare_shared_folder : SharedFolderObject json -> py sf_request.
Variable shared_folder_uid : sf_request -> string.
Variable communicate : state -> sf_request -> state * py sf_response.

Local Abbreviation create_one :=
  (create_one json empty_list state sf_request prepare_shared_folder
              shared_folder_uid communicate).
Local Abbreviation create_loop :=
  (create_loop json empty_list state sf_request prepare_shared_folder
               shared_folder_uid communicate).
Local Abbreviation create_sf :=
  (create_sf json empty_list state sf_request prepare_shared_folder
             shared_folder_uid communicate).

Lemma create_loop_app (xs ys : list (Dict.t json)) :
  forall s,
    create_loop s (xs ++ ys)
    = match create_loop s xs with
      | (st, Ret c) => create_loop (st, c) ys
      | (st, Raise e) => (st, Raise e)
      end.
Proof.
  induction xs as [|x xs IH]; intros [st c]; cbn [app create_loop];
    [reflexivity|].
  destruct (create_one (st, c) x) as [st1 [c1|e]]; [apply IH|reflexivity].
Qed.

Lemma parse_sf_json_missing (j : Dict.t json) (key : string) :
  In key required_keys -> Dict.get key j = None ->
  exists missing,
    In missing required_keys
    /\ parse_sf_json json empty_list j = Raise (KeyError missing).
Proof.
  intros Hkey Hmissing. unfold parse_sf_json, Dict.item.
  destruct (Dict.get "default_manage_records" j) eqn:H1; cbn [py_bind];
    [|exists "default_manage_records"; split; [cbn; tauto|reflexivity]].
  destruct (Dict.get "default_manage_users" j) eqn:H2; cbn [py_bind];
    [|exists "default_manage_users"; split; [cbn; tauto|reflexivity]].
  destruct (Dict.get "default_can_edit" j) eqn:H3; cbn [py_bind];
    [|exists "default_can_edit"; split; [cbn; tauto|reflexivity]].
  destruct (Dict.get "default_can_share" j) eqn:H4; cbn [py_bind];
    [|exists "default_can_share"; split; [cbn; tauto|reflexivity]].
  destruct (Dict.get "name" j) eqn:H5; cbn [py_bind];
    [|exists "name"; split; [cbn; tauto|reflexivity]].
  exfalso. cbn in Hkey.
  destruct Hkey as [<-|[<-|[<-|[<-|[<-|[]]]]]]; congruence.
Qed.

(** X17.  [create_sf] stops at the first shared folder of the file that lacks
    a required key: it raises the [KeyError] of a required key, the
    requests for the shared folders before it have been sent, and none is
    sent for a shared folder after it. *)
Theorem create_sf_stops_at_a_malformed_shared_folder
    (st st1 : state) (c1 : sf_counters) (before after : list (Dict.t json))
    (malformed : Dict.t json) (key : string) :
  create_loop (st, {| num_success := 0; add_records_success := [];
                      user_success := []; printed := [] |}) before
  = (st1, Ret c1) ->
  In key required_keys ->
  Dict.get key malformed = None ->
  exists missing,
    In missing required_keys
    /\ create_sf st (before ++ malformed :: after)
       = (st1, Raise (KeyError missing)).
Proof.
  intros Hbefore Hkey Hmissing.
  destruct (parse_sf_json_missing malformed key Hkey Hmissing)
    as (missing & Hin & Hparse).
  exists missing. split; [exact Hin|].
  unfold create_sf. rewrite create_loop_app, Hbefore.
  cbn [create_loop]. unfold create_one. rewrite Hparse. reflexivity.
Qed.

Lemma count_response_counted (request : sf_request) (response : sf_response)
    (c c' : sf_counters) :
  count_response sf_request shared_folder_uid request response c = Ret c' ->
  0 < length (user_success c') + length (add_records_success c') ->
  0 < num_success c'.
Proof.
  unfold count_response.
  match goal with
  | |- py_bind ?users _ = _ -> _ => destruct users as [cu|e]
  end; cbn [py_bind]; [|discriminate].
  match goal with
  | |- py_bind ?records _ = _ -> _ => destruct records as [cr|e]
  end; cbn [py_bind]; [|discriminate].
  destruct (0 <? length (user_success cr) + length (add_records_success cr))%nat
    eqn:Hany; intros [= <-]; cbn [num_success]; [lia|].
  apply Nat.ltb_ge in Hany. lia.
Qed.

Lemma create_loop_counted (file : list (Dict.t json)) :
  forall st c st' c',
    create_loop (st, c) file = (st', Ret c') ->
    (0 < length (user_success c) + length (add_records_success c) ->
     0 < num_success c) ->
    0 < length (user_success c') + length (add_records_success c') ->
    0 < num_success c'.
Proof.
  induction file as [|json_sf file IH]; intros st c st' c'; cbn [create_loop].
  - intros [= <- <-]. auto.
  - destruct (create_one (st, c) json_sf) as [st1 [c1|e]] eqn:Hone;
      [|discriminate].
    intros Hrun _. eapply IH; [exact Hrun|].
    unfold create_one in Hone.
    destruct (parse_sf_json json empty_list json_sf) as [sf|];
      [|discriminate].
    destruct (prepare_shared_folder sf) as [request|]; [|discriminate].
    destruct (communicate st request) as [st2 [response|]]; [|discriminate].
    injection Hone as _ Hcount.
    eapply count_response_counted. exact Hcount.
Qed.

Local Abbreviation told_nothing :=
  (told_nothing empty_list prepare_shared_folder communicate).

Lemma create_loop_stale (later : list (Dict.t json)) :
  Forall told_nothing later ->
  forall st c,
    0 < length (user_success c) + length (add_records_success c) ->
    exists st' c',
      create_loop (st, c) later = (st', Ret c')
      /\ num_success c' = num_success c + length later.
Proof.
  induction 1 as [|json_sf later (sf & request & Hparse & Hprepare & Hsilent) _ IH];
    intros st c Hstale; cbn [create_loop].
  - exists st, c. split; [reflexivity|cbn; lia].
  - unfold create_one. rewrite Hparse, Hprepare.
    destruct (Hsilent st) as [st1 Hanswer]. rewrite Hanswer.
    unfold count_response. cbn [silent rs_add_users rs_add_records py_bind].
    apply Nat.ltb_lt in Hstale. rewrite Hstale.
    apply Nat.ltb_lt in Hstale.
    destruct (IH st1 {| num_success := S (num_success c);
                        add_records_success := add_records_success c;
                        user_success := user_success c;
                        printed := printed c
                                   ++ [CreatedSharedFolder
                                         (shared_folder_uid request)] |}
                 Hstale) as (st' & c' & Hrun & Hcount).
    exists st', c'. split; [exact Hrun|].
    rewrite Hcount. cbn [num_success length]. lia.
Qed.

(** X18.  [user_success] and [add_records_success] keep the value of an
    earlier turn of the loop when the answer has no ['add_users'] or no
    ['add_records']: once a shared folder of the file had one user or
    record added, every later shared folder whose answer tells of neither
    is counted, and reported, as created. *)
Theorem create_sf_counts_shared_folders_that_told_nothing
    (st st1 : state) (c1 : sf_counters) (before later : list (Dict.t json)) :
  create_loop (st, {| num_success := 0; add_records_success := [];
                      user_success := []; printed := [] |}) before
  = (st1, Ret c1) ->
  0 < length (user_success c1) + length (add_records_success c1) ->
  Forall told_nothing later ->
  exists st2 out,
    create_sf st (before ++ later) = (st2, Ret out)
    /\ last out = Some (CreatedSharedFolders (num_success c1 + length later)).
Proof.
  intros Hbefore Hstale Hlater.
  destruct (create_loop_stale later Hlater st1 c1 Hstale)
    as (st2 & c2 & Hrun & Hcount).
  unfold create_sf. rewrite create_loop_app, Hbefore, Hrun.
  assert (Hpositive : (0 <? num_success c2)%nat = true).
  { apply Nat.ltb_lt. rewrite Hcount.
    pose proof (create_loop_counted _ _ _ _ _ Hbefore) as Hcounted.
    cbn [user_success add_records_success length] in Hcounted.
    specialize (Hcounted ltac:(lia) Hstale). lia. }
  rewrite Hpositive. eexists _, _. split; [reflexivity|].
  rewrite last_snoc, Hcount. reflexivity.
Qed.

End FromFile.

Lemma create_sf_stops_at_a_malformed_shared_folder_witness :
  create_sf string "[]" nat string request_by_name id first_only 0
            [ named_shared_folder "first"; [("name", "second")];
              named_shared_folder "third" ]
  = (1, Raise (KeyError "default_manage_records")).
Proof.
  destruct (create_sf_stops_at_a_malformed_shared_folder string "[]" nat
              string request_by_name id first_only 0 1
              {| num_success := 1; add_records_success := [];
                 user_success := [ {| info_status := Some "success" |} ];
                 printed := [UsersAdded 1; CreatedSharedFolder "first"] |}
              [named_shared_folder "first"] [named_shared_folder "third"]
              [("name", "second")] "default_manage_records")
    as (missing & _ & Hrun).
  - reflexivity.
  - left. reflexivity.
  - reflexivity.
  - pose proof Hrun as Hvalue. vm_compute in Hvalue.
    injection Hvalue as <-. exact Hrun.
Defined.

Lemma create_sf_counts_shared_folders_that_told_nothing_witness :
  exists out,
    create_sf string "[]" nat string request_by_name id first_only 0
              [ named_shared_folder "first"; named_shared_folder "second";
                named_shared_folder "third" ]
    = (3, Ret out)
    /\ last out = Some (CreatedSharedFolders 3).
Proof.
  destruct (create_sf_counts_shared_folders_that_told_nothing string "[]" nat
              string request_by_name id first_only 0 1
              {| num_success := 1; add_records_success := [];
                 user_success := [ {| info_status := Some "success" |} ];
                 printed := [UsersAdded 1; CreatedSharedFolder "first"] |}
              [named_shared_folder "first"]
              [named_shared_folder "second"; named_shared_folder "third"])
    as (st2 & out & Hrun & Hlast).
  - reflexivity.
  - cbn. lia.
  - constructor 2; [|constructor 2; [|constructor 1]];
      eexists _, _; (split; [reflexivity|]); (split; [reflexivity|]);
      intros st; eexists; reflexivity.
  - pose proof Hrun as Hvalue. vm_compute in Hvalue.
    injection Hvalue as <- <-.
    eexists. split; [exact Hrun|exact Hlast].
Defined.

(** ** An exported folder, found again *)

Lemma indexed_components_names (comps : list string) :
  map snd (indexed_components comps) = comps.
Proof.
  unfold indexed_components. rewrite map_map. cbn [snd].
  apply (nth_ext _ _ "" "").
  - rewrite length_map, length_seq. reflexivity.
  - intros n Hn. rewrite length_map, length_seq in Hn.
    rewrite (nth_indep _ _ (nth 0 comps "")) by (rewrite length_map, length_seq; exact Hn).
    change (nth 0 comps "") with ((fun i => nth i comps "") 0).
    rewrite map_nth, seq_nth by exact Hn. reflexivity.
Qed.

Lemma dict_get_in {V : Type} (k : string) (d : Dict.t V) (v : V) :
  Dict.get k d = Some v -> In (k, v) d.
Proof.
  induction d as [|[k' v'] d IH]; cbn [Dict.get]; [discriminate|].
  destruct (String.eqb_spec k k') as [->|Hne].
  - intros [= <-]. left. reflexivity.
  - intros Hget. right. apply IH. exact Hget.
Qed.

Lemma filter_only {A : Type} (g : A -> string) (l : list A) (x : A) :
  NoDup (map g l) -> In x l ->
  filter (fun e => g e = g x) l = [x].
Proof.
  induction l as [|y l IH]; intros Hnodup Hin; [destruct Hin|].
  cbn [map] in Hnodup. inversion Hnodup as [|? ? Hfresh Hrest]; subst.
  rewrite filter_cons. destruct Hin as [->|Hin].
  - rewrite decide_True by reflexivity. f_equal.
    clear IH Hnodup Hrest. induction l as [|z l IHl]; [reflexivity|].
    rewrite filter_cons. destruct (decide (g z = g x)) as [Heq|Hne].
    + exfalso. apply Hfresh. rewrite <- Heq. apply list_elem_of_In.
      left. reflexivity.
    + apply IHl. intros Hin. apply Hfresh. apply list_elem_of_In. right.
      apply list_elem_of_In. exact Hin.
  - destruct (decide (g y = g x)) as [Heq|Hne].
    + exfalso. apply Hfresh. rewrite Heq. apply list_elem_of_In.
      apply in_map. exact Hin.
    + apply IH; assumption.
Qed.

Lemma build_folder_hash_finds (p : params) (uid : string) (f : folder_node) :
  distinct_folders p ->
  Dict.get uid (folder_cache p) = Some f ->
  build_folder_hash p !! cached_folder_digest f
  = Some (uid, fn_type f, cached_shared_folder_key p f).
Proof.
  intros Hdistinct Hget. apply dict_get_in in Hget.
  unfold build_folder_hash.
  rewrite (fold_insert_last
             (fun e : string * folder_node => cached_folder_digest e.2)
             (fun e : string * folder_node =>
                (e.1, fn_type e.2, cached_shared_folder_key p e.2))).
  2:{ intros h [uid' fol]. reflexivity. }
  change (cached_folder_digest f) with (cached_folder_digest (uid, f).2).
  rewrite (filter_only (fun e : string * folder_node =>
                          cached_folder_digest e.2) _ (uid, f) Hdistinct Hget).
  reflexivity.
Qed.

Lemma or_empty_default (o : option string) : or_empty o = default "" o.
Proof. destruct o as [s|]; [apply or_empty_some|reflexivity]. Qed.

Lemma or_empty_falsy (o : option string) : truthy o = false -> or_empty o = "".
Proof.
  destruct o as [s|]; cbn [truthy or_empty]; [|reflexivity].
  destruct (String.eqb s ""); [reflexivity|discriminate].
Qed.

Lemma folder_digest_lower (comp name parent : string) :
  lower comp = lower name -> folder_digest comp parent = folder_digest name parent.
Proof. intros Heq. unfold folder_digest. rewrite Heq. reflexivity. Qed.

Section FoundAgain.

Context {ext : Externals}.
Variable PathDelimiter : string.
Variable p : params.

Lemma found_component (is_domain : bool) (b : builder) (w : walk)
    (c : bool * string) (uid : string) (f : folder_node) :
  distinct_folders p ->
  folder_hash b = build_folder_hash p ->
  Dict.get uid (folder_cache p) = Some f ->
  parent_uid w = or_empty (fn_parent_uid f) ->
  lower c.2 = lower (default "" (fn_name f)) ->
  exists w',
    folder_component p is_domain (b, w) c = (b, w') /\ parent_uid w' = uid.
Proof.
  intros Hdistinct Hhash Hget Hparent Hname. destruct c as [is_last comp].
  unfold folder_component. rewrite Hparent, Hhash.
  rewrite (folder_digest_lower _ _ _ Hname), <- or_empty_default.
  fold (cached_folder_digest f).
  rewrite (build_folder_hash_finds _ _ _ Hdistinct Hget).
  eexists. split; [reflexivity|]. rewrite enter_shared_folder_uid. reflexivity.
Qed.

Lemma found_walk (is_domain : bool) (b : builder) (uid : string)
    (fs : list folder_node) :
  chain p uid fs ->
  distinct_folders p ->
  folder_hash b = build_folder_hash p ->
  rooted fs -> fs <> [] ->
  forall (cs : list (bool * string)) (w : walk),
    parent_uid w = "" ->
    map (fun c => lower c.2) cs = map lower (rev (folder_names fs)) ->
    exists w',
      fold_left (folder_component p is_domain) cs (b, w) = (b, w')
      /\ parent_uid w' = uid.
Proof.
  intros Hchain Hdistinct Hhash.
  induction Hchain as [uid Hout|uid f Hf Htop|uid f fs Hf Hup Hchain IH];
    intros Hrooted Hsome cs w Hw Hcs.
  - contradiction.
  - cbn in Hcs. destruct cs as [|c [|c' cs]]; try discriminate.
    injection Hcs as Hc. cbn [fold_left].
    apply (found_component _ _ _ _ _ f); try assumption.
    rewrite Hw. symmetry. apply or_empty_falsy. exact Htop.
  - assert (Hrest : fs <> []).
    { intros ->. specialize (Hrooted f eq_refl). congruence. }
    assert (Hrooted' : rooted fs).
    { intros f' Hlast. apply Hrooted.
      destruct fs as [|f0 fs']; [contradiction|]. exact Hlast. }
    cbn [folder_names map rev] in Hcs. rewrite map_app in Hcs. cbn [map] in Hcs.
    destruct cs as [|c cs _] using rev_ind.
    { destruct (map lower (rev (map (fun f0 => default "" (fn_name f0)) fs)));
        discriminate. }
    rewrite map_app in Hcs. cbn [map] in Hcs.
    apply app_inj_tail in Hcs as [Hcs Hc].
    destruct (IH Hrooted' Hrest cs w Hw Hcs) as (w1 & Hrun & Hw1).
    rewrite fold_left_snoc, Hrun.
    apply (found_component _ _ _ _ _ f); assumption.
Qed.

(** X19.  A folder in a tree of user folders that is exported and imported
    into the same vault is found again: when [path_components] gives back
    the names of the exported path, be it with other letter case, and no
    folder has two subfolders of the same name, [prepare_folder_add] makes
    no request and resolves the folder to the uid it was exported from. *)
Theorem exported_user_folder_is_found_again
    (folder_uid record_uid : string) (fs : list folder_node) (fuel : nat) :
  chain p folder_uid fs ->
  Forall named fs ->
  Forall unshared fs ->
  rooted fs -> fs <> [] ->
  length fs < fuel ->
  distinct_folders p ->
  path_of PathDelimiter (escaped_names PathDelimiter fs) <> "" ->
  map lower (path_components
               (path_of PathDelimiter (escaped_names PathDelimiter fs)))
  = map lower (rev (folder_names fs)) ->
  exists fol,
    get_import_folder PathDelimiter p fuel folder_uid record_uid = Done fol
    /\ forall (rec : ImportRecord) (d : draws),
         rec_folders rec = Some [fol] ->
         prepare_folder_add p d [rec]
         = ([], [with_folders rec (Some [resolved_to folder_uid fol])], d).
Proof.
  intros Hchain Hnamed Hunshared Hrooted Hsome Hfuel Hdistinct Hpath Hsplit.
  destruct (get_import_folder_unshared PathDelimiter p folder_uid
              record_uid fs fuel Hchain Hnamed Hunshared Hfuel) as [Hexport _].
  eexists. split; [exact Hexport|].
  intros rec d Hfolders.
  unfold prepare_folder_add. cbn [place_records]. rewrite Hfolders.
  cbn [place_folders]. unfold place_folder.
  cbn [fol_domain fol_path fol_can_edit fol_can_share].
  assert (Hexported : exported_path PathDelimiter fs
                      = Some (path_of PathDelimiter
                                      (escaped_names PathDelimiter fs))).
  { unfold exported_path, path_option.
    destruct fs as [|f fs']; [contradiction|reflexivity]. }
  rewrite Hexported. unfold folder_path.
  rewrite (truthy_some _ Hpath), or_empty_some. cbn [truthy].
  match goal with
  | |- context [fold_left ?step ?cs (?b, start)] =>
      destruct (found_walk false b folder_uid fs Hchain Hdistinct eq_refl
                  Hrooted Hsome cs start eq_refl) as (w' & Hrun & Hw')
  end.
  { rewrite <- Hsplit.
    transitivity (map lower (map snd (indexed_components
                    (path_components
                       (path_of PathDelimiter
                                (escaped_names PathDelimiter fs)))))).
    - rewrite map_map. reflexivity.
    - rewrite indexed_components_names. reflexivity. }
  rewrite Hrun, Hw'. reflexivity.
Qed.

End FoundAgain.

Lemma exported_user_folder_is_found_again_witness :
  exists fol,
    get_import_folder "\" nested_vault 3 "F2" "R1" = Done fol
    /\ fol_path fol = Some "Work\Sites"
    /\ prepare_folder_add (ext := scenario []) nested_vault no_draws
                          [site_record None [fol]]
       = ([], [site_record None [resolved_to "F2" fol]], no_draws).
Proof.
  destruct (exported_user_folder_is_found_again (ext := scenario []) "\"
              nested_vault "F2" "R1"
              [ FolderNode "F2" UserFolderType (Some "Sites") (Some "F1") None;
                FolderNode "F1" UserFolderType (Some "Work") None None ] 3)
    as (fol & Hexport & Himport).
  - apply chain_up; [reflexivity|reflexivity|]. apply chain_top; reflexivity.
  - repeat (constructor 2; [discriminate|]). constructor 1.
  - repeat (constructor 2; [discriminate|]). constructor 1.
  - intros f [= <-]. reflexivity.
  - discriminate.
  - cbn. lia.
  - unfold distinct_folders. apply (bool_decide_unpack _). vm_compute. exact I.
  - discriminate.
  - reflexivity.
  - exists fol. split; [exact Hexport|]. split.
    + vm_compute in Hexport. injection Hexport as <-. reflexivity.
    + apply (Himport (site_record None [fol]) no_draws). reflexivity.
Defined.
